(** * KWS data collection front end: capture session, waveform normaliser
      and speech gate

    A shallow embedding of the TypeScript sources
    - [utils/audioUtils.ts]  (mixToMono, resampleTo16k, encodeWavPcm16,
      normalizeToFixedSamples, convertBlobTo16kMonoWav),
    - [utils/gate.ts]        (normalizePcmLength, analyzePcmForSpeechGate),
    - [hooks/useRecorder.ts] (the capture session of the recorder hook),
    - [App.tsx]              (the progress bar and the main button),
    - two earlier revisions  (the duration check of the hook and the first
      page),
    followed by the properties the specification states about them and by
    further properties of the code.

    JavaScript numbers are IEEE 754 binary64 values: they are modelled by
    Rocq's primitive floats, which are the same format with the same
    round-to-nearest-even arithmetic.  Array lengths, loop counters and byte
    values are integers in the source and are [nat] or [Z] here. *)

From Stdlib Require Import String Ascii.
From Stdlib Require Import ZArith List Bool Lia.
From Stdlib Require Import Floats Uint63.
Import ListNotations.

Set Implicit Arguments.
Set Warnings "-inexact-float,-abstract-large-number".

(* ================================================================== *)
(** * JavaScript numbers *)
(* ================================================================== *)

Module JsNum.

Local Open Scope float_scope.

Definition number := float.

(** An array length or a counter read as a number (exact below 2^53). *)
Definition of_Z (z : Z) : number :=
  if (z <? 0)%Z then - (PrimFloat.of_uint63 (Uint63.of_Z (- z)))
  else PrimFloat.of_uint63 (Uint63.of_Z z).

Definition of_nat (n : nat) : number := of_Z (Z.of_nat n).

(** The mantissa of a finite number with its sign. *)
Definition signed (s : bool) (m : positive) : Z :=
  if s then Z.neg m else Z.pos m.

(** [floorZ], [roundZ] and [truncZ] are the exact integer functions on the
    value [m * 2^e]; they are [None] on NaN and the infinities. *)
Definition floorZ (x : number) : option Z :=
  match Prim2SF x with
  | S754_zero _ => Some 0%Z
  | S754_finite s m e => Some (Z.shiftl (signed s m) e)
  | _ => None
  end.

(** Ties go towards plus infinity: [round x = floor (x + 1/2)], computed on
    [2x + 1] so that no rounding of the sum interferes. *)
Definition roundZ (x : number) : option Z :=
  match Prim2SF x with
  | S754_zero _ => Some 0%Z
  | S754_finite s m e =>
      if (-1 <=? e)%Z
      then Some (Z.shiftr (Z.shiftl (signed s m) (e + 1) + 1) 1)
      else Some (Z.shiftr (signed s m + Z.shiftl 1 (- (e + 1))) (- e))
  | _ => None
  end.

Definition truncZ (x : number) : option Z :=
  match Prim2SF x with
  | S754_zero _ => Some 0%Z
  | S754_finite s m e =>
      let a := Z.shiftl (Z.pos m) e in Some (if s then (- a)%Z else a)
  | _ => None
  end.

Definition is_negative (x : number) : bool := x <? 0.

(** An integer result as a number again; a zero result keeps the sign of a
    negative argument, as in ECMAScript. *)
Definition integral (x : number) (r : option Z) : number :=
  match r with
  | None => x
  | Some z =>
      if PrimFloat.is_zero x then x
      else if (z =? 0)%Z then (if is_negative x then -0 else 0)
      else if (Z.abs z <? 2 ^ 53)%Z then of_Z z
      else x
  end.

Definition Math_floor (x : number) : number := integral x (floorZ x).
Definition Math_round (x : number) : number := integral x (roundZ x).
Definition Math_abs   (x : number) : number := PrimFloat.abs x.
Definition Math_sqrt  (x : number) : number := PrimFloat.sqrt x.

(** [Math.min] and [Math.max] of two numbers: NaN if either is NaN, and
    the negative zero counts as smaller than the positive one. *)
Definition Math_min (a b : number) : number :=
  if PrimFloat.is_nan a then a
  else if PrimFloat.is_nan b then b
  else if a <? b then a
  else if b <? a then b
  else if PrimFloat.get_sign a then a else b.

Definition Math_max (a b : number) : number :=
  if PrimFloat.is_nan a then a
  else if PrimFloat.is_nan b then b
  else if b <? a then a
  else if a <? b then b
  else if PrimFloat.get_sign a then b else a.

(** ToInt16, ToUint16 and ToUint32 of ECMAScript: NaN and the infinities
    give 0, other numbers are truncated and wrapped. *)
Definition ToIntegerOrZero (x : number) : Z :=
  match truncZ x with Some z => z | None => 0%Z end.

Definition ToUint16 (x : number) : Z := (ToIntegerOrZero x mod 2 ^ 16)%Z.
Definition ToUint32 (x : number) : Z := (ToIntegerOrZero x mod 2 ^ 32)%Z.
Definition ToInt16 (x : number) : Z :=
  let u := ToUint16 x in
  if (u <? 2 ^ 15)%Z then u else (u - 2 ^ 16)%Z.

(** What a [Float32Array] element holds of a number stored into it: the
    nearest binary32 value. *)
Definition fround (x : number) : number :=
  match Prim2SF x with
  | S754_finite s m e => SF2Prim (binary_normalize 24 128 (signed s m) e s)
  | _ => x
  end.

(** The number of iterations of [for (let i = 0; i < bound; i += 1)] for a
    finite bound (with an infinite bound the loop does not end; the bounds
    of this development are quotients of lengths by a positive size). *)
Definition trip_count (bound : number) : nat :=
  match Prim2SF bound with
  | S754_finite false m e =>
      Z.to_nat (- Z.shiftl (Z.neg m) e)
  | _ => 0%nat
  end.

End JsNum.

Import JsNum.

(* ================================================================== *)
(** * Completions, typed arrays and data views *)
(* ================================================================== *)

Module Js.

(** What is thrown: a [DOMException] of the platform with its name, or
    a native error ([RangeError], [TypeError], ...).  The handlers of the
    recorder hook tell the two apart. *)
Inductive Exception : Type :=
| DOMException (name : string)
| NativeError (name : string).

(** A call either returns a value or throws. *)
Inductive Completion (A : Type) : Type :=
| Normal (a : A)
| Throw (e : Exception).

Arguments Normal {A} a.
Arguments Throw {A} e.

Definition bind {A B} (c : Completion A) (k : A -> Completion B)
  : Completion B :=
  match c with
  | Normal a => k a
  | Throw e => Throw e
  end.

(** [try { body } finally { closing }]: the clause runs whatever the block
    did, and when it throws its exception replaces the completion of the
    block. *)
Definition tryFinally {A B} (body : Completion A) (closing : Completion B)
  : Completion A :=
  match closing with
  | Normal _ => body
  | Throw e => Throw e
  end.

Definition returned {A} (c : Completion A) : bool :=
  match c with Normal _ => true | Throw _ => false end.

(** ** Float32Array *)

Definition Float32Array := list number.

Definition Float32Array_new (n : nat) : Float32Array := repeat 0%float n.

(** [a.subarray(0, stop)]: [stop] is clamped to the length. *)
Definition subarray0 (a : Float32Array) (stop : nat) : Float32Array :=
  firstn stop a.

(** [target.set(source)]: copies at offset 0, RangeError when the source
    does not fit. *)
Definition Float32Array_set (target source : Float32Array)
  : Completion Float32Array :=
  if (length source <=? length target)%nat
  then Normal (source ++ skipn (length source) target)
  else Throw (NativeError "RangeError").

(** [a[i]] read in arithmetic: an index out of range reads [undefined],
    which arithmetic turns into NaN. *)
Definition get (a : Float32Array) (i : nat) : number := nth i a nan.

(** ** ArrayBuffer and DataView *)

Definition byte := Z.
Definition ArrayBuffer := list byte.

Definition ArrayBuffer_new (n : nat) : ArrayBuffer := repeat 0%Z n.

Fixpoint store (buf : ArrayBuffer) (i : nat) (b : byte) : ArrayBuffer :=
  match buf, i with
  | [], _ => []
  | _ :: rest, O => b :: rest
  | x :: rest, S j => x :: store rest j b
  end.

Definition setUint8 (buf : ArrayBuffer) (offset : nat) (v : Z)
  : Completion ArrayBuffer :=
  if (offset + 1 <=? length buf)%nat
  then Normal (store buf offset (v mod 256)%Z)
  else Throw (NativeError "RangeError").

(** Little-endian stores, as called with [littleEndian = true]. *)
Definition setUint16 (buf : ArrayBuffer) (offset : nat) (v : Z)
  : Completion ArrayBuffer :=
  if (offset + 2 <=? length buf)%nat
  then
    let u := (v mod 2 ^ 16)%Z in
    Normal (store (store buf offset (u mod 256)%Z)
                  (offset + 1) (u / 256)%Z)
  else Throw (NativeError "RangeError").

Definition setInt16 := setUint16.

Definition setUint32 (buf : ArrayBuffer) (offset : nat) (v : Z)
  : Completion ArrayBuffer :=
  if (offset + 4 <=? length buf)%nat
  then
    let u := (v mod 2 ^ 32)%Z in
    Normal (store (store (store (store buf
              offset       (u mod 256)%Z)
              (offset + 1) ((u / 2 ^ 8) mod 256)%Z)
              (offset + 2) ((u / 2 ^ 16) mod 256)%Z)
              (offset + 3) (u / 2 ^ 24)%Z)
  else Throw (NativeError "RangeError").

Definition getUint8 (buf : ArrayBuffer) (offset : nat) : Z :=
  nth offset buf 0%Z.

Definition getUint16 (buf : ArrayBuffer) (offset : nat) : Z :=
  (getUint8 buf offset + 2 ^ 8 * getUint8 buf (offset + 1))%Z.

Definition getInt16 (buf : ArrayBuffer) (offset : nat) : Z :=
  let u := getUint16 buf offset in
  if (u <? 2 ^ 15)%Z then u else (u - 2 ^ 16)%Z.

Definition getUint32 (buf : ArrayBuffer) (offset : nat) : Z :=
  (getUint8 buf offset
   + 2 ^ 8 * getUint8 buf (offset + 1)
   + 2 ^ 16 * getUint8 buf (offset + 2)
   + 2 ^ 24 * getUint8 buf (offset + 3))%Z.

Definition charCodes (s : string) : list Z :=
  map (fun c => Z.of_nat (nat_of_ascii c)) (list_ascii_of_string s).

Record Blob : Type := mkBlob {
  blob_bytes : ArrayBuffer;
  blob_type : string
}.

Definition blob_size (b : Blob) : nat := length (blob_bytes b).

End Js.

Import Js.

Declare Scope completion_scope.
Delimit Scope completion_scope with completion.
Notation "x <- c ;; k" := (Js.bind c (fun x => k))
  (at level 61, c at next level, right associativity) : completion_scope.

(* ================================================================== *)
(** * utils/audioUtils.ts: the waveform normaliser *)
(* ================================================================== *)

Module AudioUtils.

Local Open Scope string_scope.
Local Open Scope completion_scope.
Local Open Scope float_scope.

Definition TARGET_SAMPLE_RATE : Z := 16000.
Definition TARGET_DURATION_MS : Z := 2000.
Definition TARGET_SAMPLE_COUNT : Z :=
  (TARGET_SAMPLE_RATE * TARGET_DURATION_MS) / 1000.
Definition WAV_MIME_TYPE : string := "audio/wav".

Record WavConversionResult : Type := mkWavConversionResult {
  blob : Blob;
  pcm : Float32Array;
  durationMs : number;
  sampleRate : number
}.

(** ** The Web Audio platform

    Decoding and offline rendering are done by the browser.  An
    [AudioBuffer] is what [decodeAudioData] resolves to; [renderOffline
    input rate len] stands for the body of [resampleTo16k] from the
    construction of the [OfflineAudioContext] of [len] frames at 16 kHz to
    the channel data of the rendered buffer. *)

Record AudioBuffer : Type := mkAudioBuffer {
  ab_sampleRate : number;
  ab_length : nat;
  ab_channels : list Float32Array
}.

Definition numberOfChannels (buffer : AudioBuffer) : nat :=
  length (ab_channels buffer).

Definition getChannelData (buffer : AudioBuffer) (index : nat)
  : Completion Float32Array :=
  match nth_error (ab_channels buffer) index with
  | Some channel => Normal channel
  | None => Throw (DOMException "IndexSizeError")
  end.

Record Platform : Type := mkPlatform {
  hasAudioContext : bool;
  decodeAudioData : Blob -> Completion AudioBuffer;
  renderOffline : Float32Array -> number -> nat -> Completion Float32Array
}.

(** What the Web Audio API promises of [startRendering]: the rendered
    buffer has the length the context was created with. *)
Definition rendering_contract (P : Platform) : Prop :=
  forall input rate len out,
    renderOffline P input rate len = Normal out -> length out = len.

Definition getAudioContextCtor (P : Platform) : Completion unit :=
  if hasAudioContext P then Normal tt
  else Throw (DOMException "NotSupportedError").

(** ** mixToMono *)

Definition mixToMono (buffer : AudioBuffer) : Completion Float32Array :=
  if (numberOfChannels buffer <=? 1)%nat then getChannelData buffer 0
  else
    let channels := ab_channels buffer in
    Normal
      (map (fun frame =>
              let sum :=
                fold_left (fun sum channel => sum + get channel frame)
                          channels 0 in
              fround (sum / of_nat (length channels)))
           (seq 0 (ab_length buffer))).

(** ** resampleTo16k *)

Definition targetLength (inputLength : nat) (sampleRate : number) : number :=
  Math_max 1
    (Math_round ((of_nat inputLength * of_Z TARGET_SAMPLE_RATE) / sampleRate)).

(** The [unsigned long] the context constructor makes of its length. *)
Definition contextLength (len : number) : nat := Z.to_nat (ToUint32 len).

Definition resampleTo16k (P : Platform) (input : Float32Array)
    (sampleRate : number) : Completion Float32Array :=
  if sampleRate =? of_Z TARGET_SAMPLE_RATE then Normal input
  else
    renderOffline P input sampleRate
      (contextLength (targetLength (length input) sampleRate)).

(** ** encodeWavPcm16 *)

(** The data view over the output buffer together with the running
    [offset] that the three local writers advance. *)
Record Writer : Type := mkWriter {
  view : ArrayBuffer;
  offset : nat
}.

Fixpoint writeCodes (codes : list Z) (w : Writer) : Completion Writer :=
  match codes with
  | [] => Normal w
  | code :: rest =>
      buf <- setUint8 (view w) (offset w) code ;;
      writeCodes rest (mkWriter buf (offset w + 1))
  end.

Definition writeString (value : string) (w : Writer) : Completion Writer :=
  writeCodes (charCodes value) w.

Definition writeUint16 (value : Z) (w : Writer) : Completion Writer :=
  buf <- setUint16 (view w) (offset w) value ;;
  Normal (mkWriter buf (offset w + 2)).

Definition writeUint32 (value : Z) (w : Writer) : Completion Writer :=
  buf <- setUint32 (view w) (offset w) value ;;
  Normal (mkWriter buf (offset w + 4)).

(** The body of the sample loop up to the store. *)
Definition clampSample (x : number) : number :=
  Math_max (-1) (Math_min 1 x).

Definition scaleSample (sample : number) : number :=
  if sample <? 0 then sample * 32768 else sample * 32767.

Fixpoint writeSamples (samples : Float32Array) (w : Writer)
  : Completion Writer :=
  match samples with
  | [] => Normal w
  | x :: rest =>
      let sample := clampSample x in
      let pcm := scaleSample sample in
      buf <- setInt16 (view w) (offset w) (ToIntegerOrZero pcm) ;;
      writeSamples rest (mkWriter buf (offset w + 2))
  end.

Definition encodeWavPcm16 (samples : Float32Array) (sampleRate : Z)
  : Completion Blob :=
  let channelCount := 1%Z in
  let bytesPerSample := 2%Z in
  let byteRate := (sampleRate * channelCount * bytesPerSample)%Z in
  let blockAlign := (channelCount * bytesPerSample)%Z in
  let dataSize := (Z.of_nat (length samples) * bytesPerSample)%Z in
  let buffer := ArrayBuffer_new (Z.to_nat (44 + dataSize)) in
  w <- writeString "RIFF" (mkWriter buffer 0) ;;
  w <- writeUint32 (36 + dataSize) w ;;
  w <- writeString "WAVE" w ;;
  w <- writeString "fmt " w ;;
  w <- writeUint32 16 w ;;
  w <- writeUint16 1 w ;;
  w <- writeUint16 channelCount w ;;
  w <- writeUint32 sampleRate w ;;
  w <- writeUint32 byteRate w ;;
  w <- writeUint16 blockAlign w ;;
  w <- writeUint16 16 w ;;
  w <- writeString "data" w ;;
  w <- writeUint32 dataSize w ;;
  w <- writeSamples samples w ;;
  Normal (mkBlob (view w) WAV_MIME_TYPE).

(** ** normalizeToFixedSamples *)

Definition normalizeToFixedSamples (input : Float32Array) (target : nat)
  : Completion Float32Array :=
  if (length input =? target)%nat then Normal input
  else
    let normalized := Float32Array_new target in
    Float32Array_set normalized (subarray0 input target).

(** ** convertBlobTo16kMonoWav

    The conversion with an audio context that is constructed, reads the
    blob and is closed without an exception: the [finally] clause then
    only closes the context.  [convertBlobTo16kMonoWavIn] below has these
    three calls with their exceptions. *)

Definition convertBlobTo16kMonoWav (P : Platform) (input : Blob)
  : Completion WavConversionResult :=
  _ <- getAudioContextCtor P ;;
  decodedBuffer <- decodeAudioData P input ;;
  monoData <- mixToMono decodedBuffer ;;
  resampled <- resampleTo16k P monoData (ab_sampleRate decodedBuffer) ;;
  fixedLengthPcm <-
    normalizeToFixedSamples resampled (Z.to_nat TARGET_SAMPLE_COUNT) ;;
  wavBlob <- encodeWavPcm16 fixedLengthPcm TARGET_SAMPLE_RATE ;;
  Normal
    {| blob := wavBlob;
       pcm := fixedLengthPcm;
       durationMs :=
         Math_round ((of_nat (length fixedLengthPcm)
                      / of_Z TARGET_SAMPLE_RATE) * 1000);
       sampleRate := of_Z TARGET_SAMPLE_RATE |}.

(** The calls that the conversion makes on the context and on the blob
    besides decoding: [new AudioContextCtor()], [blob.arrayBuffer()] and
    [audioContext.close()].  Each returns or throws; the bytes that
    [arrayBuffer] reads are those of the blob, which [decodeAudioData]
    takes whole. *)
Record ContextCalls : Type := mkContextCalls {
  newAudioContext : Completion unit;
  arrayBuffer : Blob -> Completion unit;
  closeAudioContext : Completion unit
}.

(** The constructor is called before the [try]: when it throws, nothing
    is closed. *)
Definition convertBlobTo16kMonoWavIn (L : ContextCalls) (P : Platform)
    (input : Blob) : Completion WavConversionResult :=
  _ <- getAudioContextCtor P ;;
  _ <- newAudioContext L ;;
  tryFinally
    (_ <- arrayBuffer L input ;;
     decodedBuffer <- decodeAudioData P input ;;
     monoData <- mixToMono decodedBuffer ;;
     resampled <- resampleTo16k P monoData (ab_sampleRate decodedBuffer) ;;
     fixedLengthPcm <-
       normalizeToFixedSamples resampled (Z.to_nat TARGET_SAMPLE_COUNT) ;;
     wavBlob <- encodeWavPcm16 fixedLengthPcm TARGET_SAMPLE_RATE ;;
     Normal
       {| blob := wavBlob;
          pcm := fixedLengthPcm;
          durationMs :=
            Math_round ((of_nat (length fixedLengthPcm)
                         / of_Z TARGET_SAMPLE_RATE) * 1000);
          sampleRate := of_Z TARGET_SAMPLE_RATE |})
    (closeAudioContext L).

(** ** Reading a header back

    The reader of the canonical 44-byte RIFF/WAVE header, used to state
    the round trip; it is not part of the sources. *)

Record WavHeader : Type := mkWavHeader {
  riffTag : list Z;
  riffSize : Z;
  waveTag : list Z;
  fmtTag : list Z;
  fmtSize : Z;
  formatTag : Z;
  channels : Z;
  headerSampleRate : Z;
  headerByteRate : Z;
  headerBlockAlign : Z;
  bitsPerSample : Z;
  dataTag : list Z;
  headerDataSize : Z
}.

Definition getCodes (buf : ArrayBuffer) (off : nat) : list Z :=
  map (getUint8 buf) (seq off 4).

Definition parseWavHeader (buf : ArrayBuffer) : option WavHeader :=
  if (44 <=? length buf)%nat then
    Some {| riffTag := getCodes buf 0;
            riffSize := getUint32 buf 4;
            waveTag := getCodes buf 8;
            fmtTag := getCodes buf 12;
            fmtSize := getUint32 buf 16;
            formatTag := getUint16 buf 20;
            channels := getUint16 buf 22;
            headerSampleRate := getUint32 buf 24;
            headerByteRate := getUint32 buf 28;
            headerBlockAlign := getUint16 buf 32;
            bitsPerSample := getUint16 buf 34;
            dataTag := getCodes buf 36;
            headerDataSize := getUint32 buf 40 |}
  else None.

(** ** The layout to compare with

    The byte layout of the canonical container and the clamp, written
    after the specification; the encoder is compared with them below. *)

Definition le16 (v : Z) : list Z :=
  let u := (v mod 2 ^ 16)%Z in [(u mod 256)%Z; (u / 256)%Z].

Definition le32 (v : Z) : list Z :=
  let u := (v mod 2 ^ 32)%Z in
  [(u mod 256)%Z; ((u / 2 ^ 8) mod 256)%Z;
   ((u / 2 ^ 16) mod 256)%Z; (u / 2 ^ 24)%Z].

Definition headerBytes (sampleRate dataSize : Z) : list Z :=
  charCodes "RIFF" ++ le32 (36 + dataSize)
  ++ charCodes "WAVE" ++ charCodes "fmt " ++ le32 16
  ++ le16 1 ++ le16 1 ++ le32 sampleRate ++ le32 (sampleRate * 1 * 2)
  ++ le16 (1 * 2) ++ le16 16
  ++ charCodes "data" ++ le32 dataSize.

Definition sampleBytes (x : number) : list Z :=
  le16 (ToIntegerOrZero (scaleSample (clampSample x))).

(** The header that a blob of [sampleCount] samples at [sampleRate]
    is expected to carry. *)
Definition expectedHeader (sampleRate : Z) (sampleCount : nat) : WavHeader :=
  {| riffTag := charCodes "RIFF";
     riffSize := 36 + Z.of_nat sampleCount * 2;
     waveTag := charCodes "WAVE";
     fmtTag := charCodes "fmt ";
     fmtSize := 16;
     formatTag := 1;
     channels := 1;
     headerSampleRate := sampleRate;
     headerByteRate := sampleRate * 1 * 2;
     headerBlockAlign := 1 * 2;
     bitsPerSample := 16;
     dataTag := charCodes "data";
     headerDataSize := Z.of_nat sampleCount * 2 |}.

(** The clamp to [-1, 1] as the specification words it. *)
Definition clampUnit (x : number) : number :=
  if x <? -1 then -1 else if 1 <? x then 1 else x.

(** What the normalisation makes of a resampled signal. *)
Definition fixedLength (resampled : Float32Array) : Float32Array :=
  (firstn (Z.to_nat TARGET_SAMPLE_COUNT) resampled
   ++ repeat 0 (Z.to_nat TARGET_SAMPLE_COUNT - length resampled))%list.

(** The target length as the specification words it: the rounded quotient
    itself. *)
Definition roundedLength (inputLength : nat) (sampleRate : number) : nat :=
  contextLength
    (Math_round ((of_nat inputLength * of_Z TARGET_SAMPLE_RATE) / sampleRate)).

(** ** A platform to run the pipeline on

    A stand-in for the browser: the blob carries one byte per mono sample
    at 8 kHz and rendering repeats the nearest earlier source sample. *)

Definition holdRender (input : Float32Array) (rate : number) (len : nat)
  : Completion Float32Array :=
  if (len =? 0)%nat then Throw (DOMException "NotSupportedError")
  else
    Normal (map (fun i => get input (Z.to_nat (Z.of_nat i
                                   * Z.of_nat (length input)
                                   / Z.of_nat len)))
                (seq 0 len)).

Definition byteDecode (b : Blob) : Completion AudioBuffer :=
  match blob_bytes b with
  | [] => Throw (DOMException "EncodingError")
  | bytes =>
      Normal {| ab_sampleRate := 8000;
                ab_length := length bytes;
                ab_channels := [map (fun v => of_Z (v - 128) / 128) bytes] |}
  end.

Definition holdPlatform : Platform :=
  {| hasAudioContext := true;
     decodeAudioData := byteDecode;
     renderOffline := holdRender |}.

Definition demoBlob : Blob :=
  {| blob_bytes := [128; 192; 64; 0; 255]%Z; blob_type := "audio/webm" |}.

Definition demoMono : Float32Array :=
  map (fun v => of_Z (v - 128) / 128) [128; 192; 64; 0; 255]%Z.

Definition demoDecoded : AudioBuffer :=
  {| ab_sampleRate := 8000; ab_length := 5; ab_channels := [demoMono] |}.

Definition demoResampled : Float32Array :=
  map (fun i => get demoMono (Z.to_nat (Z.of_nat i * 5 / 10))) (seq 0 10).

(** The sum that [mixToMono] accumulates for one frame, channel by
    channel. *)
Definition frameSum (channels : list Float32Array) (frame : nat) : number :=
  fold_left (fun sum channel => sum + get channel frame) channels 0.

End AudioUtils.

Import AudioUtils.

(* ================================================================== *)
(** * utils/gate.ts: the speech gate *)
(* ================================================================== *)

Module Gate.

Local Open Scope string_scope.
Local Open Scope completion_scope.
Local Open Scope float_scope.

(** The constants that [gate.ts] imports from [./gateConfig]; the gate is
    parameterised by them.  The sample count is used as a length, and the
    frame size as a length that is not zero (with a frame size of 0 the
    frame count is infinite and the loop over the frames has no end). *)
Record GateConfig : Type := mkGateConfig {
  BORDERLINE_QUIET_RMS_THRESHOLD : number;
  CLIP_LEVEL : number;
  CLIP_RATIO_THRESHOLD : number;
  EARLY_END_MS : number;
  FLATLINE_ABS_MAX_THRESHOLD : number;
  FLATLINE_RMS_THRESHOLD : number;
  FRAME_SIZE : positive;
  GATE_TARGET_SAMPLE_COUNT : nat;
  GATE_TARGET_SAMPLE_RATE : number;
  LATE_START_MS : number;
  MIN_SPEECH_SPAN_MS : number;
  NO_SPEECH_RATIO_THRESHOLD : number;
  PASS_SPEECH_RATIO_THRESHOLD : number;
  SPEECH_FRAME_RMS_THRESHOLD : number;
  TOO_QUIET_RMS_THRESHOLD : number
}.

Inductive GateDecision : Type := PASS | AMBIG | REJECT.

Inductive GateReason : Type :=
| TooQuiet
| NoSpeech
| Flatline
| BorderlineQuiet
| ClippingSuspected
| SpeechOffCenter
| Ok.

Record DebugMetrics : Type := mkDebugMetrics {
  rms : number;
  absMax : number;
  clipRatio : number;
  speechRatio : number;
  firstSpeechMs : option number;
  lastSpeechMs : option number
}.

Record GateResult : Type := mkGateResult {
  decision : GateDecision;
  reason : GateReason;
  userMessage : string;
  debugMetrics : DebugMetrics
}.

Definition buildResult (decision : GateDecision) (reason : GateReason)
    (userMessage : string) (debugMetrics : DebugMetrics) : GateResult :=
  {| decision := decision;
     reason := reason;
     userMessage := userMessage;
     debugMetrics := debugMetrics |}.

Section WithConfig.

Variable cfg : GateConfig.

Definition normalizePcmLength (pcm : Float32Array)
  : Completion Float32Array :=
  if (length pcm =? GATE_TARGET_SAMPLE_COUNT cfg)%nat then Normal pcm
  else
    let normalized := Float32Array_new (GATE_TARGET_SAMPLE_COUNT cfg) in
    Float32Array_set normalized
      (subarray0 pcm (GATE_TARGET_SAMPLE_COUNT cfg)).

Definition frameSize : nat := Pos.to_nat (FRAME_SIZE cfg).

(** What [normalizePcmLength] makes of an array: its first samples up to
    the target count, then zeros up to the target count. *)
Definition normalized (pcm : Float32Array) : Float32Array :=
  (firstn (GATE_TARGET_SAMPLE_COUNT cfg) pcm
   ++ repeat 0 (GATE_TARGET_SAMPLE_COUNT cfg - length pcm))%list.

(** *** The loop over the samples *)

Record SampleScan : Type := mkSampleScan {
  sumSquares : number;
  scanAbsMax : number;
  clippedCount : nat
}.

Definition scanSample (acc : SampleScan) (sample : number) : SampleScan :=
  let absSample := Math_abs sample in
  {| sumSquares := sumSquares acc + sample * sample;
     scanAbsMax :=
       if scanAbsMax acc <? absSample then absSample else scanAbsMax acc;
     clippedCount :=
       if CLIP_LEVEL cfg <? absSample
       then (clippedCount acc + 1)%nat else clippedCount acc |}.

Definition scanSamples (normalizedPcm : Float32Array) : SampleScan :=
  fold_left scanSample normalizedPcm
            {| sumSquares := 0; scanAbsMax := 0; clippedCount := 0 |}.

(** *** The loop over the frames

    [firstSpeechFrame] and [lastSpeechFrame] are frame indices, with -1
    for "none yet" as in the source. *)

Record FrameScan : Type := mkFrameScan {
  speechFrameCount : nat;
  firstSpeechFrame : Z;
  lastSpeechFrame : Z
}.

Definition frameSquares (normalizedPcm : Float32Array) (start : nat)
  : number :=
  fold_left (fun frameSquares i =>
               let sample := get normalizedPcm i in
               frameSquares + sample * sample)
            (seq start frameSize) 0.

Definition scanFrame (normalizedPcm : Float32Array) (acc : FrameScan)
    (frame : nat) : FrameScan :=
  let start := (frame * frameSize)%nat in
  let frameRms :=
    Math_sqrt (frameSquares normalizedPcm start / of_nat frameSize) in
  if SPEECH_FRAME_RMS_THRESHOLD cfg <=? frameRms then
    {| speechFrameCount := (speechFrameCount acc + 1)%nat;
       firstSpeechFrame :=
         if (firstSpeechFrame acc =? -1)%Z then Z.of_nat frame
         else firstSpeechFrame acc;
       lastSpeechFrame := Z.of_nat frame |}
  else acc.

Definition frameCountOf (normalizedPcm : Float32Array) : number :=
  Math_floor (of_nat (length normalizedPcm) / of_nat frameSize).

Definition scanFrames (normalizedPcm : Float32Array) : FrameScan :=
  fold_left (scanFrame normalizedPcm)
            (seq 0 (trip_count (frameCountOf normalizedPcm)))
            {| speechFrameCount := 0;
               firstSpeechFrame := -1;
               lastSpeechFrame := -1 |}.

(** *** The metrics *)

Definition actualSampleRateOf (sampleRate : number) : number :=
  if 0 <? sampleRate then sampleRate else GATE_TARGET_SAMPLE_RATE cfg.

Definition rmsOf (normalizedPcm : Float32Array) : number :=
  Math_sqrt (sumSquares (scanSamples normalizedPcm)
             / of_nat (length normalizedPcm)).

Definition clipRatioOf (normalizedPcm : Float32Array) : number :=
  of_nat (clippedCount (scanSamples normalizedPcm))
  / of_nat (length normalizedPcm).

Definition speechRatioOf (normalizedPcm : Float32Array) : number :=
  let frameCount := frameCountOf normalizedPcm in
  if 0 <? frameCount
  then of_nat (speechFrameCount (scanFrames normalizedPcm)) / frameCount
  else 0.

Definition frameMsOf (sampleRate : number) : number :=
  (of_nat frameSize / actualSampleRateOf sampleRate) * 1000.

Definition firstSpeechMsOf (normalizedPcm : Float32Array)
    (sampleRate : number) : option number :=
  let firstSpeechFrame := firstSpeechFrame (scanFrames normalizedPcm) in
  if (firstSpeechFrame =? -1)%Z then None
  else Some (Math_round (of_Z firstSpeechFrame * frameMsOf sampleRate)).

Definition lastSpeechMsOf (normalizedPcm : Float32Array)
    (sampleRate : number) : option number :=
  let lastSpeechFrame := lastSpeechFrame (scanFrames normalizedPcm) in
  if (lastSpeechFrame =? -1)%Z then None
  else Some (Math_round (of_Z (lastSpeechFrame + 1) * frameMsOf sampleRate)).

Definition speechSpanMsOf (firstSpeechMs lastSpeechMs : option number)
  : number :=
  match firstSpeechMs, lastSpeechMs with
  | Some first, Some last => Math_max 0 (last - first)
  | _, _ => 0
  end.

Definition metricsOf (normalizedPcm : Float32Array) (sampleRate : number)
  : DebugMetrics :=
  {| rms := rmsOf normalizedPcm;
     absMax := scanAbsMax (scanSamples normalizedPcm);
     clipRatio := clipRatioOf normalizedPcm;
     speechRatio := speechRatioOf normalizedPcm;
     firstSpeechMs := firstSpeechMsOf normalizedPcm sampleRate;
     lastSpeechMs := lastSpeechMsOf normalizedPcm sampleRate |}.

(** *** The decision tree *)

Definition offCenter (m : DebugMetrics) : bool :=
  match firstSpeechMs m with
  | Some first => LATE_START_MS cfg <? first
  | None => false
  end
  || match lastSpeechMs m with
     | Some last => last <? EARLY_END_MS cfg
     | None => false
     end
  || (speechSpanMsOf (firstSpeechMs m) (lastSpeechMs m)
      <? MIN_SPEECH_SPAN_MS cfg).

Definition decide (debugMetrics : DebugMetrics) : GateResult :=
  let rms := rms debugMetrics in
  let absMax := absMax debugMetrics in
  let clipRatio := clipRatio debugMetrics in
  let speechRatio := speechRatio debugMetrics in
  if (absMax <? FLATLINE_ABS_MAX_THRESHOLD cfg)
     && (rms <? FLATLINE_RMS_THRESHOLD cfg)
  then buildResult REJECT Flatline
         "마이크 신호가 거의 없어요. 다시 말해볼까?" debugMetrics
  else if rms <? TOO_QUIET_RMS_THRESHOLD cfg
  then buildResult REJECT TooQuiet
         "소리가 너무 작게 들어왔어요. 조금 더 크게!" debugMetrics
  else if speechRatio <? NO_SPEECH_RATIO_THRESHOLD cfg
  then buildResult REJECT NoSpeech
         "발화가 거의 감지되지 않았어요. 다시 또렷하게!" debugMetrics
  else if rms <? BORDERLINE_QUIET_RMS_THRESHOLD cfg
  then buildResult AMBIG BorderlineQuiet
         "거의 좋아요! 한 번만 더 또렷하게 해볼까요?" debugMetrics
  else if CLIP_RATIO_THRESHOLD cfg <? clipRatio
  then buildResult AMBIG ClippingSuspected
         "소리가 살짝 깨졌을 수 있어요. 다시 한 번!" debugMetrics
  else if offCenter debugMetrics
  then buildResult AMBIG SpeechOffCenter
         "타이밍이 조금 치우쳤어요. 중앙에 맞춰 다시!" debugMetrics
  else if (PASS_SPEECH_RATIO_THRESHOLD cfg <=? speechRatio)
          && (BORDERLINE_QUIET_RMS_THRESHOLD cfg <=? rms)
  then buildResult PASS Ok "좋아! 완벽해 🎉" debugMetrics
  else buildResult AMBIG SpeechOffCenter
         "조금만 더 선명하게 말하면 바로 통과예요!" debugMetrics.

(** The first test of the tree. *)
Definition flatline (m : DebugMetrics) : bool :=
  (absMax m <? FLATLINE_ABS_MAX_THRESHOLD cfg)
  && (rms m <? FLATLINE_RMS_THRESHOLD cfg).

Definition analyzePcmForSpeechGate (pcm : Float32Array)
    (sampleRate : number) : Completion GateResult :=
  normalizedPcm <- normalizePcmLength pcm ;;
  Normal (decide (metricsOf normalizedPcm sampleRate)).

(** *** The decision as two conditions

    What the tree asks of the metrics for [PASS], and for [REJECT]. *)

Definition passes (m : DebugMetrics) : bool :=
  negb (flatline m)
  && negb (rms m <? TOO_QUIET_RMS_THRESHOLD cfg)
  && negb (speechRatio m <? NO_SPEECH_RATIO_THRESHOLD cfg)
  && negb (rms m <? BORDERLINE_QUIET_RMS_THRESHOLD cfg)
  && negb (CLIP_RATIO_THRESHOLD cfg <? clipRatio m)
  && negb (offCenter m)
  && (PASS_SPEECH_RATIO_THRESHOLD cfg <=? speechRatio m)
  && (BORDERLINE_QUIET_RMS_THRESHOLD cfg <=? rms m).

Definition rejects (m : DebugMetrics) : bool :=
  flatline m
  || (rms m <? TOO_QUIET_RMS_THRESHOLD cfg)
  || (speechRatio m <? NO_SPEECH_RATIO_THRESHOLD cfg).

(** *** The counters of the frame loop

    After the frames below [k]: no speech frame yet, or a first and a last
    one below [k] with at most the frames between them counted. *)
Definition framesSeen (k : nat) (acc : FrameScan) : Prop :=
  (speechFrameCount acc = 0%nat
   /\ firstSpeechFrame acc = (-1)%Z /\ lastSpeechFrame acc = (-1)%Z)
  \/ ((0 <= firstSpeechFrame acc <= lastSpeechFrame acc)%Z
      /\ (lastSpeechFrame acc < Z.of_nat k)%Z
      /\ (1 <= Z.of_nat (speechFrameCount acc)
          <= lastSpeechFrame acc - firstSpeechFrame acc + 1)%Z).

End WithConfig.

(** A configuration to run the gate on: a 2 s window at 16 kHz in frames
    of 20 ms. *)
Definition sampleConfig : GateConfig :=
  {| BORDERLINE_QUIET_RMS_THRESHOLD := 0.03125;
     CLIP_LEVEL := 0.984375;
     CLIP_RATIO_THRESHOLD := 0.015625;
     EARLY_END_MS := 1500;
     FLATLINE_ABS_MAX_THRESHOLD := 0.00390625;
     FLATLINE_RMS_THRESHOLD := 0.0009765625;
     FRAME_SIZE := 320;
     GATE_TARGET_SAMPLE_COUNT := Z.to_nat 32000;
     GATE_TARGET_SAMPLE_RATE := 16000;
     LATE_START_MS := 500;
     MIN_SPEECH_SPAN_MS := 300;
     NO_SPEECH_RATIO_THRESHOLD := 0.125;
     PASS_SPEECH_RATIO_THRESHOLD := 0.25;
     SPEECH_FRAME_RMS_THRESHOLD := 0.015625;
     TOO_QUIET_RMS_THRESHOLD := 0.0078125 |}.

(** The same thresholds over a window of 64 samples in frames of 8 (two
    seconds at 32 Hz), which is quick to evaluate. *)
Definition shortConfig : GateConfig :=
  {| BORDERLINE_QUIET_RMS_THRESHOLD := 0.03125;
     CLIP_LEVEL := 0.984375;
     CLIP_RATIO_THRESHOLD := 0.015625;
     EARLY_END_MS := 1500;
     FLATLINE_ABS_MAX_THRESHOLD := 0.00390625;
     FLATLINE_RMS_THRESHOLD := 0.0009765625;
     FRAME_SIZE := 8;
     GATE_TARGET_SAMPLE_COUNT := 64;
     GATE_TARGET_SAMPLE_RATE := 16000;
     LATE_START_MS := 500;
     MIN_SPEECH_SPAN_MS := 300;
     NO_SPEECH_RATIO_THRESHOLD := 0.125;
     PASS_SPEECH_RATIO_THRESHOLD := 0.25;
     SPEECH_FRAME_RMS_THRESHOLD := 0.015625;
     TOO_QUIET_RMS_THRESHOLD := 0.0078125 |}.

(** A burst of amplitude [a] in the middle half of the short window. *)
Definition centredBurst (a : number) : Float32Array :=
  (repeat 0 16 ++ repeat a 32 ++ repeat 0 16)%list.

End Gate.

Import Gate.
(* ================================================================== *)
(** * hooks/useRecorder.ts: the capture session *)
(* ================================================================== *)

Module Recorder.

Local Open Scope string_scope.
Local Open Scope Z_scope.

Inductive RecorderStatus : Type :=
| Idle
| Requesting
| Ready
| Recording
| Processing
| Result
| DurationRejected
| MicDenied
| Unsupported
| Error.

Definition MIME_CANDIDATES : list string :=
  ["audio/webm;codecs=opus"; "audio/webm"; "audio/mp4";
   "audio/ogg;codecs=opus"].

Definition MIC_REQUEST_TIMEOUT_MS : Z := 30000.

(** ** The browser

    What the hook reads of its environment: whether
    [navigator.mediaDevices.getUserMedia] and [MediaRecorder] exist, and
    which container types the recorder supports ([None] when
    [MediaRecorder.isTypeSupported] is missing). *)
Record Browser : Type := mkBrowser {
  hasGetUserMedia : bool;
  hasMediaRecorder : bool;
  isTypeSupported : option (string -> bool)
}.

Definition pickSupportedMimeType (b : Browser) : option string :=
  if negb (hasMediaRecorder b) then None
  else
    match isTypeSupported b with
    | None => None
    | Some supported => find supported MIME_CANDIDATES
    end.

(** Streams, object URLs and timers are known by an identifier. *)
Definition MediaStream := nat.
Definition ObjectUrl := nat.
Definition TimerId := nat.

Inductive RecordingState : Type := inactive | recording.

(** A [MediaRecorder]: its [state], its [mimeType] and whether the three
    handlers of [startRecording] are still attached to it. *)
Record MediaRecorder : Type := mkMediaRecorder {
  recorderState : RecordingState;
  recorderMimeType : string;
  handlersAttached : bool
}.

(** Who awaits a pending [getUserMedia]: [startRecording], which goes on
    to record, or a caller that only wants the stream ([retry], or the
    exported [requestMicAccess]). *)
Inductive MicCaller : Type := FromStartRecording | FromRequestOnly.

(** How the race of [getUserMedia] against the timeout ends.  After a
    timeout the late stream, if one arrives, is stopped. *)
Inductive MicOutcome : Type :=
| MicGranted (newStream : MediaStream)
| MicTimedOut (lateStream : option MediaStream)
| MicRejected (error : Exception).

(** What the browser answers when [startRecording] builds and starts a
    recorder: the [mimeType] of the new recorder or the exception of the
    constructor, the outcome of [recorder.start()], and [Date.now()]. *)
Record RecorderEnv : Type := mkRecorderEnv {
  recorderCreated : Completion string;
  recorderStarted : Completion unit;
  now : Z
}.

(** ** The session

    A [setStream] comes with the effect that copies the stream into
    [streamRef].  The two awaits of the hook ([getUserMedia] and the
    conversion) are split into the call and its settlement, so that other
    calls can happen in between; console logging is left out. *)

(** The React state of the hook. *)
Record State : Type := mkState {
  status : RecorderStatus;
  stream : option MediaStream;
  audioBlob : option Blob;
  audioUrl : option ObjectUrl;
  errorName : option string;
  elapsedMs : Z;
  measuredDurationMs : option number;
  gateResult : option GateResult;
  outputSampleRate : option number
}.

(** The refs of the hook. *)
Record Refs : Type := mkRefs {
  mediaRecorderRef : option MediaRecorder;
  chunksRef : list Blob;
  timerRef : option TimerId;
  autoStopRef : option TimerId;
  startedAtRef : option Z;
  audioUrlRef : option ObjectUrl;
  lastMicRequestFailureRef : option string;
  mountedRef : bool;
  streamRef : option MediaStream
}.

(** What is pending in the browser and what has been released. *)
Record World : Type := mkWorld {
  pendingMic : list MicCaller;
  pendingConversions : list Blob;
  releasedStreams : list MediaStream;
  revokedUrls : list ObjectUrl;
  timersCreated : nat;
  urlsCreated : nat
}.

Record Session : Type := mkSession {
  state : State;
  refs : Refs;
  world : World
}.

Definition initialState : State :=
  {| status := Idle; stream := None; audioBlob := None; audioUrl := None;
     errorName := None; elapsedMs := 0; measuredDurationMs := None;
     gateResult := None; outputSampleRate := None |}.

Definition initialRefs : Refs :=
  {| mediaRecorderRef := None; chunksRef := []; timerRef := None;
     autoStopRef := None; startedAtRef := None; audioUrlRef := None;
     lastMicRequestFailureRef := None; mountedRef := true;
     streamRef := None |}.

Definition initialWorld : World :=
  {| pendingMic := []; pendingConversions := []; releasedStreams := [];
     revokedUrls := []; timersCreated := 0%nat; urlsCreated := 0%nat |}.

Definition initialSession : Session :=
  {| state := initialState; refs := initialRefs; world := initialWorld |}.

Definition onState (f : State -> State) (s : Session) : Session :=
  {| state := f (state s); refs := refs s; world := world s |}.

Definition onRefs (f : Refs -> Refs) (s : Session) : Session :=
  {| state := state s; refs := f (refs s); world := world s |}.

Definition onWorld (f : World -> World) (s : Session) : Session :=
  {| state := state s; refs := refs s; world := f (world s) |}.

(** The setters, one per field. *)

Definition setStatus (a : RecorderStatus) : Session -> Session :=
  onState (fun v =>
    {| status := a; stream := stream v; audioBlob := audioBlob v;
       audioUrl := audioUrl v; errorName := errorName v;
       elapsedMs := elapsedMs v; measuredDurationMs := measuredDurationMs v;
       gateResult := gateResult v; outputSampleRate := outputSampleRate v |}).

Definition setStream (a : option MediaStream) : Session -> Session :=
  onState (fun v =>
    {| status := status v; stream := a; audioBlob := audioBlob v;
       audioUrl := audioUrl v; errorName := errorName v;
       elapsedMs := elapsedMs v; measuredDurationMs := measuredDurationMs v;
       gateResult := gateResult v; outputSampleRate := outputSampleRate v |}).

Definition setAudioBlob (a : option Blob) : Session -> Session :=
  onState (fun v =>
    {| status := status v; stream := stream v; audioBlob := a;
       audioUrl := audioUrl v; errorName := errorName v;
       elapsedMs := elapsedMs v; measuredDurationMs := measuredDurationMs v;
       gateResult := gateResult v; outputSampleRate := outputSampleRate v |}).

Definition setAudioUrl (a : option ObjectUrl) : Session -> Session :=
  onState (fun v =>
    {| status := status v; stream := stream v; audioBlob := audioBlob v;
       audioUrl := a; errorName := errorName v; elapsedMs := elapsedMs v;
       measuredDurationMs := measuredDurationMs v; gateResult := gateResult v;
       outputSampleRate := outputSampleRate v |}).

Definition setErrorName (a : option string) : Session -> Session :=
  onState (fun v =>
    {| status := status v; stream := stream v; audioBlob := audioBlob v;
       audioUrl := audioUrl v; errorName := a; elapsedMs := elapsedMs v;
       measuredDurationMs := measuredDurationMs v; gateResult := gateResult v;
       outputSampleRate := outputSampleRate v |}).

Definition setElapsedMs (a : Z) : Session -> Session :=
  onState (fun v =>
    {| status := status v; stream := stream v; audioBlob := audioBlob v;
       audioUrl := audioUrl v; errorName := errorName v; elapsedMs := a;
       measuredDurationMs := measuredDurationMs v; gateResult := gateResult v;
       outputSampleRate := outputSampleRate v |}).

Definition setMeasuredDurationMs (a : option number) : Session -> Session :=
  onState (fun v =>
    {| status := status v; stream := stream v; audioBlob := audioBlob v;
       audioUrl := audioUrl v; errorName := errorName v;
       elapsedMs := elapsedMs v; measuredDurationMs := a;
       gateResult := gateResult v; outputSampleRate := outputSampleRate v |}).

Definition setGateResult (a : option GateResult) : Session -> Session :=
  onState (fun v =>
    {| status := status v; stream := stream v; audioBlob := audioBlob v;
       audioUrl := audioUrl v; errorName := errorName v;
       elapsedMs := elapsedMs v; measuredDurationMs := measuredDurationMs v;
       gateResult := a; outputSampleRate := outputSampleRate v |}).

Definition setOutputSampleRate (a : option number) : Session -> Session :=
  onState (fun v =>
    {| status := status v; stream := stream v; audioBlob := audioBlob v;
       audioUrl := audioUrl v; errorName := errorName v;
       elapsedMs := elapsedMs v; measuredDurationMs := measuredDurationMs v;
       gateResult := gateResult v; outputSampleRate := a |}).

Definition setMediaRecorderRef (a : option MediaRecorder)
  : Session -> Session :=
  onRefs (fun r =>
    {| mediaRecorderRef := a; chunksRef := chunksRef r;
       timerRef := timerRef r; autoStopRef := autoStopRef r;
       startedAtRef := startedAtRef r; audioUrlRef := audioUrlRef r;
       lastMicRequestFailureRef := lastMicRequestFailureRef r;
       mountedRef := mountedRef r; streamRef := streamRef r |}).

Definition setChunksRef (a : list Blob) : Session -> Session :=
  onRefs (fun r =>
    {| mediaRecorderRef := mediaRecorderRef r; chunksRef := a;
       timerRef := timerRef r; autoStopRef := autoStopRef r;
       startedAtRef := startedAtRef r; audioUrlRef := audioUrlRef r;
       lastMicRequestFailureRef := lastMicRequestFailureRef r;
       mountedRef := mountedRef r; streamRef := streamRef r |}).

Definition setTimerRef (a : option TimerId) : Session -> Session :=
  onRefs (fun r =>
    {| mediaRecorderRef := mediaRecorderRef r; chunksRef := chunksRef r;
       timerRef := a; autoStopRef := autoStopRef r;
       startedAtRef := startedAtRef r; audioUrlRef := audioUrlRef r;
       lastMicRequestFailureRef := lastMicRequestFailureRef r;
       mountedRef := mountedRef r; streamRef := streamRef r |}).

Definition setAutoStopRef (a : option TimerId) : Session -> Session :=
  onRefs (fun r =>
    {| mediaRecorderRef := mediaRecorderRef r; chunksRef := chunksRef r;
       timerRef := timerRef r; autoStopRef := a;
       startedAtRef := startedAtRef r; audioUrlRef := audioUrlRef r;
       lastMicRequestFailureRef := lastMicRequestFailureRef r;
       mountedRef := mountedRef r; streamRef := streamRef r |}).

Definition setStartedAtRef (a : option Z) : Session -> Session :=
  onRefs (fun r =>
    {| mediaRecorderRef := mediaRecorderRef r; chunksRef := chunksRef r;
       timerRef := timerRef r; autoStopRef := autoStopRef r;
       startedAtRef := a; audioUrlRef := audioUrlRef r;
       lastMicRequestFailureRef := lastMicRequestFailureRef r;
       mountedRef := mountedRef r; streamRef := streamRef r |}).

Definition setAudioUrlRef (a : option ObjectUrl) : Session -> Session :=
  onRefs (fun r =>
    {| mediaRecorderRef := mediaRecorderRef r; chunksRef := chunksRef r;
       timerRef := timerRef r; autoStopRef := autoStopRef r;
       startedAtRef := startedAtRef r; audioUrlRef := a;
       lastMicRequestFailureRef := lastMicRequestFailureRef r;
       mountedRef := mountedRef r; streamRef := streamRef r |}).

Definition setLastMicRequestFailureRef (a : option string)
  : Session -> Session :=
  onRefs (fun r =>
    {| mediaRecorderRef := mediaRecorderRef r; chunksRef := chunksRef r;
       timerRef := timerRef r; autoStopRef := autoStopRef r;
       startedAtRef := startedAtRef r; audioUrlRef := audioUrlRef r;
       lastMicRequestFailureRef := a; mountedRef := mountedRef r;
       streamRef := streamRef r |}).

Definition setMountedRef (a : bool) : Session -> Session :=
  onRefs (fun r =>
    {| mediaRecorderRef := mediaRecorderRef r; chunksRef := chunksRef r;
       timerRef := timerRef r; autoStopRef := autoStopRef r;
       startedAtRef := startedAtRef r; audioUrlRef := audioUrlRef r;
       lastMicRequestFailureRef := lastMicRequestFailureRef r;
       mountedRef := a; streamRef := streamRef r |}).

Definition setStreamRef (a : option MediaStream) : Session -> Session :=
  onRefs (fun r =>
    {| mediaRecorderRef := mediaRecorderRef r; chunksRef := chunksRef r;
       timerRef := timerRef r; autoStopRef := autoStopRef r;
       startedAtRef := startedAtRef r; audioUrlRef := audioUrlRef r;
       lastMicRequestFailureRef := lastMicRequestFailureRef r;
       mountedRef := mountedRef r; streamRef := a |}).

Definition setPendingMic (a : list MicCaller) : Session -> Session :=
  onWorld (fun w =>
    {| pendingMic := a; pendingConversions := pendingConversions w;
       releasedStreams := releasedStreams w; revokedUrls := revokedUrls w;
       timersCreated := timersCreated w; urlsCreated := urlsCreated w |}).

Definition setPendingConversions (a : list Blob) : Session -> Session :=
  onWorld (fun w =>
    {| pendingMic := pendingMic w; pendingConversions := a;
       releasedStreams := releasedStreams w; revokedUrls := revokedUrls w;
       timersCreated := timersCreated w; urlsCreated := urlsCreated w |}).

Definition setReleasedStreams (a : list MediaStream) : Session -> Session :=
  onWorld (fun w =>
    {| pendingMic := pendingMic w; pendingConversions := pendingConversions w;
       releasedStreams := a; revokedUrls := revokedUrls w;
       timersCreated := timersCreated w; urlsCreated := urlsCreated w |}).

Definition setRevokedUrls (a : list ObjectUrl) : Session -> Session :=
  onWorld (fun w =>
    {| pendingMic := pendingMic w; pendingConversions := pendingConversions w;
       releasedStreams := releasedStreams w; revokedUrls := a;
       timersCreated := timersCreated w; urlsCreated := urlsCreated w |}).

Definition setTimersCreated (a : nat) : Session -> Session :=
  onWorld (fun w =>
    {| pendingMic := pendingMic w; pendingConversions := pendingConversions w;
       releasedStreams := releasedStreams w; revokedUrls := revokedUrls w;
       timersCreated := a; urlsCreated := urlsCreated w |}).

Definition setUrlsCreated (a : nat) : Session -> Session :=
  onWorld (fun w =>
    {| pendingMic := pendingMic w; pendingConversions := pendingConversions w;
       releasedStreams := releasedStreams w; revokedUrls := revokedUrls w;
       timersCreated := timersCreated w; urlsCreated := a |}).

Notation "s |> f" := (f s) (at level 65, left associativity, only parsing).

Definition errorNameOr (fallback : string) (e : Exception) : string :=
  match e with
  | DOMException name => name
  | NativeError _ => fallback
  end.

(** [a || b || c] on strings: the first that is not empty. *)
Definition firstTruthy (a : string) (b : option string) (c : string)
  : string :=
  if negb (String.eqb a "") then a
  else
    match b with
    | Some m => if negb (String.eqb m "") then m else c
    | None => c
    end.

Section Hook.

Variable browser : Browser.
Variable platform : AudioUtils.Platform.
Variable gateConfig : GateConfig.

(** [options?.maxDurationMs ?? 2000]. *)
Variable options : option Z.

Definition maxDurationMs : Z :=
  match options with
  | Some ms => ms
  | None => 2000
  end.

Definition mimeType : option string := pickSupportedMimeType browser.

(** *** The small callbacks *)

Definition clearTimer (s : Session) : Session :=
  let s :=
    match timerRef (refs s) with
    | Some _ => setTimerRef None s
    | None => s
    end in
  setStartedAtRef None s.

Definition clearAutoStop (s : Session) : Session :=
  match autoStopRef (refs s) with
  | Some _ => setAutoStopRef None s
  | None => s
  end.

Definition clearAudioUrl (s : Session) : Session :=
  match audioUrlRef (refs s) with
  | Some url =>
      s |> setRevokedUrls (url :: revokedUrls (world s))
        |> setAudioUrlRef None
  | None => s
  end.

Definition stopAndReleaseStream (target : option MediaStream)
    (s : Session) : Session :=
  match target with
  | Some t => setReleasedStreams (t :: releasedStreams (world s)) s
  | None => s
  end.

(** [setStream((prev) => { stopAndReleaseStream(prev); return next })]
    and the effect on [streamRef]. *)
Definition installStream (next : MediaStream) (s : Session) : Session :=
  s |> stopAndReleaseStream (stream (state s))
    |> setStream (Some next)
    |> setStreamRef (Some next).

Definition stopRecorderSafely (s : Session) : Session :=
  match mediaRecorderRef (refs s) with
  | None => s
  | Some recorder =>
      match recorderState recorder with
      | inactive => s
      | recording =>
          setMediaRecorderRef
            (Some {| recorderState := inactive;
                     recorderMimeType := recorderMimeType recorder;
                     handlersAttached := handlersAttached recorder |}) s
      end
  end.

(** *** requestMicAccess *)

(** Up to the await of the race. *)
Definition requestMicAccess (caller : MicCaller) (s : Session) : Session :=
  let s := setLastMicRequestFailureRef None s in
  if negb (hasGetUserMedia browser) || negb (hasMediaRecorder browser)
  then
    s |> setLastMicRequestFailureRef (Some "unsupported_api")
      |> setStatus Unsupported
      |> setErrorName (Some "NotSupportedError")
  else
    s |> setStatus Requesting
      |> setErrorName None
      |> setPendingMic (pendingMic (world s) ++ [caller]).

(** After the await: the stream handed to the caller, if any. *)
Definition requestMicAccessSettled (outcome : MicOutcome) (s : Session)
  : option MediaStream * Session :=
  match outcome with
  | MicTimedOut lateStream =>
      (None,
       s |> setLastMicRequestFailureRef (Some "permission_timeout")
         |> setErrorName (Some "PermissionTimeoutError")
         |> setStatus Error
         |> stopAndReleaseStream lateStream)
  | MicGranted newStream =>
      if negb (mountedRef (refs s)) then
        (None,
         s |> setLastMicRequestFailureRef (Some "resolved_after_unmount")
           |> stopAndReleaseStream (Some newStream))
      else
        (Some newStream,
         s |> installStream newStream |> setStatus Ready)
  | MicRejected error =>
      if negb (mountedRef (refs s)) then
        (None,
         s |> setLastMicRequestFailureRef (Some "failed_after_unmount"))
      else
        let name := errorNameOr "UnknownError" error in
        (None,
         s |> setLastMicRequestFailureRef
                (Some (String.append "request_error:" name))
           |> setErrorName (Some name)
           |> setStatus MicDenied)
  end.

(** *** startRecording *)

Definition startTimers (s : Session) : Session :=
  let interval := timersCreated (world s) in
  let timeout := S interval in
  s |> setTimerRef (Some interval)
    |> setAutoStopRef (Some timeout)
    |> setTimersCreated (S timeout).

Definition startRecordingFailed (error : Exception) (s : Session)
  : Session :=
  if negb (mountedRef (refs s)) then s
  else
    s |> setErrorName (Some (errorNameOr "UnknownError" error))
      |> setStatus Error
      |> clearTimer
      |> clearAutoStop.

(** From the point where [activeStream] is known to be there. *)
Definition startRecordingWith (activeStream : MediaStream)
    (env : RecorderEnv) (s : Session) : Session :=
  if negb (hasMediaRecorder browser) then
    s |> setStatus Unsupported
      |> setErrorName (Some "NotSupportedError")
  else
    let s :=
      s |> clearTimer
        |> clearAutoStop
        |> setElapsedMs 0
        |> setMeasuredDurationMs None
        |> setGateResult None
        |> setOutputSampleRate None
        |> setAudioBlob None
        |> clearAudioUrl
        |> setAudioUrl None
        |> setChunksRef []
        |> setErrorName None in
    match recorderCreated env with
    | Throw error => startRecordingFailed error s
    | Normal recorderMime =>
        let recorder state :=
          {| recorderState := state;
             recorderMimeType := recorderMime;
             handlersAttached := true |} in
        let s := setMediaRecorderRef (Some (recorder inactive)) s in
        match recorderStarted env with
        | Throw error => startRecordingFailed error s
        | Normal _ =>
            s |> setMediaRecorderRef (Some (recorder recording))
              |> setStartedAtRef (Some (now env))
              |> setStatus Recording
              |> startTimers
        end
    end.

(** The callback is built anew by each render, with [status] among the
    dependencies of its [useCallback]: the guard at its head tests
    [renderedStatus], the status of the render that built the function
    object through which the call comes, not the status last set.
    [streamRef] is a ref and is read as it is at the call. *)
Definition startRecording (renderedStatus : RecorderStatus)
    (env : RecorderEnv) (s : Session) : Session :=
  match renderedStatus with
  | Requesting | Recording => s
  | _ =>
      match streamRef (refs s) with
      | Some activeStream => startRecordingWith activeStream env s
      | None => requestMicAccess FromStartRecording s
      end
  end.

(** The oldest pending [getUserMedia] settles and its caller goes on. *)
Definition micSettled (outcome : MicOutcome) (env : RecorderEnv)
    (s : Session) : Session :=
  match pendingMic (world s) with
  | [] => s
  | caller :: others =>
      let s := setPendingMic others s in
      let (activeStream, s) := requestMicAccessSettled outcome s in
      match caller, activeStream with
      | FromStartRecording, Some activeStream =>
          startRecordingWith activeStream env s
      | _, _ => s
      end
  end.

(** *** The two timers *)

(** The interval callback; [!startedAtRef.current] also holds of 0. *)
Definition timerTick (dateNow : Z) (s : Session) : Session :=
  match startedAtRef (refs s) with
  | None => s
  | Some startedAt =>
      if startedAt =? 0 then s
      else
        let elapsed := dateNow - startedAt in
        setElapsedMs (Z.min elapsed maxDurationMs) s
  end.

(** The timeout callback. *)
Definition autoStopTimeout (s : Session) : Session :=
  s |> setElapsedMs maxDurationMs |> stopRecorderSafely.

(** *** The handlers of the recorder *)

Definition ondataavailable (data : Blob) (s : Session) : Session :=
  if (0 <? blob_size data)%nat
  then setChunksRef (chunksRef (refs s) ++ [data]) s
  else s.

(** [recorder.onstop] up to the await of the conversion. *)
Definition onstop (recorder : MediaRecorder) (s : Session) : Session :=
  let s := s |> clearTimer |> clearAutoStop in
  if negb (mountedRef (refs s)) then s
  else
    let resultBlob :=
      {| blob_bytes := flat_map blob_bytes (chunksRef (refs s));
         blob_type :=
           firstTruthy (recorderMimeType recorder) mimeType "audio/webm" |}
    in
    s |> setStatus Processing
      |> setChunksRef []
      |> setPendingConversions (pendingConversions (world s) ++ [resultBlob]).

Definition conversionFailed (error : Exception) (s : Session) : Session :=
  if negb (mountedRef (refs s)) then s
  else
    s |> setErrorName (Some (errorNameOr "ConversionError" error))
      |> setStatus Error.

(** [recorder.onstop] after the await: the oldest pending conversion
    settles. *)
Definition conversionSettled (s : Session) : Session :=
  match pendingConversions (world s) with
  | [] => s
  | resultBlob :: others =>
      let s := setPendingConversions others s in
      match convertBlobTo16kMonoWav platform resultBlob with
      | Throw error => conversionFailed error s
      | Normal converted =>
          if negb (mountedRef (refs s)) then s
          else
            let newUrl := urlsCreated (world s) in
            let s :=
              s |> setAudioBlob (Some (AudioUtils.blob converted))
                |> setOutputSampleRate
                     (Some (AudioUtils.sampleRate converted))
                |> setUrlsCreated (S newUrl)
                |> clearAudioUrl
                |> setAudioUrlRef (Some newUrl)
                |> setAudioUrl (Some newUrl)
                |> setMeasuredDurationMs
                     (Some (AudioUtils.durationMs converted)) in
            match analyzePcmForSpeechGate gateConfig
                    (AudioUtils.pcm converted)
                    (AudioUtils.sampleRate converted) with
            | Throw error => conversionFailed error s
            | Normal gate =>
                s |> setGateResult (Some gate) |> setStatus Result
            end
      end
  end.

(** [recorder.onerror]; [name] is [domError?.name]. *)
Definition onerror (name : option string) (s : Session) : Session :=
  if negb (mountedRef (refs s)) then s
  else
    s |> setErrorName
           (Some match name with Some n => n | None => "RecorderError" end)
      |> setStatus Error
      |> clearTimer
      |> clearAutoStop.

(** *** retry and the cleanup of the effect *)

Definition retry (s : Session) : Session :=
  let s := s |> setErrorName None |> setGateResult None in
  match streamRef (refs s) with
  | None => requestMicAccess FromRequestOnly s
  | Some _ => setStatus Ready s
  end.

Definition cleanup (s : Session) : Session :=
  let s :=
    s |> setMountedRef false
      |> clearTimer
      |> clearAutoStop
      |> clearAudioUrl in
  let s :=
    match mediaRecorderRef (refs s) with
    | Some recorder =>
        match recorderState recorder with
        | recording =>
            setMediaRecorderRef
              (Some {| recorderState := inactive;
                       recorderMimeType := recorderMimeType recorder;
                       handlersAttached := false |}) s
        | inactive => s
        end
    | None => s
    end in
  stopAndReleaseStream (streamRef (refs s)) s.

(** *** The session as a machine

    What can happen to a mounted hook, and the session after it.  A
    timer fires only while it is registered, and the recorder reaches
    only the handlers that are attached to it.  A call of
    [startRecording] comes through the callback of some render, and
    carries the status which that render saw. *)

Inductive Event : Type :=
| CallStartRecording (renderedStatus : RecorderStatus)
    (env : RecorderEnv)
| CallRequestMicAccess
| CallRetry
| MicSettled (outcome : MicOutcome) (env : RecorderEnv)
| TimerTick (dateNow : Z)
| AutoStopTimeout
| DataAvailable (data : Blob)
| RecorderStopped
| ConversionSettled
| RecorderError (name : option string)
| Unmount.

Definition withRecorder (handler : MediaRecorder -> Session -> Session)
    (s : Session) : Session :=
  match mediaRecorderRef (refs s) with
  | Some recorder =>
      if handlersAttached recorder then handler recorder s else s
  | None => s
  end.

Definition step (s : Session) (e : Event) : Session :=
  match e with
  | CallStartRecording renderedStatus env =>
      startRecording renderedStatus env s
  | CallRequestMicAccess => requestMicAccess FromRequestOnly s
  | CallRetry => retry s
  | MicSettled outcome env => micSettled outcome env s
  | TimerTick dateNow =>
      match timerRef (refs s) with
      | Some _ => timerTick dateNow s
      | None => s
      end
  | AutoStopTimeout =>
      match autoStopRef (refs s) with
      | Some _ => autoStopTimeout s
      | None => s
      end
  | DataAvailable data => withRecorder (fun _ => ondataavailable data) s
  | RecorderStopped => withRecorder onstop s
  | ConversionSettled => conversionSettled s
  | RecorderError name => withRecorder (fun _ => onerror name) s
  | Unmount => cleanup s
  end.

Definition run (events : list Event) (s : Session) : Session :=
  fold_left step events s.

(** The elapsed time on display is within the recording window. *)
Definition elapsedClamped (s : Session) : Prop :=
  elapsedMs (state s) <= maxDurationMs.

End Hook.

(** ** What holds of a session between two callbacks

    The conditions that the callbacks keep, each with the relation that
    says so of one callback: if it holds before, it holds after. *)

(** *** The timers *)

Definition timers (s : Session)
  : option TimerId * option TimerId * option Z :=
  (timerRef (refs s), autoStopRef (refs s), startedAtRef (refs s)).

Definition timersTogether (s : Session) : Prop :=
  timers s = (None, None, None)
  \/ exists interval timeout startedAt,
       timers s = (Some interval, Some timeout, Some startedAt).

(** Across an operation the three are left alone, all cleared or all
    set. *)
Definition timersMove (s s' : Session) : Prop :=
  timersTogether s -> timersTogether s'.

(** *** The object URLs *)

(** Every URL created so far is the current one or has been revoked, and
    the current one is one of those created. *)
Definition urlsTracked (s : Session) : Prop :=
  (forall url, (url < urlsCreated (world s))%nat ->
               audioUrlRef (refs s) = Some url
               \/ In url (revokedUrls (world s)))
  /\ (forall url, audioUrlRef (refs s) = Some url ->
                  (url < urlsCreated (world s))%nat).

Definition urlsMove (s s' : Session) : Prop :=
  urlsTracked s -> urlsTracked s'.

(** Only URLs that were created are revoked, and the current one has not
    been revoked. *)
Definition urlsFresh (s : Session) : Prop :=
  (forall url, In url (revokedUrls (world s)) ->
               (url < urlsCreated (world s))%nat)
  /\ (forall url, audioUrlRef (refs s) = Some url ->
                  (url < urlsCreated (world s))%nat
                  /\ ~ In url (revokedUrls (world s))).

Definition freshMove (s s' : Session) : Prop :=
  urlsFresh s -> urlsFresh s'.

(** *** The streams *)

(** A stream that the session holds or has released is still held or
    released afterwards. *)
Definition streamsKept (s s' : Session) : Prop :=
  forall st,
    stream (state s) = Some st \/ In st (releasedStreams (world s)) ->
    stream (state s') = Some st \/ In st (releasedStreams (world s')).

(** The effect keeps [streamRef] equal to the stream of the state. *)
Definition streamSynced (s : Session) : Prop :=
  streamRef (refs s) = stream (state s).

Definition streamSyncedMove (s s' : Session) : Prop :=
  streamSynced s -> streamSynced s'.

(** *** After the unmount *)

(** The hook is unmounted, no object URL is live and the stream it holds,
    if any, has been released. *)
Definition released (s : Session) : Prop :=
  mountedRef (refs s) = false
  /\ audioUrlRef (refs s) = None
  /\ (forall url, (url < urlsCreated (world s))%nat ->
                  In url (revokedUrls (world s)))
  /\ (forall st, stream (state s) = Some st ->
                 In st (releasedStreams (world s))).

Definition releasedMove (s s' : Session) : Prop :=
  released s -> released s'.

(** *** What the status promises *)

(** While the hook is mounted, [Result] comes with everything the page
    shows of a take. *)
Definition resultComplete (s : Session) : Prop :=
  mountedRef (refs s) = true ->
  status (state s) = Result ->
  exists wav gate url,
    audioBlob (state s) = Some wav
    /\ gateResult (state s) = Some gate
    /\ audioUrl (state s) = Some url
    /\ audioUrlRef (refs s) = Some url
    /\ measuredDurationMs (state s) = Some 2000%float
    /\ outputSampleRate (state s) = Some 16000%float.

Definition resultMove (s s' : Session) : Prop :=
  resultComplete s -> resultComplete s'.

(** While the hook is mounted, [Recording] comes with both timers
    registered and a recorder whose handlers are attached. *)
Definition recordingTimed (s : Session) : Prop :=
  mountedRef (refs s) = true ->
  status (state s) = Recording ->
  exists interval timeout startedAt recorder,
    timerRef (refs s) = Some interval
    /\ autoStopRef (refs s) = Some timeout
    /\ startedAtRef (refs s) = Some startedAt
    /\ mediaRecorderRef (refs s) = Some recorder
    /\ handlersAttached recorder = true.

Definition timedMove (s s' : Session) : Prop :=
  recordingTimed s -> recordingTimed s'.

(** *** A browser that cannot record *)

(** Nothing has been asked of the browser and nothing is under way. *)
Definition neverStarted (s : Session) : Prop :=
  (status (state s) = Idle \/ status (state s) = Unsupported)
  /\ stream (state s) = None
  /\ streamRef (refs s) = None
  /\ mediaRecorderRef (refs s) = None
  /\ timerRef (refs s) = None
  /\ autoStopRef (refs s) = None
  /\ pendingMic (world s) = []
  /\ pendingConversions (world s) = [].

(** A browser with everything in place, to run the session on. *)
Definition fullBrowser : Browser :=
  {| hasGetUserMedia := true;
     hasMediaRecorder := true;
     isTypeSupported := Some (fun mime => String.eqb mime "audio/webm") |}.

Definition plainEnv (dateNow : Z) : RecorderEnv :=
  {| recorderCreated := Normal "audio/webm";
     recorderStarted := Normal tt;
     now := dateNow |}.

(** A recording that starts at 1000 and whose interval fires at 1100 and,
    late, at 5100. *)
Definition lateTicks : list Event :=
  [CallStartRecording Idle (plainEnv 1000);
   MicSettled (MicGranted 7%nat) (plainEnv 1000);
   TimerTick 1100;
   TimerTick 5100].

(** The session after a first call, waiting for the microphone, and the
    session while it records. *)
Definition requestingSession : Session :=
  run fullBrowser holdPlatform sampleConfig (Some 2000)
      [CallStartRecording Idle (plainEnv 1000)] initialSession.

Definition recordingSession : Session :=
  run fullBrowser holdPlatform sampleConfig (Some 2000)
      [CallStartRecording Idle (plainEnv 1000);
       MicSettled (MicGranted 7%nat) (plainEnv 1000);
       DataAvailable {| blob_bytes := [1; 2; 3]; blob_type := "audio/webm" |}]
      initialSession.

(** The session once the microphone has been granted on request, a take
    of one chunk that the timeout stops, and the same take up to the
    settlement of its conversion. *)
Definition demoGrant : list Event :=
  [CallRequestMicAccess; MicSettled (MicGranted 7%nat) (plainEnv 1000)].

Definition readySession : Session :=
  run fullBrowser holdPlatform sampleConfig (Some 2000) demoGrant
      initialSession.

Definition demoTake : list Event :=
  CallStartRecording Ready (plainEnv 1000)
  :: map DataAvailable [demoBlob] ++ [AutoStopTimeout; RecorderStopped].

Definition stoppedSession : Session :=
  run fullBrowser holdPlatform sampleConfig (Some 2000) demoTake
      readySession.

(** A take without data: its conversion fails in the decoder. *)
Definition silentSession : Session :=
  run fullBrowser holdPlatform sampleConfig (Some 2000)
      [CallStartRecording Ready (plainEnv 1000); AutoStopTimeout;
       RecorderStopped]
      readySession.

End Recorder.

Import Recorder.

(* ================================================================== *)
(** * App.tsx: what the page does with the session *)
(* ================================================================== *)

Module App.

Local Open Scope float_scope.

(** [Math.min((elapsedMs / maxDurationMs) * 100, 100)], the width of the
    progress bar in percent. *)
Definition progressPercent (elapsedMs maxDurationMs : Z) : number :=
  Math_min ((of_Z elapsedMs / of_Z maxDurationMs) * 100) 100.

Definition activeDotCount (status : RecorderStatus) : nat :=
  match status with
  | Requesting => 2
  | Ready | Recording | Processing | Result => 3
  | _ => 1
  end.

(** The [disabled] attribute of the main button. *)
Definition mainButtonDisabled (status : RecorderStatus) : bool :=
  match status with
  | Requesting | Recording | Processing => true
  | _ => false
  end.

(** The retry button is rendered in these two states. *)
Definition retryButtonShown (status : RecorderStatus) : bool :=
  match status with
  | MicDenied | Error => true
  | _ => false
  end.

(** The handler and the [startRecording] it calls come from the same
    render and see the same [status]. *)
Definition handleMainButtonClick (browser : Browser)
    (renderedStatus : RecorderStatus) (env : RecorderEnv) (s : Session)
  : Session :=
  match renderedStatus with
  | Recording | Processing => s
  | _ => startRecording browser renderedStatus env s
  end.

End App.

Import App.

(* ================================================================== *)
(** * Earlier revisions of the page and of the hook *)
(* ================================================================== *)

(** ** The duration check of the earlier hook

    Before the conversion to WAV was written, [recorder.onstop] measured
    the take and rejected it when it was off the recording window by more
    than a tolerance. *)

Module DurationCheck.

Local Open Scope float_scope.




End DurationCheck.

(** ** The first page: four stages in a circle *)

Module KwsPrototype.

Local Open Scope Z_scope.

Inductive KwsStage : Type := Ready | Recording | Processing | Result.

Definition stageFlow : list KwsStage :=
  [Ready; Recording; Processing; Result].

Definition KwsStage_eqb (a b : KwsStage) : bool :=
  match a, b with
  | Ready, Ready | Recording, Recording
  | Processing, Processing | Result, Result => true
  | _, _ => false
  end.

(** [Array.prototype.indexOf]: the first index of the element, or -1. *)
Fixpoint indexOfFrom (l : list KwsStage) (x : KwsStage) (i : Z) : Z :=
  match l with
  | [] => -1
  | y :: rest => if KwsStage_eqb y x then i else indexOfFrom rest x (i + 1)
  end.

Definition indexOf (l : list KwsStage) (x : KwsStage) : Z :=
  indexOfFrom l x 0.

Definition currentStep (stage : KwsStage) : Z := indexOf stageFlow stage + 1.

(** The updater handed to [setStage]; [None] is [undefined], what an
    index outside the array reads. *)
Definition handleRecordButtonClick (prev : KwsStage) : option KwsStage :=
  let index := indexOf stageFlow prev in
  let nextIndex := Z.rem (index + 1) (Z.of_nat (length stageFlow)) in
  if nextIndex <? 0 then None
  else nth_error stageFlow (Z.to_nat nextIndex).

(** The dots of the progress track that carry [is-active]. *)
Definition activeDots (stage : KwsStage) : list bool :=
  map (fun index => Z.of_nat index <? currentStep stage)
      (seq 0 (length stageFlow)).

(** [n] clicks on the button. *)
Fixpoint clicks (n : nat) (stage : KwsStage) : option KwsStage :=
  match n with
  | O => Some stage
  | S n' =>
      match handleRecordButtonClick stage with
      | Some next => clicks n' next
      | None => None
      end
  end.

End KwsPrototype.
(* ================================================================== *)
(** * The order of numbers

    Facts about [<?] and [<=?] on numbers, through the specification of
    the primitive comparisons by [SFcompare]. *)
(* ================================================================== *)

Module NumOrder.

Local Open Scope float_scope.

(** ** The comparison of the specification floats *)

Ltac sf_cases :=
  unfold SFleb, SFltb, SFeqb, SFcompare;
  repeat match goal with
         | x : spec_float |- _ => destruct x
         | s : bool |- _ => destruct s
         end;
  try reflexivity; try discriminate;
  repeat match goal with
         | |- context [Z.compare ?a ?b] =>
             destruct (Z.compare_spec a b)
         | |- context [Pos.compare_cont Eq ?a ?b] =>
             change (Pos.compare_cont Eq a b) with (Pos.compare a b);
             destruct (Pos.compare_spec a b)
         end;
  cbn [CompOpp];
  try reflexivity; try discriminate; try lia.

Lemma SFleb_trans (a b c : spec_float) :
  SFleb a b = true -> SFleb b c = true -> SFleb a c = true.
Proof. sf_cases. Qed.

Lemma SFleb_of_not_SFltb (a b : spec_float) :
  a <> S754_nan -> b <> S754_nan ->
  SFltb a b = false -> SFleb b a = true.
Proof. intros Ha Hb. revert Ha Hb. sf_cases; intros; congruence. Qed.

Lemma SFltb_trans (a b c : spec_float) :
  SFltb a b = true -> SFltb b c = true -> SFltb a c = true.
Proof. sf_cases. Qed.

Lemma SFltb_SFleb (a b : spec_float) :
  SFltb a b = true -> SFleb a b = true.
Proof. sf_cases. Qed.

Lemma SFleb_not_SFltb (a b : spec_float) :
  SFleb a b = true -> SFltb b a = false.
Proof. sf_cases. Qed.

Lemma SFleb_refl (a : spec_float) :
  a <> S754_nan -> SFleb a a = true.
Proof.
  intros Ha. revert Ha.
  unfold SFleb, SFcompare. destruct a as [s|s| |s m e]; try destruct s;
    try reflexivity; try congruence; intros _;
    rewrite Z.compare_refl;
    change (Pos.compare_cont Eq m m) with (Pos.compare m m);
    rewrite Pos.compare_refl; reflexivity.
Qed.

Lemma SFeqb_nan (a : spec_float) :
  SFeqb a a = false <-> a = S754_nan.
Proof.
  unfold SFeqb, SFcompare. destruct a as [s|s| |s m e]; try destruct s;
    split; try reflexivity; try discriminate;
    rewrite Z.compare_refl;
    change (Pos.compare_cont Eq m m) with (Pos.compare m m);
    rewrite Pos.compare_refl; discriminate.
Qed.

(** ** The comparisons of numbers *)

Lemma is_nan_spec (x : float) :
  PrimFloat.is_nan x = false <-> Prim2SF x <> S754_nan.
Proof.
  unfold PrimFloat.is_nan. rewrite FloatAxioms.eqb_spec.
  split.
  - intros H E. rewrite E in H. discriminate.
  - intros H. destruct (SFeqb (Prim2SF x) (Prim2SF x)) eqn:E;
      [reflexivity |]. apply SFeqb_nan in E. contradiction.
Qed.

Lemma leb_trans (a b c : float) :
  (a <=? b) = true -> (b <=? c) = true -> (a <=? c) = true.
Proof. rewrite !FloatAxioms.leb_spec. apply SFleb_trans. Qed.

Lemma leb_of_not_ltb (a b : float) :
  PrimFloat.is_nan a = false -> PrimFloat.is_nan b = false ->
  (a <? b) = false -> (b <=? a) = true.
Proof.
  rewrite !is_nan_spec, FloatAxioms.ltb_spec, FloatAxioms.leb_spec.
  apply SFleb_of_not_SFltb.
Qed.

Lemma ltb_trans (a b c : float) :
  (a <? b) = true -> (b <? c) = true -> (a <? c) = true.
Proof. rewrite !FloatAxioms.ltb_spec. apply SFltb_trans. Qed.

Lemma ltb_asym (a b : float) : (a <? b) = true -> (b <? a) = false.
Proof.
  rewrite !FloatAxioms.ltb_spec. intros H.
  apply SFleb_not_SFltb, SFltb_SFleb, H.
Qed.

Lemma ltb_leb (a b : float) : (a <? b) = true -> (a <=? b) = true.
Proof.
  rewrite FloatAxioms.ltb_spec, FloatAxioms.leb_spec. apply SFltb_SFleb.
Qed.

Lemma leb_not_ltb (a b : float) : (a <=? b) = true -> (b <? a) = false.
Proof.
  rewrite FloatAxioms.ltb_spec, FloatAxioms.leb_spec.
  apply SFleb_not_SFltb.
Qed.

Lemma leb_refl (a : float) : PrimFloat.is_nan a = false -> (a <=? a) = true.
Proof. rewrite is_nan_spec, FloatAxioms.leb_spec. apply SFleb_refl. Qed.

Lemma ltb_not_nan (a b : float) :
  (a <? b) = true ->
  PrimFloat.is_nan a = false /\ PrimFloat.is_nan b = false.
Proof.
  rewrite !is_nan_spec, FloatAxioms.ltb_spec. unfold SFltb, SFcompare.
  destruct (Prim2SF a), (Prim2SF b); try discriminate;
    split; discriminate.
Qed.

Lemma leb_not_nan (a b : float) :
  (a <=? b) = true ->
  PrimFloat.is_nan a = false /\ PrimFloat.is_nan b = false.
Proof.
  rewrite !is_nan_spec, FloatAxioms.leb_spec. unfold SFleb, SFcompare.
  destruct (Prim2SF a), (Prim2SF b); try discriminate;
    split; discriminate.
Qed.

Lemma abs_is_nan (x : float) :
  PrimFloat.is_nan (PrimFloat.abs x) = PrimFloat.is_nan x.
Proof.
  destruct (PrimFloat.is_nan x) eqn:E.
  - destruct (PrimFloat.is_nan (abs x)) eqn:E'; [reflexivity |].
    apply is_nan_spec in E'. rewrite abs_spec in E'.
    destruct (Prim2SF x) eqn:Ex; try (exfalso; apply E'; reflexivity).
    all: assert (PrimFloat.is_nan x = false)
      by (apply is_nan_spec; rewrite Ex; discriminate); congruence.
  - apply is_nan_spec. apply is_nan_spec in E. rewrite abs_spec.
    destruct (Prim2SF x); try discriminate. congruence.
Qed.

End NumOrder.

(* ================================================================== *)
(** * Properties of the waveform normaliser *)
(* ================================================================== *)

Section ListFacts.

Context {A : Type}.

Lemma skipn_repeat (x : A) (k n : nat) :
  skipn k (repeat x n) = repeat x (n - k).
Proof.
  revert n; induction k as [|k IH]; intros n.
  - now rewrite Nat.sub_0_r.
  - destruct n as [|n]; simpl; [reflexivity | apply IH].
Qed.

Lemma nth_app_at (pre rest : list A) (i : nat) (d : A) :
  nth (length pre + i) (pre ++ rest) d = nth i rest d.
Proof.
  rewrite app_nth2 by lia. f_equal. lia.
Qed.

End ListFacts.

Module AudioUtilsFacts.

Local Open Scope completion_scope.

(** ** normalizeToFixedSamples *)

Lemma normalizeToFixedSamples_eq (input : Float32Array) (target : nat) :
  normalizeToFixedSamples input target
  = Normal (firstn target input
            ++ repeat 0%float (target - length input)).
Proof.
  unfold normalizeToFixedSamples.
  destruct (Nat.eqb_spec (length input) target) as [E | NE].
  - subst target. rewrite firstn_all, Nat.sub_diag. simpl.
    now rewrite app_nil_r.
  - unfold Float32Array_set, Float32Array_new, subarray0.
    rewrite repeat_length, length_firstn.
    destruct (Nat.leb_spec (Nat.min target (length input)) target)
      as [_ | Hgt]; [| lia].
    rewrite skipn_repeat. do 3 f_equal. lia.
Qed.

Lemma normalizeToFixedSamples_length (input out : Float32Array)
    (target : nat) :
  normalizeToFixedSamples input target = Normal out ->
  length out = target.
Proof.
  rewrite normalizeToFixedSamples_eq. intros [= <-].
  rewrite length_app, length_firstn, repeat_length. lia.
Qed.

(** ** encodeWavPcm16: the bytes it writes *)

Lemma headerBytes_length (sampleRate dataSize : Z) :
  length (headerBytes sampleRate dataSize) = 44%nat.
Proof. reflexivity. Qed.

Lemma store_app (pre rest : ArrayBuffer) (i : nat) (b : Z) :
  store (pre ++ rest) (length pre + i) b = pre ++ store rest i b.
Proof.
  induction pre as [|x pre IH]; simpl; [reflexivity | now rewrite IH].
Qed.

Lemma writeSamples_app (samples : Float32Array) :
  forall (pre rest : ArrayBuffer),
    length rest = (2 * length samples)%nat ->
    writeSamples samples (mkWriter (pre ++ rest) (length pre))
    = Normal (mkWriter (pre ++ flat_map sampleBytes samples)
                       (length pre + 2 * length samples)).
Proof.
  induction samples as [|x samples IH]; intros pre rest Hlen.
  - destruct rest; [| discriminate]. simpl.
    now rewrite Nat.add_0_r.
  - destruct rest as [|a [|b tl]]; simpl in Hlen; try lia.
    cbn [writeSamples view offset]. unfold setInt16, setUint16.
    rewrite length_app. cbn [length].
    destruct (Nat.leb_spec (length pre + 2)
                           (length pre + S (S (length tl))))
      as [_ | Hgt]; [| lia].
    cbn [Js.bind].
    rewrite <- (Nat.add_0_r (length pre)) at 1.
    rewrite store_app. cbn [store].
    rewrite store_app. cbn [store].
    change (pre ++ ?x :: ?y :: tl) with (pre ++ [x; y] ++ tl).
    rewrite app_assoc.
    replace (length pre + 2)%nat
      with (length (pre ++ le16 (ToIntegerOrZero
                                   (scaleSample (clampSample x)))))
      by (rewrite length_app; reflexivity).
    rewrite IH by lia.
    rewrite length_app. cbn [flat_map length le16].
    rewrite <- app_assoc. do 2 f_equal. lia.
Qed.

Lemma writeHeader_zeros {B : Type} (sampleRate dataSize : Z)
    (rest : ArrayBuffer) (k : Writer -> Completion B) :
  (w <- writeString "RIFF" (mkWriter (ArrayBuffer_new 44 ++ rest) 0) ;;
   w <- writeUint32 (36 + dataSize) w ;;
   w <- writeString "WAVE" w ;;
   w <- writeString "fmt " w ;;
   w <- writeUint32 16 w ;;
   w <- writeUint16 1 w ;;
   w <- writeUint16 1 w ;;
   w <- writeUint32 sampleRate w ;;
   w <- writeUint32 (sampleRate * 1 * 2) w ;;
   w <- writeUint16 (1 * 2) w ;;
   w <- writeUint16 16 w ;;
   w <- writeString "data" w ;;
   w <- writeUint32 dataSize w ;;
   k w)
  = k (mkWriter (headerBytes sampleRate dataSize ++ rest) 44).
Proof. reflexivity. Qed.

(** The encoder never throws: the buffer it allocates is exactly as long
    as what it writes, the header first and two bytes per sample after. *)
Lemma encodeWavPcm16_eq (samples : Float32Array) (sampleRate : Z) :
  encodeWavPcm16 samples sampleRate
  = Normal (mkBlob (headerBytes sampleRate (Z.of_nat (length samples) * 2)
                    ++ flat_map sampleBytes samples)
                   WAV_MIME_TYPE).
Proof.
  unfold encodeWavPcm16. cbv zeta.
  replace (Z.to_nat (44 + Z.of_nat (length samples) * 2))
    with (44 + 2 * length samples)%nat by lia.
  unfold ArrayBuffer_new at 1. rewrite repeat_app.
  change (repeat 0%Z 44) with (ArrayBuffer_new 44).
  rewrite writeHeader_zeros.
  pose proof (writeSamples_app samples
                (headerBytes sampleRate (Z.of_nat (length samples) * 2))
                (repeat 0%Z (2 * length samples))
                (repeat_length _ _)) as Hdata.
  rewrite headerBytes_length in Hdata.
  match type of Hdata with
  | ?lhs = _ =>
      match goal with
      | |- Js.bind _ ?k = ?r => change (Js.bind lhs k = r)
      end
  end.
  rewrite Hdata. reflexivity.
Qed.

Lemma flat_map_sampleBytes_length (samples : Float32Array) :
  length (flat_map sampleBytes samples) = (2 * length samples)%nat.
Proof.
  induction samples as [|x samples IH]; simpl; lia.
Qed.

(** ** Little-endian fields read back *)

Lemma le16_roundtrip (v : Z) (pre rest : list Z) :
  getUint16 (pre ++ le16 v ++ rest) (length pre) = (v mod 2 ^ 16)%Z.
Proof.
  unfold getUint16, getUint8.
  rewrite <- (Nat.add_0_r (length pre)) at 1.
  rewrite !nth_app_at. cbn [le16 nth app].
  assert (0 <= v mod 2 ^ 16 < 2 ^ 16)%Z by (apply Z.mod_pos_bound; lia).
  generalize dependent (v mod 2 ^ 16)%Z. intros u Hu.
  change (2 ^ 8)%Z with 256%Z. change (2 ^ 16)%Z with 65536%Z in Hu.
  pose proof (Z.div_mod u 256). lia.
Qed.

Lemma le32_roundtrip (v : Z) (pre rest : list Z) :
  getUint32 (pre ++ le32 v ++ rest) (length pre) = (v mod 2 ^ 32)%Z.
Proof.
  unfold getUint32, getUint8.
  rewrite <- (Nat.add_0_r (length pre)) at 1.
  rewrite !nth_app_at. cbn [le32 nth app].
  assert (0 <= v mod 2 ^ 32 < 2 ^ 32)%Z by (apply Z.mod_pos_bound; lia).
  generalize dependent (v mod 2 ^ 32)%Z. intros u Hu.
  change (2 ^ 8)%Z with 256%Z. change (2 ^ 16)%Z with 65536%Z.
  change (2 ^ 24)%Z with 16777216%Z.
  change (2 ^ 32)%Z with 4294967296%Z in Hu.
  Z.div_mod_to_equations. lia.
Qed.

Ltac field32 off v :=
  match goal with
  | |- getUint32 ?l _ = _ =>
      exact (le32_roundtrip v (firstn off l) (skipn (off + 4) l))
  end.

Ltac field16 off v :=
  match goal with
  | |- getUint16 ?l _ = _ =>
      exact (le16_roundtrip v (firstn off l) (skipn (off + 2) l))
  end.

Lemma parseWavHeader_headerBytes (sampleRate dataSize : Z)
    (data : list Z) :
  parseWavHeader (headerBytes sampleRate dataSize ++ data)
  = Some {| riffTag := charCodes "RIFF";
            riffSize := (36 + dataSize) mod 2 ^ 32;
            waveTag := charCodes "WAVE";
            fmtTag := charCodes "fmt ";
            fmtSize := 16;
            formatTag := 1;
            channels := 1;
            headerSampleRate := sampleRate mod 2 ^ 32;
            headerByteRate := (sampleRate * 1 * 2) mod 2 ^ 32;
            headerBlockAlign := 1 * 2;
            bitsPerSample := 16;
            dataTag := charCodes "data";
            headerDataSize := dataSize mod 2 ^ 32 |}.
Proof.
  unfold parseWavHeader.
  replace (44 <=? length (headerBytes sampleRate dataSize ++ data))%nat
    with true
    by (symmetry; apply Nat.leb_le; rewrite length_app, headerBytes_length;
        lia).
  f_equal.
  assert (H4 : getUint32 (headerBytes sampleRate dataSize ++ data) 4
               = ((36 + dataSize) mod 2 ^ 32)%Z)
    by field32 4%nat (36 + dataSize)%Z.
  assert (H24 : getUint32 (headerBytes sampleRate dataSize ++ data) 24
                = (sampleRate mod 2 ^ 32)%Z)
    by field32 24%nat sampleRate.
  assert (H28 : getUint32 (headerBytes sampleRate dataSize ++ data) 28
                = ((sampleRate * 1 * 2) mod 2 ^ 32)%Z)
    by field32 28%nat (sampleRate * 1 * 2)%Z.
  assert (H40 : getUint32 (headerBytes sampleRate dataSize ++ data) 40
                = (dataSize mod 2 ^ 32)%Z)
    by field32 40%nat dataSize.
  rewrite H4, H24, H28, H40.
  reflexivity.
Qed.

(** Header round trip, for every sample array and rate whose sizes fit the
    32-bit fields. *)
Lemma encodeWavPcm16_header (samples : Float32Array) (sampleRate : Z) :
  (0 <= sampleRate)%Z ->
  (sampleRate * 2 < 2 ^ 32)%Z ->
  (36 + Z.of_nat (length samples) * 2 < 2 ^ 32)%Z ->
  exists wav,
    encodeWavPcm16 samples sampleRate = Normal wav
    /\ blob_type wav = WAV_MIME_TYPE
    /\ blob_size wav = (44 + length samples * 2)%nat
    /\ firstn 44 (blob_bytes wav)
       = headerBytes sampleRate (Z.of_nat (length samples) * 2)
    /\ skipn 44 (blob_bytes wav) = flat_map sampleBytes samples
    /\ parseWavHeader (blob_bytes wav)
       = Some (expectedHeader sampleRate (length samples)).
Proof.
  intros Hrate Hbyte Hsize.
  remember (headerBytes sampleRate (Z.of_nat (length samples) * 2))
    as hdr eqn:Ehdr.
  assert (Hh : length hdr = 44%nat)
    by (subst hdr; apply headerBytes_length).
  exists (mkBlob (hdr ++ flat_map sampleBytes samples) WAV_MIME_TYPE).
  split; [subst hdr; apply encodeWavPcm16_eq |].
  unfold blob_size, blob_bytes, blob_type.
  split; [reflexivity |].
  split; [rewrite length_app, Hh, flat_map_sampleBytes_length; lia |].
  split.
  { rewrite <- Hh, firstn_app, Nat.sub_diag, firstn_all. simpl.
    apply app_nil_r. }
  split.
  { rewrite <- Hh, skipn_app, Nat.sub_diag, skipn_all. reflexivity. }
  subst hdr. rewrite parseWavHeader_headerBytes.
  unfold expectedHeader.
  rewrite !Z.mod_small by lia. reflexivity.
Qed.

(** Where the two bytes of the sample at index [i] are. *)
Lemma sample_field (samples : Float32Array) (sampleRate : Z) (i : nat)
    (x : number) :
  nth_error samples i = Some x ->
  exists pre post,
    headerBytes sampleRate (Z.of_nat (length samples) * 2)
    ++ flat_map sampleBytes samples
    = pre ++ sampleBytes x ++ post
    /\ length pre = (44 + 2 * i)%nat.
Proof.
  intros Hx.
  destruct (nth_error_split samples i Hx) as (before & after & -> & Hi).
  exists (headerBytes sampleRate
            (Z.of_nat (length (before ++ x :: after)) * 2)
          ++ flat_map sampleBytes before),
         (flat_map sampleBytes after).
  split.
  - rewrite flat_map_app. cbn [flat_map].
    now rewrite <- !app_assoc.
  - rewrite length_app, headerBytes_length, flat_map_sampleBytes_length.
    lia.
Qed.

(** ** The pipeline *)

Lemma fixedLength_length (resampled : Float32Array) :
  length (fixedLength resampled) = Z.to_nat TARGET_SAMPLE_COUNT.
Proof.
  unfold fixedLength.
  rewrite length_app, length_firstn, repeat_length. lia.
Qed.

Lemma durationMs_fixed (fixed : Float32Array) :
  length fixed = Z.to_nat TARGET_SAMPLE_COUNT ->
  Math_round ((of_nat (length fixed) / of_Z TARGET_SAMPLE_RATE) * 1000)%float
  = 2000%float.
Proof. intros ->. vm_compute. reflexivity. Qed.

(** The conversion returns as soon as decoding, mixing and rendering do:
    neither the normalisation nor the encoder throws. *)
Lemma convertBlobTo16kMonoWav_returns (P : Platform) (input : Blob)
    (decoded : AudioBuffer) (mono resampled : Float32Array) :
  hasAudioContext P = true ->
  decodeAudioData P input = Normal decoded ->
  mixToMono decoded = Normal mono ->
  resampleTo16k P mono (ab_sampleRate decoded) = Normal resampled ->
  exists wav,
    convertBlobTo16kMonoWav P input
    = Normal {| blob := wav;
                pcm := fixedLength resampled;
                durationMs := 2000%float;
                sampleRate := of_Z TARGET_SAMPLE_RATE |}.
Proof.
  intros Hctx Hdec Hmix Hres.
  unfold convertBlobTo16kMonoWav, getAudioContextCtor.
  rewrite Hctx. cbn [Js.bind]. rewrite Hdec. cbn [Js.bind].
  rewrite Hmix. cbn [Js.bind]. rewrite Hres. cbn [Js.bind].
  rewrite normalizeToFixedSamples_eq. cbn [Js.bind].
  fold (fixedLength resampled).
  rewrite encodeWavPcm16_eq. cbn [Js.bind].
  rewrite durationMs_fixed by apply fixedLength_length.
  eexists. reflexivity.
Qed.

(** Whatever the conversion returns went through the normalisation. *)
Lemma convertBlobTo16kMonoWav_inv (P : Platform) (input : Blob)
    (result : WavConversionResult) :
  convertBlobTo16kMonoWav P input = Normal result ->
  exists resampled,
    pcm result = fixedLength resampled
    /\ durationMs result
       = Math_round ((of_nat (length (pcm result))
                      / of_Z TARGET_SAMPLE_RATE) * 1000)%float
    /\ sampleRate result = of_Z TARGET_SAMPLE_RATE.
Proof.
  unfold convertBlobTo16kMonoWav.
  destruct (getAudioContextCtor P); [| discriminate]. cbn [Js.bind].
  destruct (decodeAudioData P input) as [decoded |]; [| discriminate].
  cbn [Js.bind].
  destruct (mixToMono decoded) as [mono |]; [| discriminate].
  cbn [Js.bind].
  destruct (resampleTo16k P mono (ab_sampleRate decoded))
    as [resampled |]; [| discriminate].
  cbn [Js.bind].
  rewrite normalizeToFixedSamples_eq. cbn [Js.bind].
  fold (fixedLength resampled).
  rewrite encodeWavPcm16_eq. cbn [Js.bind].
  intros [= <-]. exists resampled. cbn [pcm durationMs sampleRate].
  repeat split.
Qed.

(** With the three calls on the context returning, the conversion is the
    one above. *)
Lemma convertBlobTo16kMonoWavIn_quiet (L : ContextCalls) (P : Platform)
    (input : Blob) :
  newAudioContext L = Normal tt ->
  arrayBuffer L input = Normal tt ->
  closeAudioContext L = Normal tt ->
  convertBlobTo16kMonoWavIn L P input = convertBlobTo16kMonoWav P input.
Proof.
  intros Hnew Hread Hclose.
  unfold convertBlobTo16kMonoWavIn, convertBlobTo16kMonoWav, tryFinally.
  now rewrite Hnew, Hread, Hclose.
Qed.

(** The exceptions of the body of the [try]. *)
Lemma convertBlobTo16kMonoWav_throws (P : Platform) (input : Blob)
    (e : Exception) :
  hasAudioContext P = true ->
  convertBlobTo16kMonoWav P input = Throw e
  <-> decodeAudioData P input = Throw e
      \/ exists decoded,
           decodeAudioData P input = Normal decoded
           /\ (mixToMono decoded = Throw e
               \/ exists mono,
                    mixToMono decoded = Normal mono
                    /\ resampleTo16k P mono (ab_sampleRate decoded)
                       = Throw e).
Proof.
  intros Hctx.
  unfold convertBlobTo16kMonoWav, getAudioContextCtor.
  rewrite Hctx. cbn [Js.bind].
  destruct (decodeAudioData P input) as [decoded | e1]; cbn [Js.bind].
  2: { split.
       - intros [= <-]. now left.
       - intros [H | (d & H & _)]; [congruence | discriminate]. }
  destruct (mixToMono decoded) as [mono | e2] eqn:Hmix; cbn [Js.bind].
  2: { split.
       - intros [= <-]. right. exists decoded. split; [reflexivity |].
         now left.
       - intros [H | (d & [= <-] & [H | (m & H & _)])];
           try discriminate; congruence. }
  destruct (resampleTo16k P mono (ab_sampleRate decoded))
    as [resampled | e3] eqn:Hres; cbn [Js.bind].
  2: { split.
       - intros [= <-]. right. exists decoded. split; [reflexivity |].
         right. exists mono. now split.
       - intros [H | (d & [= <-] & [H | (m & Hm & H)])];
           try discriminate; congruence. }
  rewrite normalizeToFixedSamples_eq. cbn [Js.bind].
  rewrite encodeWavPcm16_eq. cbn [Js.bind].
  split; [discriminate |].
  intros [H | (d & [= <-] & [H | (m & Hm & H)])];
    try discriminate; congruence.
Qed.

(** ** The stand-in platform *)

Lemma holdPlatform_contract : rendering_contract holdPlatform.
Proof.
  intros input rate len out. cbn [renderOffline holdPlatform].
  unfold holdRender. destruct (len =? 0)%nat; [discriminate |].
  intros [= <-]. now rewrite length_map, length_seq.
Qed.

(** ** The functions on small inputs *)

Example round_ties_up :
  (Math_round 2.5 = 3 /\ Math_round (-2.5) = -2
   /\ Math_round 0.49999999999999994 = 0)%float.
Proof. repeat split. Qed.

(** Two seconds at 8 kHz, 44.1 kHz and 48 kHz all come to 32000 samples. *)
Example targetLength_two_seconds :
  (targetLength 16000 8000 = 32000
   /\ targetLength 88200 44100 = 32000
   /\ targetLength 96000 48000 = 32000)%float.
Proof. repeat split. Qed.

Example targetLength_one_sample : (targetLength 1 48000 = 1)%float.
Proof. reflexivity. Qed.

(** The whole file of two samples: the header for 4 data bytes, then
    0.5 as 16383 and -1 as -32768. *)
Example encodeWavPcm16_two_samples :
  encodeWavPcm16 [0.5; -1]%float 16000
  = Normal {| blob_bytes :=
                [82; 73; 70; 70; 40; 0; 0; 0; 87; 65; 86; 69;
                 102; 109; 116; 32; 16; 0; 0; 0; 1; 0; 1; 0;
                 128; 62; 0; 0; 0; 125; 0; 0; 2; 0; 16; 0;
                 100; 97; 116; 97; 4; 0; 0; 0;
                 255; 63; 0; 128]%Z;
              blob_type := "audio/wav" |}.
Proof. vm_compute. reflexivity. Qed.

(** ** The clamp of the sample loop *)

Local Open Scope float_scope.

Lemma clampSample_nan (x : number) :
  PrimFloat.is_nan x = true -> clampSample x = x.
Proof.
  intros Hx. unfold clampSample, Math_max, Math_min.
  change (PrimFloat.is_nan 1) with false.
  change (PrimFloat.is_nan (-1)) with false.
  cbv iota. now rewrite !Hx.
Qed.

Lemma clampSample_clampUnit (x : number) : clampSample x = clampUnit x.
Proof.
  destruct (PrimFloat.is_nan x) eqn:Hx.
  - rewrite clampSample_nan by assumption. unfold clampUnit.
    destruct (x <? -1) eqn:E1;
      [apply NumOrder.ltb_not_nan in E1; destruct E1; congruence |].
    destruct (1 <? x) eqn:E2;
      [apply NumOrder.ltb_not_nan in E2; destruct E2; congruence |].
    reflexivity.
  - unfold clampSample, clampUnit, Math_max, Math_min.
    change (PrimFloat.is_nan 1) with false.
    change (PrimFloat.is_nan (-1)) with false.
    change (PrimFloat.get_sign 1) with false.
    change (PrimFloat.get_sign (-1)) with true.
    cbv iota. rewrite Hx.
    destruct (x <? -1) eqn:E1.
    + assert (E2 : (1 <? x) = false).
      { apply NumOrder.ltb_asym.
        apply NumOrder.ltb_trans with (b := -1); [assumption | reflexivity]. }
      assert (E3 : (x <? 1) = true).
      { apply NumOrder.ltb_trans with (b := -1); [assumption | reflexivity]. }
      rewrite E2, E3, Hx, E1. reflexivity.
    + destruct (1 <? x) eqn:E2.
      * reflexivity.
      * assert (Hm : (if x <? 1 then x else x) = x)
          by (destruct (x <? 1); reflexivity).
        rewrite Hm, Hx, E1. destruct (-1 <? x); reflexivity.
Qed.

Lemma clampUnit_range (x : number) :
  PrimFloat.is_nan x = false ->
  (-1 <=? clampUnit x) = true /\ (clampUnit x <=? 1) = true.
Proof.
  intros Hx. unfold clampUnit.
  destruct (x <? -1) eqn:E1; [split; reflexivity |].
  destruct (1 <? x) eqn:E2; [split; reflexivity |].
  split; apply NumOrder.leb_of_not_ltb; auto.
Qed.

End AudioUtilsFacts.

(* ================================================================== *)
(** * Properties of the speech gate *)
(* ================================================================== *)

Module GateFacts.

Local Open Scope float_scope.

Section WithConfig.

Variable cfg : GateConfig.

(** ** Normalisation and totality *)

Lemma normalizePcmLength_eq (pcm : Float32Array) :
  normalizePcmLength cfg pcm = Normal (normalized cfg pcm).
Proof.
  exact (AudioUtilsFacts.normalizeToFixedSamples_eq
           pcm (GATE_TARGET_SAMPLE_COUNT cfg)).
Qed.


Lemma normalized_nth (pcm : Float32Array) (i : nat) (x : number) :
  (i < GATE_TARGET_SAMPLE_COUNT cfg)%nat ->
  nth_error pcm i = Some x ->
  In x (normalized cfg pcm).
Proof.
  intros Hi Hx. unfold normalized. apply in_or_app. left.
  apply nth_error_In with (n := i).
  rewrite nth_error_firstn.
  destruct (Nat.ltb_spec i (GATE_TARGET_SAMPLE_COUNT cfg)); [exact Hx | lia].
Qed.

Lemma analyzePcmForSpeechGate_eq (pcm : Float32Array)
    (sampleRate : number) :
  analyzePcmForSpeechGate cfg pcm sampleRate
  = Normal (decide cfg (metricsOf cfg (normalized cfg pcm) sampleRate)).
Proof.
  unfold analyzePcmForSpeechGate.
  now rewrite normalizePcmLength_eq.
Qed.

(** ** The decision tree *)

Ltac tree :=
  unfold decide, buildResult;
  repeat match goal with
         | |- context [if ?c then _ else _] => destruct c eqn:?
         end.

Lemma decide_debugMetrics (m : DebugMetrics) :
  debugMetrics (decide cfg m) = m.
Proof. tree; reflexivity. Qed.

Lemma decide_flatline (m : DebugMetrics) :
  flatline cfg m = true ->
  decision (decide cfg m) = REJECT /\ reason (decide cfg m) = Flatline.
Proof.
  unfold flatline, decide. intros ->. split; reflexivity.
Qed.

Lemma decide_not_flatline (m : DebugMetrics) :
  flatline cfg m = false -> reason (decide cfg m) <> Flatline.
Proof.
  unfold flatline. intros H. unfold decide. rewrite H.
  unfold buildResult.
  repeat match goal with
         | |- context [if ?c then _ else _] => destruct c
         end; cbn; discriminate.
Qed.

Lemma decide_tooQuiet (m : DebugMetrics) :
  flatline cfg m = false ->
  (rms m <? TOO_QUIET_RMS_THRESHOLD cfg) = true ->
  decision (decide cfg m) = REJECT /\ reason (decide cfg m) = TooQuiet.
Proof.
  unfold flatline, decide. intros -> ->. split; reflexivity.
Qed.

(** ** The running peak *)

Lemma scanSample_absMax (acc : SampleScan) (sample : number) :
  PrimFloat.is_nan (scanAbsMax acc) = false ->
  PrimFloat.is_nan (scanAbsMax (scanSample cfg acc sample)) = false
  /\ (scanAbsMax acc <=? scanAbsMax (scanSample cfg acc sample)) = true
  /\ (PrimFloat.is_nan sample = false ->
      (Math_abs sample <=? scanAbsMax (scanSample cfg acc sample)) = true).
Proof.
  intros Hacc. unfold scanSample. cbn [scanAbsMax].
  destruct (scanAbsMax acc <? Math_abs sample) eqn:E.
  - pose proof (NumOrder.ltb_not_nan E) as [_ Hs].
    repeat split.
    + exact Hs.
    + now apply NumOrder.ltb_leb.
    + intros _. now apply NumOrder.leb_refl.
  - repeat split.
    + exact Hacc.
    + now apply NumOrder.leb_refl.
    + intros Hs. apply NumOrder.leb_of_not_ltb; auto.
      unfold Math_abs. now rewrite NumOrder.abs_is_nan.
Qed.

Lemma fold_scanSample_absMax (samples : Float32Array) :
  forall acc : SampleScan,
    PrimFloat.is_nan (scanAbsMax acc) = false ->
    let final := fold_left (scanSample cfg) samples acc in
    PrimFloat.is_nan (scanAbsMax final) = false
    /\ (scanAbsMax acc <=? scanAbsMax final) = true
    /\ (forall x, In x samples -> PrimFloat.is_nan x = false ->
                  (Math_abs x <=? scanAbsMax final) = true).
Proof.
  induction samples as [|sample samples IH]; intros acc Hacc; cbn.
  - repeat split; [exact Hacc | now apply NumOrder.leb_refl |].
    intros x [].
  - destruct (scanSample_absMax acc sample Hacc) as (Hn & Hle & Hs).
    destruct (IH _ Hn) as (Hn' & Hle' & Hin).
    repeat split.
    + exact Hn'.
    + exact (NumOrder.leb_trans Hle Hle').
    + intros x [<- | Hx] Hx'.
      * exact (NumOrder.leb_trans (Hs Hx') Hle').
      * now apply Hin.
Qed.

(** The reported peak is at least the magnitude of every sample. *)
Lemma scanSamples_peak (samples : Float32Array) (x : number) :
  In x samples -> PrimFloat.is_nan x = false ->
  (Math_abs x <=? scanAbsMax (scanSamples cfg samples)) = true.
Proof.
  intros Hin Hx.
  destruct (fold_scanSample_absMax samples
              {| sumSquares := 0; scanAbsMax := 0; clippedCount := 0 |}
              eq_refl) as (_ & _ & H).
  now apply H.
Qed.

(** ** Silence *)

Lemma fold_scanSample_zeros (n : nat) :
  forall acc : SampleScan,
    sumSquares acc = 0 -> scanAbsMax acc = 0 ->
    let final := fold_left (scanSample cfg) (repeat 0 n) acc in
    sumSquares final = 0 /\ scanAbsMax final = 0.
Proof.
  induction n as [|n IH]; intros acc Hs Ha; cbn [repeat fold_left].
  - now split.
  - apply IH.
    + unfold scanSample. cbn [sumSquares]. now rewrite Hs.
    + unfold scanSample. cbn [scanAbsMax]. now rewrite Ha.
Qed.

Lemma scanSamples_zeros (n : nat) :
  sumSquares (scanSamples cfg (repeat 0 n)) = 0
  /\ scanAbsMax (scanSamples cfg (repeat 0 n)) = 0.
Proof. now apply fold_scanSample_zeros. Qed.

(** ** The sample rate in use *)


End WithConfig.

(** ** The gate on the short window *)

Definition verdict (r : Completion GateResult)
  : option (GateDecision * GateReason) :=
  match r with
  | Normal g => Some (decision g, reason g)
  | Throw _ => None
  end.

Example gate_pass :
  verdict (analyzePcmForSpeechGate shortConfig (centredBurst 0.25) 32)
  = Some (PASS, Ok).
Proof. vm_compute. reflexivity. Qed.

Example gate_clipping :
  verdict (analyzePcmForSpeechGate shortConfig (centredBurst 1) 32)
  = Some (AMBIG, ClippingSuspected).
Proof. vm_compute. reflexivity. Qed.

Example gate_borderline :
  verdict (analyzePcmForSpeechGate shortConfig (centredBurst 0.0234375) 32)
  = Some (AMBIG, BorderlineQuiet).
Proof. vm_compute. reflexivity. Qed.

Example gate_late_speech :
  verdict (analyzePcmForSpeechGate shortConfig
             (repeat 0 48 ++ repeat 0.25 16) 32)
  = Some (AMBIG, SpeechOffCenter).
Proof. vm_compute. reflexivity. Qed.

Example gate_silence :
  verdict (analyzePcmForSpeechGate shortConfig [] 32)
  = Some (REJECT, Flatline).
Proof. vm_compute. reflexivity. Qed.

End GateFacts.

(* ================================================================== *)
(** * Properties of the capture session *)
(* ================================================================== *)

Module RecorderFacts.

Local Open Scope Z_scope.

Section Hook.

Variable browser : Browser.
Variable platform : AudioUtils.Platform.
Variable gateConfig : GateConfig.
Variable options : option Z.

Ltac split_cases :=
  repeat match goal with
         | |- context [match ?x with _ => _ end] => destruct x eqn:?
         end.

Ltac session_ops :=
  unfold startRecording, startRecordingWith, startRecordingFailed,
    requestMicAccess, requestMicAccessSettled, micSettled, retry, cleanup,
    timerTick, autoStopTimeout, ondataavailable, onstop, onerror,
    conversionSettled, conversionFailed, withRecorder, startTimers,
    installStream, stopRecorderSafely, stopAndReleaseStream,
    clearAudioUrl, clearAutoStop, clearTimer.

(** ** The two updates of the timers *)

Lemma timerTick_elapsedMs (dateNow startedAt : Z) (s : Session) :
  startedAtRef (refs s) = Some startedAt ->
  startedAt <> 0 ->
  elapsedMs (state (timerTick options dateNow s))
  = Z.min (dateNow - startedAt) (maxDurationMs options).
Proof.
  intros Hs Hnz. unfold timerTick. rewrite Hs.
  destruct (Z.eqb_spec startedAt 0); [contradiction | reflexivity].
Qed.

Lemma timerTick_clamped (dateNow : Z) (s : Session) :
  elapsedClamped options s ->
  elapsedClamped options (timerTick options dateNow s).
Proof.
  unfold elapsedClamped, timerTick. intros H.
  split_cases; cbn; try assumption. apply Z.le_min_r.
Qed.

Lemma autoStopTimeout_elapsedMs (s : Session) :
  elapsedMs (state (autoStopTimeout options s)) = maxDurationMs options.
Proof.
  unfold autoStopTimeout, stopRecorderSafely.
  split_cases; reflexivity.
Qed.

(** ** What leaves the elapsed time alone *)

Ltac unchanged :=
  session_ops; split_cases; reflexivity.

Lemma requestMicAccess_elapsedMs (caller : MicCaller) (s : Session) :
  elapsedMs (state (requestMicAccess browser caller s))
  = elapsedMs (state s).
Proof. unchanged. Qed.

Lemma requestMicAccessSettled_elapsedMs (outcome : MicOutcome)
    (s : Session) :
  elapsedMs (state (snd (requestMicAccessSettled outcome s)))
  = elapsedMs (state s).
Proof. unchanged. Qed.

Lemma retry_elapsedMs (s : Session) :
  elapsedMs (state (retry browser s)) = elapsedMs (state s).
Proof.
  unfold retry. split_cases; [reflexivity |].
  now rewrite requestMicAccess_elapsedMs.
Qed.

Lemma cleanup_elapsedMs (s : Session) :
  elapsedMs (state (cleanup s)) = elapsedMs (state s).
Proof. unchanged. Qed.

Lemma ondataavailable_elapsedMs (data : Blob) (s : Session) :
  elapsedMs (state (ondataavailable data s)) = elapsedMs (state s).
Proof. unchanged. Qed.

Lemma onstop_elapsedMs (recorder : MediaRecorder) (s : Session) :
  elapsedMs (state (onstop browser recorder s)) = elapsedMs (state s).
Proof. unchanged. Qed.

Lemma onerror_elapsedMs (name : option string) (s : Session) :
  elapsedMs (state (onerror name s)) = elapsedMs (state s).
Proof. unchanged. Qed.

Lemma conversionSettled_elapsedMs (s : Session) :
  elapsedMs (state (conversionSettled platform gateConfig s))
  = elapsedMs (state s).
Proof. unchanged. Qed.

(** ** The invariant *)

Lemma startRecordingWith_clamped (activeStream : MediaStream)
    (env : RecorderEnv) (s : Session) :
  0 <= maxDurationMs options ->
  elapsedClamped options s ->
  elapsedClamped options (startRecordingWith browser activeStream env s).
Proof.
  unfold elapsedClamped. intros Hmax Hs.
  session_ops; split_cases; cbn; assumption.
Qed.

Lemma startRecording_clamped (renderedStatus : RecorderStatus)
    (env : RecorderEnv) (s : Session) :
  0 <= maxDurationMs options ->
  elapsedClamped options s ->
  elapsedClamped options (startRecording browser renderedStatus env s).
Proof.
  intros Hmax Hs. unfold startRecording.
  split_cases; try assumption;
    try (now apply startRecordingWith_clamped);
    unfold elapsedClamped; now rewrite requestMicAccess_elapsedMs.
Qed.

Lemma micSettled_clamped (outcome : MicOutcome) (env : RecorderEnv)
    (s : Session) :
  0 <= maxDurationMs options ->
  elapsedClamped options s ->
  elapsedClamped options (micSettled browser outcome env s).
Proof.
  intros Hmax Hs. unfold micSettled.
  destruct (pendingMic (world s)) as [|caller others]; [exact Hs |].
  pose proof (requestMicAccessSettled_elapsedMs outcome
                (setPendingMic others s)) as Hsame.
  destruct (requestMicAccessSettled outcome (setPendingMic others s))
    as [activeStream s'].
  cbn [snd] in Hsame.
  assert (Hs' : elapsedClamped options s')
    by (unfold elapsedClamped; rewrite Hsame; exact Hs).
  destruct caller, activeStream; try exact Hs'.
  now apply startRecordingWith_clamped.
Qed.

Lemma step_clamped (s : Session) (e : Event) :
  0 <= maxDurationMs options ->
  elapsedClamped options s ->
  elapsedClamped options (step browser platform gateConfig options s e).
Proof.
  intros Hmax Hs. destruct e; cbn [step].
  - now apply startRecording_clamped.
  - unfold elapsedClamped. now rewrite requestMicAccess_elapsedMs.
  - unfold elapsedClamped. now rewrite retry_elapsedMs.
  - now apply micSettled_clamped.
  - destruct (timerRef (refs s)); [| exact Hs].
    now apply timerTick_clamped.
  - destruct (autoStopRef (refs s)); [| exact Hs].
    unfold elapsedClamped. rewrite autoStopTimeout_elapsedMs.
    apply Z.le_refl.
  - unfold withRecorder. split_cases; try exact Hs.
    unfold elapsedClamped. now rewrite ondataavailable_elapsedMs.
  - unfold withRecorder. split_cases; try exact Hs.
    unfold elapsedClamped. now rewrite onstop_elapsedMs.
  - unfold elapsedClamped. now rewrite conversionSettled_elapsedMs.
  - unfold withRecorder. split_cases; try exact Hs.
    unfold elapsedClamped. now rewrite onerror_elapsedMs.
  - unfold elapsedClamped. now rewrite cleanup_elapsedMs.
Qed.

Lemma run_clamped (events : list Event) :
  forall s : Session,
    0 <= maxDurationMs options ->
    elapsedClamped options s ->
    elapsedClamped options (run browser platform gateConfig options events s).
Proof.
  induction events as [|e events IH]; intros s Hmax Hs; cbn.
  - exact Hs.
  - apply IH; [exact Hmax |]. now apply step_clamped.
Qed.

Lemma initialSession_clamped :
  0 <= maxDurationMs options -> elapsedClamped options initialSession.
Proof. intros H. exact H. Qed.

End Hook.

End RecorderFacts.

(* ================================================================== *)
(** * Numbers that compare equal *)
(* ================================================================== *)

Module NumFacts.

Local Open Scope float_scope.

(** There is one NaN. *)
Lemma nan_unique (x : float) : PrimFloat.is_nan x = true -> x = nan.
Proof.
  intros Hx.
  destruct (Prim2SF x) eqn:E.
  4: { assert (PrimFloat.is_nan x = false)
         by (apply NumOrder.is_nan_spec; rewrite E; discriminate).
       congruence. }
  3: { rewrite <- (SF2Prim_Prim2SF x), E. reflexivity. }
  all: assert (PrimFloat.is_nan x = false)
         by (apply NumOrder.is_nan_spec; rewrite E; discriminate);
       congruence.
Qed.

Lemma SF_finite_eq (a b : spec_float) (s : bool) (m : positive) (e : Z) :
  a = S754_finite s m e ->
  SFleb a b = true -> SFltb a b = false -> b = a.
Proof.
  intros ->. unfold SFleb, SFltb, SFcompare.
  destruct b as [sb | sb | | sb mb eb]; destruct s; try destruct sb;
    try discriminate.
  - destruct (Z.compare_spec e eb); try discriminate.
    change (Pos.compare_cont Eq m mb) with (Pos.compare m mb).
    destruct (Pos.compare_spec m mb); cbn; try discriminate.
    intros _ _. now subst.
  - destruct (Z.compare_spec e eb); try discriminate.
    change (Pos.compare_cont Eq m mb) with (Pos.compare m mb).
    destruct (Pos.compare_spec m mb); cbn; try discriminate.
    intros _ _. now subst.
Qed.

(** A number that is neither below nor above a finite number that is not
    zero is that number. *)
Lemma eq_of_leb_not_ltb (a b : float) (s : bool) (m : positive) (e : Z) :
  Prim2SF a = S754_finite s m e ->
  (a <=? b) = true -> (a <? b) = false -> b = a.
Proof.
  rewrite FloatAxioms.leb_spec, FloatAxioms.ltb_spec. intros Ha Hle Hlt.
  rewrite <- (SF2Prim_Prim2SF b), <- (SF2Prim_Prim2SF a). f_equal.
  exact (@SF_finite_eq _ _ s m e Ha Hle Hlt).
Qed.

Lemma leb_ltb_trans (a b c : float) :
  (a <=? b) = true -> (b <? c) = true -> (a <? c) = true.
Proof.
  rewrite FloatAxioms.leb_spec, !FloatAxioms.ltb_spec.
  generalize (Prim2SF a) (Prim2SF b) (Prim2SF c). intros x y z.
  NumOrder.sf_cases.
Qed.

Lemma ltb_leb_trans (a b c : float) :
  (a <? b) = true -> (b <=? c) = true -> (a <? c) = true.
Proof.
  rewrite FloatAxioms.leb_spec, !FloatAxioms.ltb_spec.
  generalize (Prim2SF a) (Prim2SF b) (Prim2SF c). intros x y z.
  NumOrder.sf_cases.
Qed.

(** ** Sums and quotients *)

Lemma zero_div_not_positive (y : float) : (0 <? 0 / y) = false.
Proof.
  rewrite FloatAxioms.ltb_spec, FloatAxioms.div_spec.
  change (Prim2SF 0) with (S754_zero false).
  destruct (Prim2SF y) as [s | s | | s m e]; try destruct s; reflexivity.
Qed.

Lemma SF64add_comm (x y : spec_float) : SF64add x y = SF64add y x.
Proof.
  unfold SF64add, SFadd.
  destruct x as [sx | sx | | sx mx ex], y as [sy | sy | | sy my ey];
    try reflexivity; try (destruct sx, sy; reflexivity).
  rewrite (Z.min_comm ey ex), Z.add_comm. reflexivity.
Qed.

Lemma add_comm (x y : float) : x + y = y + x.
Proof.
  rewrite <- (SF2Prim_Prim2SF (x + y)), <- (SF2Prim_Prim2SF (y + x)).
  now rewrite !FloatAxioms.add_spec, SF64add_comm.
Qed.

(** Two numbers added to zero, in either order. *)
Lemma zero_add_swap (a b : float) : 0 + a + b = 0 + b + a.
Proof.
  rewrite <- (SF2Prim_Prim2SF (0 + a + b)), <- (SF2Prim_Prim2SF (0 + b + a)).
  rewrite !FloatAxioms.add_spec.
  change (Prim2SF 0) with (S754_zero false).
  destruct (Prim2SF a) as [[] | [] | | sa ma ea],
           (Prim2SF b) as [[] | [] | | sb mb eb];
    try reflexivity.
  change (SF64add (S754_zero false) (S754_finite sa ma ea))
    with (S754_finite sa ma ea).
  change (SF64add (S754_zero false) (S754_finite sb mb eb))
    with (S754_finite sb mb eb).
  now rewrite SF64add_comm.
Qed.

Lemma is_nan_true (x : float) :
  Prim2SF x = S754_nan -> PrimFloat.is_nan x = true.
Proof.
  intros E. destruct (PrimFloat.is_nan x) eqn:H; [reflexivity |].
  apply NumOrder.is_nan_spec in H. contradiction.
Qed.

Lemma add_is_nan (x y : float) :
  PrimFloat.is_nan x = true \/ PrimFloat.is_nan y = true ->
  PrimFloat.is_nan (x + y) = true.
Proof.
  intros [H | H]; apply nan_unique in H; subst;
    apply is_nan_true; rewrite FloatAxioms.add_spec;
    change (Prim2SF nan) with S754_nan.
  - reflexivity.
  - destruct (Prim2SF x) as [s | s | | s m e]; reflexivity.
Qed.

Lemma div_is_nan (x y : float) :
  PrimFloat.is_nan x = true -> PrimFloat.is_nan (x / y) = true.
Proof.
  intros H. apply nan_unique in H. subst.
  apply is_nan_true. rewrite FloatAxioms.div_spec. reflexivity.
Qed.

Lemma fround_nan (x : float) :
  PrimFloat.is_nan x = true -> PrimFloat.is_nan (fround x) = true.
Proof.
  intros H. apply nan_unique in H. subst. reflexivity.
Qed.

End NumFacts.

(* ================================================================== *)
(** * More on the waveform normaliser *)
(* ================================================================== *)

Module AudioUtilsMore.

Local Open Scope float_scope.

(** ** The clamp at and beyond the ends *)

Lemma clampUnit_above (x : number) : (1 <=? x) = true -> clampUnit x = 1.
Proof.
  intros Hx. unfold clampUnit.
  destruct (x <? -1) eqn:E1.
  - assert (H : (x <? 1) = true)
      by (apply NumOrder.ltb_trans with (b := -1); [exact E1 | reflexivity]).
    apply NumOrder.leb_not_ltb in Hx. congruence.
  - destruct (1 <? x) eqn:E2; [reflexivity |].
    apply (@NumFacts.eq_of_leb_not_ltb 1 x false 4503599627370496 (-52));
      [reflexivity | exact Hx | exact E2].
Qed.

Lemma clampUnit_below (x : number) : (x <=? -1) = true -> clampUnit x = -1.
Proof.
  intros Hx. unfold clampUnit.
  destruct (x <? -1) eqn:E1; [reflexivity |].
  assert (E2 : (1 <? x) = false).
  { apply NumOrder.leb_not_ltb.
    apply NumOrder.leb_trans with (b := -1); [exact Hx | reflexivity]. }
  rewrite E2.
  assert (Hge : (-1 <=? x) = true).
  { apply NumOrder.leb_of_not_ltb; [| reflexivity | exact E1].
    now apply NumOrder.leb_not_nan in Hx. }
  apply (@NumFacts.eq_of_leb_not_ltb (-1) x true 4503599627370496 (-52));
    [reflexivity | exact Hge |].
  now apply NumOrder.leb_not_ltb.
Qed.

Lemma clampUnit_idempotent (x : number) :
  clampUnit (clampUnit x) = clampUnit x.
Proof.
  unfold clampUnit at 2 3.
  destruct (x <? -1) eqn:E1; [reflexivity |].
  destruct (1 <? x) eqn:E2; [reflexivity |].
  unfold clampUnit. now rewrite E1, E2.
Qed.

Lemma sampleBytes_clampUnit (x : number) :
  sampleBytes (clampUnit x) = sampleBytes x.
Proof.
  unfold sampleBytes.
  now rewrite !AudioUtilsFacts.clampSample_clampUnit, clampUnit_idempotent.
Qed.

(** ** The integer written for a sample *)

Lemma encoded_sample (samples : Float32Array) (sampleRate : Z) (i : nat)
    (x : number) :
  nth_error samples i = Some x ->
  exists wav,
    encodeWavPcm16 samples sampleRate = Normal wav
    /\ getInt16 (blob_bytes wav) (44 + 2 * i)
       = ToInt16 (scaleSample (clampUnit x)).
Proof.
  intros Hx.
  eexists. split; [apply AudioUtilsFacts.encodeWavPcm16_eq |].
  cbn [blob_bytes].
  destruct (AudioUtilsFacts.sample_field samples sampleRate i Hx)
    as (pre & post & -> & Hpre).
  rewrite <- Hpre. unfold sampleBytes, getInt16.
  rewrite AudioUtilsFacts.le16_roundtrip.
  now rewrite AudioUtilsFacts.clampSample_clampUnit.
Qed.

(** ** mixToMono *)

Lemma mixToMono_many (buffer : AudioBuffer) :
  (2 <= numberOfChannels buffer)%nat ->
  mixToMono buffer
  = Normal (map (fun frame =>
                   fround (frameSum (ab_channels buffer) frame
                           / of_nat (numberOfChannels buffer)))
                (seq 0 (ab_length buffer))).
Proof.
  intros H. unfold mixToMono.
  destruct (Nat.leb_spec (numberOfChannels buffer) 1); [lia | reflexivity].
Qed.

(** A NaN in one channel makes the sum of the frame NaN, wherever the
    channel stands. *)
Lemma frameSum_nan (frame : nat) (channels : list Float32Array) :
  forall acc,
    PrimFloat.is_nan acc = true
    \/ (exists channel,
           In channel channels
           /\ PrimFloat.is_nan (get channel frame) = true) ->
    PrimFloat.is_nan
      (fold_left (fun sum channel => sum + get channel frame) channels acc)
    = true.
Proof.
  induction channels as [|c channels IH]; intros acc H; cbn [fold_left].
  - destruct H as [H | (channel & [] & _)]. exact H.
  - apply IH. destruct H as [H | (channel & [<- | Hin] & Hnan)].
    + left. apply NumFacts.add_is_nan. now left.
    + left. apply NumFacts.add_is_nan. now right.
    + right. now exists channel.
Qed.

End AudioUtilsMore.

(* ================================================================== *)
(** * More on the speech gate *)
(* ================================================================== *)

Module GateMore.

Local Open Scope float_scope.

Section WithConfig.

Variable cfg : GateConfig.

(** ** The tree, branch by branch *)

Ltac branches :=
  unfold decide, buildResult, passes, rejects, flatline;
  repeat match goal with
         | |- context [if ?c then _ else _] => destruct c eqn:?
         end;
  cbn.

Lemma decide_pass (m : DebugMetrics) :
  decision (decide cfg m) = PASS <-> passes cfg m = true.
Proof. branches; split; congruence. Qed.

Lemma decide_reject (m : DebugMetrics) :
  decision (decide cfg m) = REJECT <-> rejects cfg m = true.
Proof. branches; split; congruence. Qed.

Lemma decide_consistent (m : DebugMetrics) :
  let r := decide cfg m in
  (decision r = PASS <-> reason r = Ok)
  /\ (decision r = REJECT
      <-> reason r = Flatline \/ reason r = TooQuiet \/ reason r = NoSpeech)
  /\ (decision r = AMBIG
      <-> reason r = BorderlineQuiet \/ reason r = ClippingSuspected
          \/ reason r = SpeechOffCenter).
Proof.
  branches;
    (split; [| split]); split; intros H; try discriminate; auto;
    repeat match goal with
           | H : _ \/ _ |- _ => destruct H
           end; discriminate.
Qed.

(** ** The window *)

Lemma normalized_firstn (pcm : Float32Array) :
  normalized cfg (firstn (GATE_TARGET_SAMPLE_COUNT cfg) pcm)
  = normalized cfg pcm.
Proof.
  unfold normalized.
  rewrite firstn_firstn, Nat.min_id, length_firstn.
  do 2 f_equal. lia.
Qed.

Lemma normalized_padded (pcm : Float32Array) (k : nat) :
  (length pcm + k <= GATE_TARGET_SAMPLE_COUNT cfg)%nat ->
  normalized cfg (pcm ++ repeat 0 k) = normalized cfg pcm.
Proof.
  intros Hk. unfold normalized.
  rewrite firstn_all2 by (rewrite length_app, repeat_length; lia).
  rewrite (firstn_all2 pcm) by lia.
  rewrite length_app, repeat_length, <- app_assoc, <- repeat_app.
  do 2 f_equal. lia.
Qed.

(** ** The sample rate *)

Lemma actualSampleRateOf_fallback (sampleRate : number) :
  (0 <? sampleRate) = false ->
  actualSampleRateOf cfg sampleRate
  = actualSampleRateOf cfg (GATE_TARGET_SAMPLE_RATE cfg).
Proof.
  intros H. unfold actualSampleRateOf. rewrite H.
  destruct (0 <? GATE_TARGET_SAMPLE_RATE cfg); reflexivity.
Qed.

Lemma metricsOf_fallback (normalizedPcm : Float32Array)
    (sampleRate : number) :
  (0 <? sampleRate) = false ->
  metricsOf cfg normalizedPcm sampleRate
  = metricsOf cfg normalizedPcm (GATE_TARGET_SAMPLE_RATE cfg).
Proof.
  intros H.
  unfold metricsOf, firstSpeechMsOf, lastSpeechMsOf, frameMsOf.
  now rewrite (@actualSampleRateOf_fallback sampleRate H).
Qed.

(** ** The loop over the frames *)

Lemma scanFrame_seen (normalizedPcm : Float32Array) (k : nat)
    (acc : FrameScan) :
  framesSeen k acc -> framesSeen (S k) (scanFrame cfg normalizedPcm acc k).
Proof.
  unfold framesSeen, scanFrame. intros H.
  destruct (SPEECH_FRAME_RMS_THRESHOLD cfg <=? _).
  - right. cbn [speechFrameCount firstSpeechFrame lastSpeechFrame].
    destruct H as [(Hc & Hf & Hl) | (Hfl & Hl & Hc)].
    + rewrite Hf, Hc. cbn. lia.
    + destruct (Z.eqb_spec (firstSpeechFrame acc) (-1)); lia.
  - destruct H as [H | (Hfl & Hl & Hc)]; [now left | right]. lia.
Qed.

Lemma fold_scanFrame_seen (normalizedPcm : Float32Array) (n : nat) :
  forall (k : nat) (acc : FrameScan),
    framesSeen k acc ->
    framesSeen (k + n)
      (fold_left (scanFrame cfg normalizedPcm) (seq k n) acc).
Proof.
  induction n as [|n IH]; intros k acc H; cbn [seq fold_left].
  - now rewrite Nat.add_0_r.
  - replace (k + S n)%nat with (S k + n)%nat by lia.
    apply IH. now apply scanFrame_seen.
Qed.

Lemma scanFrames_seen (normalizedPcm : Float32Array) :
  framesSeen (trip_count (frameCountOf cfg normalizedPcm))
             (scanFrames cfg normalizedPcm).
Proof.
  unfold scanFrames.
  apply (@fold_scanFrame_seen normalizedPcm _ 0%nat).
  left. repeat split.
Qed.

(** ** The loop over the samples *)

Lemma scanSample_attained (acc : SampleScan) (sample : number)
    (seen : Float32Array) :
  (scanAbsMax acc = 0 \/ exists x, In x seen /\ scanAbsMax acc = Math_abs x) ->
  scanAbsMax (scanSample cfg acc sample) = 0
  \/ exists x, In x (seen ++ [sample])
               /\ scanAbsMax (scanSample cfg acc sample) = Math_abs x.
Proof.
  intros H. unfold scanSample. cbn [scanAbsMax].
  destruct (scanAbsMax acc <? Math_abs sample).
  - right. exists sample. split; [| reflexivity].
    apply in_or_app. right. now left.
  - destruct H as [H | (x & Hin & Hx)]; [now left | right].
    exists x. split; [| exact Hx]. apply in_or_app. now left.
Qed.

Lemma fold_scanSample_attained (samples : Float32Array) :
  forall (acc : SampleScan) (seen : Float32Array),
    (scanAbsMax acc = 0
     \/ exists x, In x seen /\ scanAbsMax acc = Math_abs x) ->
    let final := fold_left (scanSample cfg) samples acc in
    scanAbsMax final = 0
    \/ exists x, In x (seen ++ samples) /\ scanAbsMax final = Math_abs x.
Proof.
  induction samples as [|sample samples IH]; intros acc seen H; cbn.
  - now rewrite app_nil_r.
  - replace (seen ++ sample :: samples)
      with ((seen ++ [sample]) ++ samples) by now rewrite <- app_assoc.
    apply IH. now apply scanSample_attained.
Qed.

Lemma fold_scanSample_clipped (samples : Float32Array) :
  forall acc : SampleScan,
    (clippedCount (fold_left (scanSample cfg) samples acc)
     <= clippedCount acc + length samples)%nat.
Proof.
  induction samples as [|sample samples IH]; intros acc; cbn.
  - lia.
  - specialize (IH (scanSample cfg acc sample)).
    assert (clippedCount (scanSample cfg acc sample)
            <= clippedCount acc + 1)%nat.
    { unfold scanSample. cbn [clippedCount].
      destruct (CLIP_LEVEL cfg <? Math_abs sample); lia. }
    lia.
Qed.

End WithConfig.

End GateMore.

(* ================================================================== *)
(** * The properties of the specification *)
(* ================================================================== *)

Local Open Scope float_scope.

(** ** Waveform normaliser *)

(** C1.  Whenever decoding, mixing and rendering succeed, the conversion
    returns, and the PCM it returns has exactly
    [16000 * 2000 / 1000 = 32000] samples whatever the length of the
    decoded and resampled signal: the first 32000 samples of a longer one,
    and a shorter one followed by zeros. *)
Theorem normalized_pcm_has_target_length
    (P : Platform) (input : Blob) (decoded : AudioBuffer)
    (mono resampled : Float32Array) :
  hasAudioContext P = true ->
  decodeAudioData P input = Normal decoded ->
  mixToMono decoded = Normal mono ->
  resampleTo16k P mono (ab_sampleRate decoded) = Normal resampled ->
  exists result,
    convertBlobTo16kMonoWav P input = Normal result
    /\ TARGET_SAMPLE_COUNT = (16000 * 2000 / 1000)%Z
    /\ TARGET_SAMPLE_COUNT = 32000%Z
    /\ Z.of_nat (length (pcm result)) = TARGET_SAMPLE_COUNT
    /\ ((Z.to_nat TARGET_SAMPLE_COUNT <= length resampled)%nat ->
        pcm result = firstn (Z.to_nat TARGET_SAMPLE_COUNT) resampled)
    /\ ((length resampled <= Z.to_nat TARGET_SAMPLE_COUNT)%nat ->
        pcm result
        = resampled
          ++ repeat 0 (Z.to_nat TARGET_SAMPLE_COUNT - length resampled)%nat).
Proof.
  intros Hctx Hdec Hmix Hres.
  destruct (AudioUtilsFacts.convertBlobTo16kMonoWav_returns
              P input Hctx Hdec Hmix Hres) as [wav Hconv].
  eexists. split; [exact Hconv |].
  cbn [pcm].
  split; [reflexivity |]. split; [reflexivity |].
  split.
  { rewrite AudioUtilsFacts.fixedLength_length. now rewrite Z2Nat.id. }
  unfold fixedLength.
  split; intros Hlen.
  - replace (Z.to_nat TARGET_SAMPLE_COUNT - length resampled)%nat
      with 0%nat by lia.
    apply app_nil_r.
  - now rewrite firstn_all2 by exact Hlen.
Qed.

Lemma normalized_pcm_has_target_length_witness :
  exists result,
    convertBlobTo16kMonoWav holdPlatform demoBlob = Normal result
    /\ Z.of_nat (length (pcm result)) = 32000%Z.
Proof.
  destruct (@normalized_pcm_has_target_length
              holdPlatform demoBlob demoDecoded demoMono demoResampled)
    as (result & Hconv & _ & _ & Hlen & _).
  - reflexivity.
  - reflexivity.
  - reflexivity.
  - vm_compute. reflexivity.
  - exists result. split; [exact Hconv | exact Hlen].
Defined.

(** C3.  For every sample array of the fixed length, the blob of the
    encoder is a 44-byte header followed by [sampleCount * 2] data bytes,
    and the header read back has format tag 1, one channel, sample rate
    16000, 16 bits per sample, byte rate [rate * channels * 2], block
    alignment [channels * 2] and data size [sampleCount * 2]. *)
Theorem wav_header_roundtrip (samples : Float32Array) :
  length samples = Z.to_nat TARGET_SAMPLE_COUNT ->
  exists wav header,
    encodeWavPcm16 samples TARGET_SAMPLE_RATE = Normal wav
    /\ blob_size wav = (44 + length samples * 2)%nat
    /\ length (firstn 44 (blob_bytes wav)) = 44%nat
    /\ skipn 44 (blob_bytes wav) = flat_map sampleBytes samples
    /\ length (skipn 44 (blob_bytes wav)) = (length samples * 2)%nat
    /\ parseWavHeader (blob_bytes wav) = Some header
    /\ riffTag header = charCodes "RIFF"
    /\ waveTag header = charCodes "WAVE"
    /\ fmtTag header = charCodes "fmt "
    /\ dataTag header = charCodes "data"
    /\ formatTag header = 1%Z
    /\ channels header = 1%Z
    /\ headerSampleRate header = 16000%Z
    /\ bitsPerSample header = 16%Z
    /\ headerByteRate header = (16000 * 1 * 2)%Z
    /\ headerBlockAlign header = (1 * 2)%Z
    /\ headerDataSize header = (Z.of_nat (length samples) * 2)%Z
    /\ riffSize header = (36 + Z.of_nat (length samples) * 2)%Z.
Proof.
  intros Hlen.
  assert (Hn : Z.of_nat (length samples) = 32000%Z)
    by (rewrite Hlen; reflexivity).
  destruct (@AudioUtilsFacts.encodeWavPcm16_header samples TARGET_SAMPLE_RATE)
    as (wav & Henc & _ & Hsize & Hhdr & Hdata & Hparse).
  - unfold TARGET_SAMPLE_RATE. lia.
  - unfold TARGET_SAMPLE_RATE. lia.
  - rewrite Hn. lia.
  - exists wav, (expectedHeader TARGET_SAMPLE_RATE (length samples)).
    split; [exact Henc |]. split; [exact Hsize |].
    split; [rewrite Hhdr; apply AudioUtilsFacts.headerBytes_length |].
    split; [exact Hdata |].
    split.
    { rewrite Hdata, AudioUtilsFacts.flat_map_sampleBytes_length. lia. }
    split; [exact Hparse |].
    repeat split.
Qed.

Lemma wav_header_roundtrip_witness :
  exists wav header,
    encodeWavPcm16 (repeat 0.25 (Z.to_nat 32000)) 16000 = Normal wav
    /\ parseWavHeader (blob_bytes wav) = Some header
    /\ headerDataSize header = 64000%Z.
Proof.
  destruct (@wav_header_roundtrip (repeat 0.25 (Z.to_nat 32000)))
    as (wav & header & Henc & _ & _ & _ & _ & Hparse & H).
  - apply repeat_length.
  - exists wav, header. split; [exact Henc |]. split; [exact Hparse |].
    destruct H as (_ & _ & _ & _ & _ & _ & _ & _ & _ & _ & Hds & _).
    rewrite Hds, repeat_length. reflexivity.
Defined.

(** C5, as stated, fails on one sample at 48 kHz: a third of a sample rounds
    to 0, and the resampler renders one sample all the same. *)
Lemma resample_length_counterexample :
  rendering_contract holdPlatform
  /\ (48000 =? of_Z TARGET_SAMPLE_RATE) = false
  /\ resampleTo16k holdPlatform [0.25] 48000 = Normal [0.25]
  /\ roundedLength (length [0.25]) 48000 = 0%nat
  /\ length [0.25] <> roundedLength (length [0.25]) 48000.
Proof.
  split; [exact AudioUtilsFacts.holdPlatform_contract |].
  split; [reflexivity |].
  split; [reflexivity |].
  split; [reflexivity |].
  vm_compute. discriminate.
Qed.

(** C5, amended.  On a platform whose offline rendering has the length it
    was asked for: at a native rate other than 16000 the resampler renders
    exactly [max(1, round(n * 16000 / r))] samples, and at 16000 it returns
    its input. *)
Theorem resample_length (P : Platform) (input : Float32Array)
    (sampleRate : number) :
  rendering_contract P ->
  ((sampleRate =? 16000) = true ->
   resampleTo16k P input sampleRate = Normal input)
  /\ ((sampleRate =? 16000) = false ->
      forall out,
        resampleTo16k P input sampleRate = Normal out ->
        length out
        = contextLength
            (Math_max 1
               (Math_round ((of_nat (length input) * 16000) / sampleRate)))).
Proof.
  intros Hcontract. unfold resampleTo16k.
  change (of_Z TARGET_SAMPLE_RATE) with 16000.
  split; intros Hrate; rewrite Hrate.
  - reflexivity.
  - intros out Hout. apply Hcontract in Hout. exact Hout.
Qed.

Lemma resample_length_witness :
  resampleTo16k holdPlatform demoMono 16000 = Normal demoMono
  /\ (forall out,
        resampleTo16k holdPlatform demoMono 8000 = Normal out ->
        length out = 10%nat)
  /\ (forall out,
        resampleTo16k holdPlatform [0.25] 48000 = Normal out ->
        length out = 1%nat).
Proof.
  split; [| split].
  - exact (proj1 (@resample_length holdPlatform demoMono 16000
                    AudioUtilsFacts.holdPlatform_contract) eq_refl).
  - intros out Hout.
    exact (proj2 (@resample_length holdPlatform demoMono 8000
                    AudioUtilsFacts.holdPlatform_contract) eq_refl out Hout).
  - intros out Hout.
    exact (proj2 (@resample_length holdPlatform [0.25] 48000
                    AudioUtilsFacts.holdPlatform_contract) eq_refl out Hout).
Defined.

(** C6.  The two bytes that the encoder writes for the sample at index [i]
    are the little-endian signed 16-bit integer of the sample clamped to
    [-1, 1] and scaled by 32768 when negative and by 32767 otherwise. *)
Theorem sample_quantisation (samples : Float32Array) (sampleRate : Z)
    (i : nat) (x : number) :
  nth_error samples i = Some x ->
  exists wav,
    encodeWavPcm16 samples sampleRate = Normal wav
    /\ (let clamped := clampUnit x in
        let scaled :=
          if clamped <? 0 then clamped * 32768 else clamped * 32767 in
        (PrimFloat.is_nan x = false ->
         (-1 <=? clamped) = true /\ (clamped <=? 1) = true)
        /\ getInt16 (blob_bytes wav) (44 + 2 * i) = ToInt16 scaled
        /\ getUint8 (blob_bytes wav) (44 + 2 * i)
           = (ToUint16 scaled mod 256)%Z
        /\ getUint8 (blob_bytes wav) (44 + 2 * i + 1)
           = (ToUint16 scaled / 256)%Z
        /\ (- 32768 <= ToInt16 scaled <= 32767)%Z).
Proof.
  intros Hx.
  eexists. split; [apply AudioUtilsFacts.encodeWavPcm16_eq |].
  cbn [blob_bytes]. cbv zeta.
  destruct (AudioUtilsFacts.sample_field samples sampleRate i Hx)
    as (pre & post & -> & Hpre).
  rewrite <- Hpre.
  assert (Hbytes : sampleBytes x
                   = le16 (ToIntegerOrZero
                             (if clampUnit x <? 0 then clampUnit x * 32768
                              else clampUnit x * 32767))).
  { unfold sampleBytes, scaleSample.
    now rewrite AudioUtilsFacts.clampSample_clampUnit. }
  rewrite Hbytes.
  set (scaled := if clampUnit x <? 0 then clampUnit x * 32768
                 else clampUnit x * 32767).
  assert (Hu : (0 <= ToUint16 scaled < 2 ^ 16)%Z)
    by (apply Z.mod_pos_bound; lia).
  split; [apply AudioUtilsFacts.clampUnit_range |].
  split.
  { unfold getInt16. rewrite AudioUtilsFacts.le16_roundtrip. reflexivity. }
  split.
  { unfold getUint8. rewrite <- (Nat.add_0_r (length pre)) at 1.
    rewrite nth_app_at. reflexivity. }
  split.
  { unfold getUint8. rewrite nth_app_at. reflexivity. }
  unfold ToInt16. fold (ToUint16 scaled).
  destruct (Z.ltb_spec (ToUint16 scaled) (2 ^ 15)); lia.
Qed.

Lemma sample_quantisation_witness :
  exists wav,
    encodeWavPcm16 [0.5; -0.5; 3; -3] 16000 = Normal wav
    /\ getInt16 (blob_bytes wav) 44 = 16383%Z
    /\ getInt16 (blob_bytes wav) 46 = (-16384)%Z
    /\ getInt16 (blob_bytes wav) 48 = 32767%Z
    /\ getInt16 (blob_bytes wav) 50 = (-32768)%Z
    /\ getUint8 (blob_bytes wav) 46 = 0%Z
    /\ getUint8 (blob_bytes wav) 47 = 192%Z.
Proof.
  destruct (@sample_quantisation [0.5; -0.5; 3; -3] 16000 0 0.5 eq_refl)
    as (wav & Henc & _ & H0 & _).
  destruct (@sample_quantisation [0.5; -0.5; 3; -3] 16000 1 (-0.5) eq_refl)
    as (wav1 & Henc1 & _ & H1 & Hlo & Hhi & _).
  destruct (@sample_quantisation [0.5; -0.5; 3; -3] 16000 2 3 eq_refl)
    as (wav2 & Henc2 & _ & H2 & _).
  destruct (@sample_quantisation [0.5; -0.5; 3; -3] 16000 3 (-3) eq_refl)
    as (wav3 & Henc3 & _ & H3 & _).
  rewrite Henc in Henc1, Henc2, Henc3.
  injection Henc1 as <-. injection Henc2 as <-. injection Henc3 as <-.
  exists wav. split; [exact Henc |].
  repeat split; [exact H0 | exact H1 | exact H2 | exact H3 | exact Hlo
                | exact Hhi].
Defined.

(** C9.  Whatever blob converts, the result reports [durationMs = 2000]
    and [sampleRate = 16000]: the duration is computed from the length of
    the fixed-length PCM, not from the recording. *)
Theorem reported_duration_is_constant (P : Platform) (input : Blob)
    (result : WavConversionResult) :
  convertBlobTo16kMonoWav P input = Normal result ->
  durationMs result
  = Math_round ((of_nat (length (pcm result)) / 16000) * 1000)
  /\ durationMs result = 2000
  /\ sampleRate result = 16000.
Proof.
  intros Hconv.
  destruct (AudioUtilsFacts.convertBlobTo16kMonoWav_inv P input Hconv)
    as (resampled & Hpcm & Hdur & Hrate).
  split; [exact Hdur |].
  split; [| exact Hrate].
  rewrite Hdur. apply AudioUtilsFacts.durationMs_fixed.
  rewrite Hpcm. apply AudioUtilsFacts.fixedLength_length.
Qed.

Lemma reported_duration_is_constant_witness :
  exists result,
    convertBlobTo16kMonoWav holdPlatform demoBlob = Normal result
    /\ length demoResampled = 10%nat
    /\ durationMs result = 2000
    /\ sampleRate result = 16000.
Proof.
  destruct (@AudioUtilsFacts.convertBlobTo16kMonoWav_returns
              holdPlatform demoBlob demoDecoded demoMono demoResampled
              eq_refl eq_refl eq_refl eq_refl) as [wav Hconv].
  eexists. split; [exact Hconv |]. split; [reflexivity |].
  exact (proj2 (reported_duration_is_constant holdPlatform demoBlob Hconv)).
Defined.

(** ** Speech gate *)

(** C2.  The tree is evaluated in order and the first match wins: when the
    overall RMS is below the too-quiet threshold, the flatline test fails
    and the sample is off-centre as well, the gate returns [REJECT] with
    reason [TooQuiet], not [SpeechOffCenter]. *)
Theorem too_quiet_before_off_center (cfg : GateConfig) (pcm : Float32Array)
    (sampleRate : number) (normalizedPcm : Float32Array) :
  normalizePcmLength cfg pcm = Normal normalizedPcm ->
  let m := metricsOf cfg normalizedPcm sampleRate in
  (rms m <? TOO_QUIET_RMS_THRESHOLD cfg) = true ->
  (absMax m <? FLATLINE_ABS_MAX_THRESHOLD cfg)
  && (rms m <? FLATLINE_RMS_THRESHOLD cfg) = false ->
  offCenter cfg m = true ->
  exists result,
    analyzePcmForSpeechGate cfg pcm sampleRate = Normal result
    /\ debugMetrics result = m
    /\ decision result = REJECT
    /\ reason result = TooQuiet
    /\ reason result <> SpeechOffCenter.
Proof.
  intros Hnorm m Hquiet Hflat Hoff.
  unfold analyzePcmForSpeechGate. rewrite Hnorm. cbn [Js.bind].
  fold m. eexists. split; [reflexivity |].
  split; [apply GateFacts.decide_debugMetrics |].
  destruct (GateFacts.decide_tooQuiet cfg m Hflat Hquiet) as [Hd Hr].
  repeat split; [exact Hd | exact Hr |].
  rewrite Hr. discriminate.
Qed.

Lemma too_quiet_before_off_center_witness :
  exists result,
    analyzePcmForSpeechGate shortConfig [0.03125] 16000 = Normal result
    /\ offCenter shortConfig (debugMetrics result) = true
    /\ decision result = REJECT
    /\ reason result = TooQuiet.
Proof.
  destruct (@too_quiet_before_off_center shortConfig [0.03125] 16000
              (normalized shortConfig [0.03125]))
    as (result & Hres & Hm & Hd & Hr & _).
  - apply GateFacts.normalizePcmLength_eq.
  - vm_compute. reflexivity.
  - vm_compute. reflexivity.
  - vm_compute. reflexivity.
  - exists result. split; [exact Hres |].
    split; [rewrite Hm; vm_compute; reflexivity |].
    split; [exact Hd | exact Hr].
Defined.

(** C4.  The gate always returns, and it returns [Flatline] only when the
    peak is below the flatline peak threshold and the RMS below the flatline
    RMS threshold; a sample at or above the peak threshold anywhere in the
    analysed window rules [Flatline] out; and with positive flatline
    thresholds the all-zero waveform of 32000 samples is rejected as
    [Flatline]. *)
Theorem flatline_needs_low_peak_and_rms (cfg : GateConfig) :
  (forall pcm sampleRate,
      exists result,
        analyzePcmForSpeechGate cfg pcm sampleRate = Normal result
        /\ (reason result = Flatline ->
            (absMax (debugMetrics result)
             <? FLATLINE_ABS_MAX_THRESHOLD cfg) = true
            /\ (rms (debugMetrics result)
                <? FLATLINE_RMS_THRESHOLD cfg) = true)
        /\ (forall i x,
               (i < GATE_TARGET_SAMPLE_COUNT cfg)%nat ->
               nth_error pcm i = Some x ->
               (FLATLINE_ABS_MAX_THRESHOLD cfg <=? Math_abs x) = true ->
               reason result <> Flatline))
  /\ (GATE_TARGET_SAMPLE_COUNT cfg = Z.to_nat 32000 ->
      (0 <? FLATLINE_ABS_MAX_THRESHOLD cfg) = true ->
      (0 <? FLATLINE_RMS_THRESHOLD cfg) = true ->
      forall sampleRate,
      exists result,
        analyzePcmForSpeechGate cfg (repeat 0 (Z.to_nat 32000)) sampleRate
        = Normal result
        /\ decision result = REJECT
        /\ reason result = Flatline).
Proof.
  split.
  - intros pcm sampleRate.
    rewrite GateFacts.analyzePcmForSpeechGate_eq.
    set (m := metricsOf cfg (normalized cfg pcm) sampleRate).
    eexists. split; [reflexivity |].
    rewrite GateFacts.decide_debugMetrics.
    split.
    + intros Hreason.
      destruct (flatline cfg m) eqn:Hflat.
      * now apply andb_true_iff in Hflat.
      * now apply GateFacts.decide_not_flatline in Hflat.
    + intros i x Hi Hx Hloud.
      apply GateFacts.decide_not_flatline.
      unfold flatline. apply andb_false_iff. left.
      apply NumOrder.leb_not_ltb.
      apply NumOrder.leb_trans with (b := Math_abs x); [exact Hloud |].
      apply GateFacts.scanSamples_peak.
      * now apply GateFacts.normalized_nth with (i := i).
      * apply NumOrder.leb_not_nan in Hloud. destruct Hloud as [_ Hnan].
        unfold Math_abs in Hnan. now rewrite NumOrder.abs_is_nan in Hnan.
  - intros Hcount Hpeak Hrms sampleRate.
    rewrite GateFacts.analyzePcmForSpeechGate_eq.
    assert (Hnorm : normalized cfg (repeat 0 (Z.to_nat 32000))
                    = repeat 0 (Z.to_nat 32000)).
    { unfold normalized. rewrite Hcount, repeat_length.
      rewrite Nat.sub_diag. cbn [repeat]. rewrite app_nil_r.
      rewrite <- (repeat_length 0 (Z.to_nat 32000)) at 1.
      apply firstn_all. }
    rewrite Hnorm.
    eexists. split; [reflexivity |].
    apply GateFacts.decide_flatline.
    unfold flatline, metricsOf. cbn [absMax rms]. unfold rmsOf.
    destruct (GateFacts.scanSamples_zeros cfg (Z.to_nat 32000)) as [Hs Ha].
    rewrite Hs, Ha, repeat_length.
    change (Math_sqrt (0 / of_nat (Z.to_nat 32000))) with 0.
    now rewrite Hpeak, Hrms.
Qed.

Lemma flatline_needs_low_peak_and_rms_witness :
  (exists result,
      analyzePcmForSpeechGate sampleConfig (repeat 0 (Z.to_nat 32000)) 16000
      = Normal result
      /\ decision result = REJECT
      /\ reason result = Flatline)
  /\ (exists result,
         analyzePcmForSpeechGate shortConfig [0; 0; 1; 0] 16000
         = Normal result
         /\ reason result <> Flatline).
Proof.
  split.
  - exact (proj2 (flatline_needs_low_peak_and_rms sampleConfig)
             eq_refl eq_refl eq_refl 16000).
  - destruct (proj1 (flatline_needs_low_peak_and_rms shortConfig)
                [0; 0; 1; 0] 16000) as (result & Hres & _ & Hloud).
    exists result. split; [exact Hres |].
    apply (Hloud 2%nat 1).
    + vm_compute. lia.
    + reflexivity.
    + reflexivity.
Defined.



(** ** Capture session *)

Local Open Scope Z_scope.

(** C7.  For a recording window that is not negative, the elapsed time on
    display never exceeds [maxDurationMs], whatever happens to the session
    and whatever the clock reads: every tick of the interval sets it to
    [min(now - startedAt, maxDurationMs)] and the auto-stop sets it to
    [maxDurationMs] exactly. *)
Theorem elapsed_never_exceeds_max (browser : Browser) (platform : Platform)
    (gateConfig : GateConfig) (options : option Z) :
  0 <= maxDurationMs options ->
  (forall events,
      elapsedMs (state (run browser platform gateConfig options events
                            initialSession))
      <= maxDurationMs options)
  /\ (forall s dateNow startedAt,
         startedAtRef (refs s) = Some startedAt ->
         startedAt <> 0 ->
         elapsedMs (state (timerTick options dateNow s))
         = Z.min (dateNow - startedAt) (maxDurationMs options)
         /\ elapsedMs (state (timerTick options dateNow s))
            <= maxDurationMs options)
  /\ (forall s,
         elapsedMs (state (autoStopTimeout options s))
         = maxDurationMs options).
Proof.
  intros Hmax. split; [| split].
  - intros events.
    apply RecorderFacts.run_clamped; [exact Hmax |].
    now apply RecorderFacts.initialSession_clamped.
  - intros s dateNow startedAt Hstarted Hnz.
    rewrite (@RecorderFacts.timerTick_elapsedMs options dateNow startedAt s
               Hstarted Hnz).
    split; [reflexivity | apply Z.le_min_r].
  - intros s. apply RecorderFacts.autoStopTimeout_elapsedMs.
Qed.

Lemma elapsed_never_exceeds_max_witness :
  0 <= maxDurationMs (Some 2000)
  /\ elapsedMs (state (run fullBrowser holdPlatform sampleConfig (Some 2000)
                           lateTicks initialSession)) = 2000
  /\ elapsedMs (state (run fullBrowser holdPlatform sampleConfig (Some 2000)
                           lateTicks initialSession)) <= 2000.
Proof.
  assert (Hmax : 0 <= maxDurationMs (Some 2000)) by (cbn; lia).
  split; [exact Hmax |].
  split; [reflexivity |].
  exact (proj1 (@elapsed_never_exceeds_max fullBrowser holdPlatform
                  sampleConfig (Some 2000) Hmax) lateTicks).
Defined.




(* ================================================================== *)
(** * More on the capture session *)
(* ================================================================== *)

Module RecorderMore.

Local Open Scope Z_scope.

(** ** The probe of the container types *)

Lemma find_first {A : Type} (f : A -> bool) (l : list A) (x : A) :
  find f l = Some x ->
  exists before after,
    l = before ++ x :: after
    /\ f x = true
    /\ forall y, In y before -> f y = false.
Proof.
  induction l as [|a l IH]; [discriminate |]. cbn.
  destruct (f a) eqn:Ha.
  - intros [= <-]. exists [], l. repeat split; [exact Ha |]. intros y [].
  - intros H. destruct (IH H) as (before & after & -> & Hx & Hb).
    exists (a :: before), after. repeat split; [exact Hx |].
    intros y [<- | Hy]; [exact Ha | now apply Hb].
Qed.

(** ** Tactics for the callbacks *)

Ltac split_cases :=
  repeat match goal with
         | |- context [match ?x with _ => _ end] => destruct x eqn:?
         end.

Ltac session_ops :=
  unfold startRecording, startRecordingWith, startRecordingFailed,
    requestMicAccess, requestMicAccessSettled, micSettled, retry, cleanup,
    timerTick, autoStopTimeout, ondataavailable, onstop, onerror,
    conversionSettled, conversionFailed, withRecorder, startTimers,
    installStream, stopRecorderSafely, stopAndReleaseStream,
    clearAudioUrl, clearAutoStop, clearTimer.

(** A session taken apart into its fields, so that every projection of an
    updated session computes. *)
Ltac open_session s :=
  let st := fresh "st" in
  let rf := fresh "rf" in
  let wd := fresh "wd" in
  destruct s as [st rf wd]; destruct st, rf, wd.

Ltac crunch :=
  repeat (cbn;
          first
            [ match goal with
              | |- context [match ?x with _ => _ end] => is_var x; destruct x
              end
            | match goal with
              | |- context [match ?x with _ => _ end] => destruct x eqn:?
              end ]);
  cbn.

Ltac by_cases s := do 3 session_ops; open_session s; crunch.

Section Hook.

Variable browser : Browser.
Variable platform : AudioUtils.Platform.
Variable gateConfig : GateConfig.
Variable options : option Z.

(** ** Relations that every step respects

    A reflexive and transitive relation between sessions that holds across
    each of the callbacks holds across every step of the machine, and so
    across every run. *)

Section StepRelation.

Variable R : Session -> Session -> Prop.

Hypothesis R_refl : forall s, R s s.
Hypothesis R_trans : forall s1 s2 s3, R s1 s2 -> R s2 s3 -> R s1 s3.
Hypothesis R_setPendingMic : forall others s, R s (setPendingMic others s).
Hypothesis R_retry : forall s, R s (retry browser s).
Hypothesis R_requestMicAccess :
  forall caller s, R s (requestMicAccess browser caller s).
Hypothesis R_requestMicAccessSettled :
  forall outcome s, R s (snd (requestMicAccessSettled outcome s)).
Hypothesis R_startRecordingWith :
  forall activeStream env s,
    R s (startRecordingWith browser activeStream env s).
Hypothesis R_cleanup : forall s, R s (cleanup s).
Hypothesis R_timerTick : forall dateNow s, R s (timerTick options dateNow s).
Hypothesis R_autoStopTimeout : forall s, R s (autoStopTimeout options s).
Hypothesis R_ondataavailable : forall data s, R s (ondataavailable data s).
Hypothesis R_onstop : forall recorder s, R s (onstop browser recorder s).
Hypothesis R_onerror : forall name s, R s (onerror name s).
Hypothesis R_conversionSettled :
  forall s, R s (conversionSettled platform gateConfig s).

Lemma startRecording_related (renderedStatus : RecorderStatus)
    (env : RecorderEnv) (s : Session) :
  R s (startRecording browser renderedStatus env s).
Proof.
  unfold startRecording.
  destruct renderedStatus; try apply R_refl;
    destruct (streamRef (refs s));
    first [apply R_startRecordingWith | apply R_requestMicAccess].
Qed.

Lemma micSettled_related (outcome : MicOutcome) (env : RecorderEnv)
    (s : Session) :
  R s (micSettled browser outcome env s).
Proof.
  unfold micSettled.
  destruct (pendingMic (world s)) as [|caller others]; [apply R_refl |].
  pose proof (R_requestMicAccessSettled outcome (setPendingMic others s))
    as Hsettle.
  destruct (requestMicAccessSettled outcome (setPendingMic others s))
    as [activeStream s'].
  cbn [snd] in Hsettle.
  assert (Hs' : R s s')
    by (apply R_trans with (s2 := setPendingMic others s);
        [apply R_setPendingMic | exact Hsettle]).
  destruct caller, activeStream; try exact Hs'.
  apply R_trans with (s2 := s'); [exact Hs' | apply R_startRecordingWith].
Qed.

Lemma step_related (s : Session) (e : Event) :
  R s (step browser platform gateConfig options s e).
Proof.
  destruct e; cbn [step].
  - apply startRecording_related.
  - apply R_requestMicAccess.
  - apply R_retry.
  - apply micSettled_related.
  - destruct (timerRef (refs s)); [apply R_timerTick | apply R_refl].
  - destruct (autoStopRef (refs s)); [apply R_autoStopTimeout | apply R_refl].
  - unfold withRecorder. destruct (mediaRecorderRef (refs s)) as [r |];
      [destruct (handlersAttached r) |]; try apply R_refl.
    apply R_ondataavailable.
  - unfold withRecorder. destruct (mediaRecorderRef (refs s)) as [r |];
      [destruct (handlersAttached r) |]; try apply R_refl.
    apply R_onstop.
  - apply R_conversionSettled.
  - unfold withRecorder. destruct (mediaRecorderRef (refs s)) as [r |];
      [destruct (handlersAttached r) |]; try apply R_refl.
    apply R_onerror.
  - apply R_cleanup.
Qed.

Lemma run_related (events : list Event) :
  forall s : Session,
    R s (run browser platform gateConfig options events s).
Proof.
  induction events as [|e events IH]; intros s; cbn; [apply R_refl |].
  apply R_trans with (s2 := step browser platform gateConfig options s e);
    [apply step_related | apply IH].
Qed.

End StepRelation.

(** ** The timers *)

Ltac timers_case s :=
  unfold timersMove, timersTogether, timers; intros Htogether;
  by_cases s;
  first [ left; reflexivity
        | right; do 3 eexists; reflexivity
        | exact Htogether
        | destruct Htogether as [Habs | (? & ? & ? & Habs)];
          discriminate Habs ].

Lemma run_timersTogether (events : list Event) (s : Session) :
  timersTogether s ->
  timersTogether (run browser platform gateConfig options events s).
Proof.
  change (timersMove s (run browser platform gateConfig options events s)).
  apply run_related; clear events s.
  - intros s H. exact H.
  - intros s1 s2 s3 H12 H23 H. auto.
  - intros others s H. exact H.
  - intros s. timers_case s.
  - intros caller s. timers_case s.
  - intros outcome s. timers_case s.
  - intros activeStream env s. timers_case s.
  - intros s. timers_case s.
  - intros dateNow s. timers_case s.
  - intros s. timers_case s.
  - intros data s. timers_case s.
  - intros recorder s. timers_case s.
  - intros name s. timers_case s.
  - intros s. timers_case s.
Qed.

(** ** The object URLs *)

Ltac known_url Hall url Hlt :=
  destruct (Hall url Hlt) as [Ecur | Erev];
  [ first [ discriminate Ecur
          | injection Ecur as <-; auto with datatypes
          | left; exact Ecur ]
  | auto with datatypes ].

Ltac urls_all Hall :=
  intros url Hurl;
  first [ known_url Hall url Hurl
        | match type of Hurl with
          | (url < S ?n)%nat =>
              destruct (Nat.eq_dec url n) as [-> | Hne];
              [ left; reflexivity
              | assert (Hlt : (url < n)%nat) by lia;
                known_url Hall url Hlt ]
          end ].

Ltac urls_current Hcur :=
  intros url Hurl;
  first [ discriminate Hurl
        | now apply Hcur
        | injection Hurl as <-; lia
        | specialize (Hcur _ eq_refl); lia ].

Ltac urls_case s :=
  unfold urlsMove, urlsTracked; intros [Hall Hcur];
  by_cases s;
  (split; [urls_all Hall | urls_current Hcur]).

Lemma run_urlsTracked (events : list Event) (s : Session) :
  urlsTracked s ->
  urlsTracked (run browser platform gateConfig options events s).
Proof.
  change (urlsMove s (run browser platform gateConfig options events s)).
  apply run_related; clear events s.
  - intros s H. exact H.
  - intros s1 s2 s3 H12 H23 H. auto.
  - intros others s H. exact H.
  - intros s. urls_case s.
  - intros caller s. urls_case s.
  - intros outcome s. urls_case s.
  - intros activeStream env s. urls_case s.
  - intros s. urls_case s.
  - intros dateNow s. urls_case s.
  - intros s. urls_case s.
  - intros data s. urls_case s.
  - intros recorder s. urls_case s.
  - intros name s. urls_case s.
  - intros s. urls_case s.
Qed.

(** ** The streams *)

Ltac streams_case s :=
  unfold streamsKept; intros st Hst;
  by_cases s;
  destruct Hst as [Ecur | Erel];
  first [ discriminate Ecur
        | injection Ecur as <-; auto with datatypes
        | left; exact Ecur
        | auto with datatypes ].

Lemma run_streamsKept (events : list Event) (s : Session) :
  streamsKept s (run browser platform gateConfig options events s).
Proof.
  apply run_related; clear events s.
  - intros s st H. exact H.
  - intros s1 s2 s3 H12 H23 st H. auto.
  - intros others s st H. exact H.
  - intros s. streams_case s.
  - intros caller s. streams_case s.
  - intros outcome s. streams_case s.
  - intros activeStream env s. streams_case s.
  - intros s. streams_case s.
  - intros dateNow s. streams_case s.
  - intros s. streams_case s.
  - intros data s. streams_case s.
  - intros recorder s. streams_case s.
  - intros name s. streams_case s.
  - intros s. streams_case s.
Qed.

(** ** The stream and its ref *)

Ltac synced_case s :=
  unfold streamSyncedMove, streamSynced; intros Hsync;
  by_cases s;
  first [ reflexivity | exact Hsync ].

Lemma run_streamSynced (events : list Event) (s : Session) :
  streamSynced s ->
  streamSynced (run browser platform gateConfig options events s).
Proof.
  change (streamSyncedMove s
            (run browser platform gateConfig options events s)).
  apply run_related; clear events s.
  - intros s H. exact H.
  - intros s1 s2 s3 H12 H23 H. auto.
  - intros others s H. exact H.
  - intros s. synced_case s.
  - intros caller s. synced_case s.
  - intros outcome s. synced_case s.
  - intros activeStream env s. synced_case s.
  - intros s. synced_case s.
  - intros dateNow s. synced_case s.
  - intros s. synced_case s.
  - intros data s. synced_case s.
  - intros recorder s. synced_case s.
  - intros name s. synced_case s.
  - intros s. synced_case s.
Qed.

(** ** After the unmount *)

Ltac released_case s :=
  unfold releasedMove, released; intros (Hm & Hu & Hall & Hst);
  do 3 session_ops; open_session s; cbn in Hm, Hu; subst; crunch;
  (split; [reflexivity |];
   split; [reflexivity |];
   split;
   [ intros url Hurl; specialize (Hall url Hurl); auto with datatypes
   | intros st Hst'; specialize (Hst st Hst'); auto with datatypes ]).

Lemma run_released (events : list Event) (s : Session) :
  released s ->
  released (run browser platform gateConfig options events s).
Proof.
  change (releasedMove s (run browser platform gateConfig options events s)).
  apply run_related; clear events s.
  - intros s H. exact H.
  - intros s1 s2 s3 H12 H23 H. auto.
  - intros others s H. exact H.
  - intros s. released_case s.
  - intros caller s. released_case s.
  - intros outcome s. released_case s.
  - intros activeStream env s. released_case s.
  - intros s. released_case s.
  - intros dateNow s. released_case s.
  - intros s. released_case s.
  - intros data s. released_case s.
  - intros recorder s. released_case s.
  - intros name s. released_case s.
  - intros s. released_case s.
Qed.

Lemma cleanup_released (s : Session) :
  urlsTracked s -> streamSynced s -> released (cleanup s).
Proof.
  unfold urlsTracked, streamSynced, released. intros [Hall _] Hsync.
  by_cases s; cbn in Hsync, Hall;
    (split; [reflexivity |]; split; [reflexivity |]; split;
     [ intros url Hurl;
       destruct (Hall url Hurl) as [Ecur | Erev];
       [ first [discriminate Ecur | injection Ecur as <-; now left]
       | auto with datatypes ]
     | intros st Hst; clear Hall; cbn in *;
       first [congruence | left; congruence] ]).
Qed.

Lemma run_app (events1 events2 : list Event) (s : Session) :
  run browser platform gateConfig options (events1 ++ events2) s
  = run browser platform gateConfig options events2
        (run browser platform gateConfig options events1 s).
Proof. apply fold_left_app. Qed.

(** ** What the status promises *)

(** Revocation follows creation. *)

Ltac fresh_revoked Hrev Hcur :=
  intros url Hin; cbn in Hin;
  first
    [ now apply Hrev
    | destruct Hin as [<- | Hin];
      [ pose proof (Hcur _ eq_refl) as [Hlt _]; cbn in Hlt; lia
      | pose proof (Hrev _ Hin) as Hlt; cbn in Hlt; lia ]
    | pose proof (Hrev _ Hin) as Hlt; cbn in Hlt; lia ].

Ltac fresh_current Hrev Hcur :=
  intros url Hurl;
  first
    [ discriminate Hurl
    | now apply Hcur
    | injection Hurl as <-; split; [lia |];
      intros Hin; cbn in Hin;
      repeat match goal with
             | H : _ \/ _ |- _ => destruct H as [H | H]
             end;
      first
        [ subst; pose proof (Hcur _ eq_refl) as [Hlt _]; cbn in Hlt; lia
        | pose proof (Hrev _ Hin) as Hlt; cbn in Hlt; lia ] ].

Ltac fresh_case s :=
  unfold freshMove, urlsFresh; intros [Hrev Hcur];
  by_cases s;
  (split; [fresh_revoked Hrev Hcur | fresh_current Hrev Hcur]).

Lemma run_urlsFresh (events : list Event) (s : Session) :
  urlsFresh s ->
  urlsFresh (run browser platform gateConfig options events s).
Proof.
  change (freshMove s (run browser platform gateConfig options events s)).
  apply run_related; clear events s.
  - intros s H. exact H.
  - intros s1 s2 s3 H12 H23 H. auto.
  - intros others s H. exact H.
  - intros s. fresh_case s.
  - intros caller s. fresh_case s.
  - intros outcome s. fresh_case s.
  - intros activeStream env s. fresh_case s.
  - intros s. fresh_case s.
  - intros dateNow s. fresh_case s.
  - intros s. fresh_case s.
  - intros data s. fresh_case s.
  - intros recorder s. fresh_case s.
  - intros name s. fresh_case s.
  - intros s. fresh_case s.
Qed.

Lemma initialSession_urlsFresh : urlsFresh initialSession.
Proof.
  split; [intros url [] | intros url Hurl; discriminate Hurl].
Qed.

Ltac mounted_absurd Hm :=
  cbn in Hm; subst;
  match goal with
  | H : negb true = true |- _ => discriminate H
  | H : true = false |- _ => discriminate H
  end.

Ltac result_case s :=
  unfold resultMove, resultComplete; intros HI;
  by_cases s;
  first
    [ exact HI
    | intros Hm Hs;
      first
        [ discriminate Hs
        | discriminate Hm
        | mounted_absurd Hm
        | destruct (HI Hm Hs) as (wav & gate & url & Hb & Hg & Hu & Hr
                                  & Hd & Hrate);
          exists wav, gate, url; repeat split; assumption ] ].

Lemma conversionSettled_resultComplete (s : Session) :
  resultMove s (conversionSettled platform gateConfig s).
Proof.
  unfold resultMove, resultComplete, conversionSettled. intros HI.
  destruct (pendingConversions (world s)) as [|resultBlob others];
    [exact HI |].
  destruct (convertBlobTo16kMonoWav platform resultBlob)
    as [converted | error] eqn:Hconv.
  - destruct (AudioUtilsFacts.convertBlobTo16kMonoWav_inv _ _ Hconv)
      as (resampled & Hpcm & Hduration & Hrate).
    rewrite Hpcm, AudioUtilsFacts.durationMs_fixed in Hduration
      by apply AudioUtilsFacts.fixedLength_length.
    rewrite GateFacts.analyzePcmForSpeechGate_eq.
    cbn [refs setPendingConversions onWorld].
    destruct (mountedRef (refs s)) eqn:Hmounted; cbn [negb].
    + intros _ _. unfold clearAudioUrl. cbn.
      destruct (audioUrlRef (refs s)); cbn;
        rewrite Hduration, Hrate; do 3 eexists; repeat split.
    + cbn. rewrite Hmounted. discriminate.
  - unfold conversionFailed. cbn [refs setPendingConversions onWorld].
    destruct (mountedRef (refs s)) eqn:Hmounted; cbn [negb].
    + cbn. discriminate.
    + cbn. rewrite Hmounted. discriminate.
Qed.

Lemma run_resultComplete (events : list Event) (s : Session) :
  resultComplete s ->
  resultComplete (run browser platform gateConfig options events s).
Proof.
  change (resultMove s (run browser platform gateConfig options events s)).
  apply run_related; clear events s.
  - intros s H. exact H.
  - intros s1 s2 s3 H12 H23 H. auto.
  - intros others s H. exact H.
  - intros s. result_case s.
  - intros caller s. result_case s.
  - intros outcome s. result_case s.
  - intros activeStream env s. result_case s.
  - intros s. result_case s.
  - intros dateNow s. result_case s.
  - intros s. result_case s.
  - intros data s. result_case s.
  - intros recorder s. result_case s.
  - intros name s. result_case s.
  - apply conversionSettled_resultComplete.
Qed.

Ltac timed_case s :=
  unfold timedMove, recordingTimed; intros HI;
  by_cases s;
  first
    [ exact HI
    | intros Hm Hs;
      first
        [ discriminate Hs
        | discriminate Hm
        | mounted_absurd Hm
        | do 4 eexists; repeat split; reflexivity
        | destruct (HI Hm Hs) as (interval & timeout & startedAt & recorder
                                  & Ht & Ha & Hstart & Hr & Hh);
          first
            [ discriminate Ht | discriminate Ha | discriminate Hstart
            | discriminate Hr
            | do 4 eexists; repeat split;
              first [eassumption | reflexivity
                    | injection Hr as <-; exact Hh ] ] ] ].

Lemma run_recordingTimed (events : list Event) (s : Session) :
  recordingTimed s ->
  recordingTimed (run browser platform gateConfig options events s).
Proof.
  change (timedMove s (run browser platform gateConfig options events s)).
  apply run_related; clear events s.
  - intros s H. exact H.
  - intros s1 s2 s3 H12 H23 H. auto.
  - intros others s H. exact H.
  - intros s. timed_case s.
  - intros caller s. timed_case s.
  - intros outcome s. timed_case s.
  - intros activeStream env s. timed_case s.
  - intros s. timed_case s.
  - intros dateNow s. timed_case s.
  - intros s. timed_case s.
  - intros data s. timed_case s.
  - intros recorder s. timed_case s.
  - intros name s. timed_case s.
  - intros s. timed_case s.
Qed.

(** ** A browser that cannot record *)

Lemma requestMicAccess_neverStarted (caller : MicCaller) (s : Session) :
  hasGetUserMedia browser = false \/ hasMediaRecorder browser = false ->
  neverStarted s ->
  neverStarted (requestMicAccess browser caller s)
  /\ status (state (requestMicAccess browser caller s)) = Unsupported
  /\ errorName (state (requestMicAccess browser caller s))
     = Some "NotSupportedError"%string.
Proof.
  intros Hbrowser Hs.
  assert (Hunsupported :
            negb (hasGetUserMedia browser) || negb (hasMediaRecorder browser)
            = true)
    by (destruct Hbrowser as [-> | ->];
        [reflexivity | apply orb_true_r]).
  unfold requestMicAccess. cbn zeta. rewrite Hunsupported.
  split; [| split; reflexivity].
  destruct Hs as (_ & Hrest). split; [now right | exact Hrest].
Qed.

Lemma cleanup_neverStarted (s : Session) :
  neverStarted s -> neverStarted (cleanup s).
Proof.
  unfold neverStarted.
  intros (Hstatus & Hstream & Href & Hrecorder & Htimer & Hauto & Hmic
          & Hconv).
  by_cases s; cbn in Hstatus, Hstream, Href, Hrecorder, Htimer, Hauto,
                Hmic, Hconv;
    repeat split;
    first [assumption | reflexivity | discriminate].
Qed.

Lemma step_neverStarted (s : Session) (e : Event) :
  hasGetUserMedia browser = false \/ hasMediaRecorder browser = false ->
  neverStarted s ->
  neverStarted (step browser platform gateConfig options s e).
Proof.
  intros Hbrowser Hs.
  pose proof Hs as (Hstatus & Hstream & Href & Hrecorder & Htimer & Hauto
                    & Hmic & Hconv).
  destruct e; cbn [step].
  - unfold startRecording. rewrite Href.
    destruct renderedStatus;
      first [exact Hs | now apply requestMicAccess_neverStarted].
  - now apply requestMicAccess_neverStarted.
  - unfold retry.
    cbn [streamRef refs setErrorName setGateResult onState].
    rewrite Href. now apply requestMicAccess_neverStarted.
  - unfold micSettled. now rewrite Hmic.
  - now rewrite Htimer.
  - now rewrite Hauto.
  - unfold withRecorder. now rewrite Hrecorder.
  - unfold withRecorder. now rewrite Hrecorder.
  - unfold conversionSettled. now rewrite Hconv.
  - unfold withRecorder. now rewrite Hrecorder.
  - now apply cleanup_neverStarted.
Qed.

Lemma run_neverStarted (events : list Event) :
  forall s : Session,
    hasGetUserMedia browser = false \/ hasMediaRecorder browser = false ->
    neverStarted s ->
    neverStarted (run browser platform gateConfig options events s).
Proof.
  induction events as [|e events IH]; intros s Hbrowser Hs; cbn.
  - exact Hs.
  - apply IH; [exact Hbrowser |]. now apply step_neverStarted.
Qed.

(** ** One recording *)

Lemma startRecording_starts (renderedStatus : RecorderStatus)
    (env : RecorderEnv) (s : Session) (activeStream : MediaStream) :
  renderedStatus <> Requesting ->
  renderedStatus <> Recording ->
  streamRef (refs s) = Some activeStream ->
  startRecording browser renderedStatus env s
  = startRecordingWith browser activeStream env s.
Proof.
  intros Hrequesting Hrecording Hstream. unfold startRecording.
  rewrite Hstream. destruct renderedStatus; congruence.
Qed.

Lemma flat_map_nonempty (ds : list Blob) :
  flat_map blob_bytes (filter (fun d => (0 <? blob_size d)%nat) ds)
  = flat_map blob_bytes ds.
Proof.
  induction ds as [|d ds IH]; [reflexivity |]. cbn [filter].
  unfold blob_size at 1.
  destruct (blob_bytes d) as [|b bytes] eqn:Hd.
  - change (0 <? length (@nil Z))%nat with false.
    cbn [flat_map]. rewrite Hd. exact IH.
  - change (0 <? length (b :: bytes))%nat with true.
    cbn [flat_map]. now rewrite Hd, IH.
Qed.

(** The chunks that arrive while the handlers are attached are appended
    in the order of arrival, the empty ones left out. *)
Lemma run_data (ds : list Blob) :
  forall (s : Session) (recorder : MediaRecorder),
    mediaRecorderRef (refs s) = Some recorder ->
    handlersAttached recorder = true ->
    run browser platform gateConfig options (map DataAvailable ds) s
    = setChunksRef
        (chunksRef (refs s)
         ++ filter (fun d => (0 <? blob_size d)%nat) ds) s.
Proof.
  induction ds as [|d ds IH]; intros s recorder Href Hattached.
  - destruct s as [st rf wd]; destruct rf. cbn.
    now rewrite app_nil_r.
  - change (run browser platform gateConfig options
                (map DataAvailable (d :: ds)) s)
      with (run browser platform gateConfig options (map DataAvailable ds)
                (step browser platform gateConfig options s
                      (DataAvailable d))).
    cbn [step]. unfold withRecorder. rewrite Href, Hattached.
    unfold ondataavailable. cbn [filter].
    destruct (0 <? blob_size d)%nat.
    + rewrite (IH _ recorder) by (cbn; assumption).
      cbn. now rewrite <- app_assoc.
    + now rewrite (IH _ recorder).
Qed.

Lemma conversionSettled_throw (s : Session) (resultBlob : Blob)
    (others : list Blob) (error : Exception) :
  mountedRef (refs s) = true ->
  pendingConversions (world s) = resultBlob :: others ->
  convertBlobTo16kMonoWav platform resultBlob = Throw error ->
  conversionSettled platform gateConfig s
  = (s |> setPendingConversions others
       |> setErrorName (Some (errorNameOr "ConversionError" error))
       |> setStatus Error).
Proof.
  intros Hmounted Hpending Hconv.
  unfold conversionSettled, conversionFailed.
  rewrite Hpending, Hconv. cbn. now rewrite Hmounted.
Qed.

Lemma conversionSettled_ok (s : Session) (resultBlob : Blob)
    (others : list Blob) (converted : WavConversionResult) :
  mountedRef (refs s) = true ->
  pendingConversions (world s) = resultBlob :: others ->
  convertBlobTo16kMonoWav platform resultBlob = Normal converted ->
  conversionSettled platform gateConfig s
  = (s |> setPendingConversions others
       |> setAudioBlob (Some (AudioUtils.blob converted))
       |> setOutputSampleRate (Some (AudioUtils.sampleRate converted))
       |> setUrlsCreated (S (urlsCreated (world s)))
       |> clearAudioUrl
       |> setAudioUrlRef (Some (urlsCreated (world s)))
       |> setAudioUrl (Some (urlsCreated (world s)))
       |> setMeasuredDurationMs (Some (AudioUtils.durationMs converted))
       |> setGateResult
            (Some (decide gateConfig
                     (metricsOf gateConfig
                        (normalized gateConfig (AudioUtils.pcm converted))
                        (AudioUtils.sampleRate converted))))
       |> setStatus Result).
Proof.
  intros Hmounted Hpending Hconv.
  unfold conversionSettled.
  rewrite Hpending, Hconv. cbn [refs setPendingConversions onWorld].
  rewrite Hmounted. cbn [negb].
  now rewrite GateFacts.analyzePcmForSpeechGate_eq.
Qed.

Lemma conversionSettled_mountedRef (s : Session) :
  mountedRef (refs (conversionSettled platform gateConfig s))
  = mountedRef (refs s).
Proof. session_ops; split_cases; reflexivity. Qed.

(** A recording from the start of the recorder to its stop by the
    timeout: what waits for the conversion, and what the session shows
    meanwhile. *)
Lemma run_recording (s : Session) (activeStream : MediaStream)
    (env : RecorderEnv) (recorderMime : string) (ds : list Blob) :
  hasMediaRecorder browser = true ->
  mountedRef (refs s) = true ->
  recorderCreated env = Normal recorderMime ->
  recorderStarted env = Normal tt ->
  let s' :=
    run browser platform gateConfig options
        (map DataAvailable ds ++ [AutoStopTimeout; RecorderStopped])
        (startRecordingWith browser activeStream env s) in
  state s'
  = {| status := Processing; stream := stream (state s);
       audioBlob := None; audioUrl := None; errorName := None;
       elapsedMs := maxDurationMs options; measuredDurationMs := None;
       gateResult := None; outputSampleRate := None |}
  /\ pendingConversions (world s')
     = pendingConversions (world s)
       ++ [{| blob_bytes := flat_map blob_bytes ds;
              blob_type :=
                firstTruthy recorderMime (mimeType browser)
                            "audio/webm" |}]
  /\ mountedRef (refs s') = true
  /\ chunksRef (refs s') = []
  /\ timers s' = (None, None, None)
  /\ audioUrlRef (refs s') = None
  /\ urlsCreated (world s') = urlsCreated (world s)
  /\ (forall url, audioUrlRef (refs s) = Some url ->
                  In url (revokedUrls (world s'))).
Proof.
  intros Hrecorder Hmounted Hcreated Hstarted s'. subst s'.
  rewrite run_app.
  rewrite (@run_data ds _
             {| recorderState := recording;
                recorderMimeType := recorderMime;
                handlersAttached := true |});
    [| unfold startRecordingWith;
       rewrite Hrecorder, Hcreated, Hstarted;
       do 2 session_ops; cbn; split_cases; reflexivity
     | reflexivity ].
  rewrite <- (flat_map_nonempty ds).
  unfold timers, startRecordingWith.
  rewrite Hrecorder, Hcreated, Hstarted.
  destruct s as [st rf wd].
  destruct rf as [recorder chunks interval timeout startedAt url failure
                    mounted held].
  cbn in Hmounted. subst mounted.
  destruct st, wd, interval, timeout, url;
    vm_compute;
    (repeat split; try reflexivity;
     intros url' Hurl; first [discriminate Hurl | injection Hurl as <-];
     now left).
Qed.

End Hook.

(** ** The take of the stand-in platform *)

Lemma demoBlob_converts :
  exists converted,
    convertBlobTo16kMonoWav holdPlatform demoBlob = Normal converted.
Proof.
  destruct (@AudioUtilsFacts.convertBlobTo16kMonoWav_returns
              holdPlatform demoBlob demoDecoded demoMono demoResampled
              eq_refl eq_refl eq_refl eq_refl) as [wav Hconv].
  eexists. exact Hconv.
Qed.

Lemma stoppedSession_pending :
  mountedRef (refs stoppedSession) = true
  /\ pendingConversions (world stoppedSession) = [demoBlob]
  /\ audioUrlRef (refs stoppedSession) = None.
Proof. repeat split; vm_compute; reflexivity. Qed.

(** The whole run, from the request of the microphone to the result. *)
Lemma demo_run_settles :
  run fullBrowser holdPlatform sampleConfig (Some 2000)
      (demoGrant ++ demoTake ++ [ConversionSettled]) initialSession
  = conversionSettled holdPlatform sampleConfig stoppedSession.
Proof.
  unfold stoppedSession, readySession, run.
  rewrite !fold_left_app. reflexivity.
Qed.

Lemma demo_run_result :
  let s :=
    run fullBrowser holdPlatform sampleConfig (Some 2000)
        (demoGrant ++ demoTake ++ [ConversionSettled]) initialSession in
  mountedRef (refs s) = true /\ status (state s) = Result.
Proof.
  intros s. subst s. rewrite demo_run_settles.
  destruct demoBlob_converts as [converted Hconv].
  destruct stoppedSession_pending as (Hmounted & Hpending & Hurl).
  split.
  - rewrite conversionSettled_mountedRef. exact Hmounted.
  - now rewrite (@conversionSettled_ok holdPlatform sampleConfig
                   stoppedSession demoBlob [] converted Hmounted Hpending
                   Hconv).
Qed.

End RecorderMore.

(* ================================================================== *)
(** * Further properties of the code *)
(* ================================================================== *)

Local Open Scope nat_scope.
Local Open Scope float_scope.

(** ** Waveform normaliser *)

(** X1.  The mix of a stereo buffer does not depend on the order of its
    two channels; and in a buffer of two or more channels a frame at which
    some channel holds NaN is NaN in the mix, wherever that channel
    stands. *)
Theorem stereo_mix_is_symmetric (sampleRate : number) (frames : nat)
    (left right : Float32Array) :
  mixToMono {| ab_sampleRate := sampleRate; ab_length := frames;
               ab_channels := [left; right] |}
  = mixToMono {| ab_sampleRate := sampleRate; ab_length := frames;
                 ab_channels := [right; left] |}
  /\ (forall buffer mono frame channel,
         (2 <= numberOfChannels buffer)%nat ->
         mixToMono buffer = Normal mono ->
         (frame < ab_length buffer)%nat ->
         In channel (ab_channels buffer) ->
         PrimFloat.is_nan (get channel frame) = true ->
         exists sample,
           nth_error mono frame = Some sample
           /\ PrimFloat.is_nan sample = true).
Proof.
  split.
  - unfold mixToMono. cbn. f_equal. apply map_ext. intros frame.
    now rewrite NumFacts.zero_add_swap.
  - intros buffer mono frame channel Hmany Hmix Hframe Hin Hnan.
    rewrite (AudioUtilsMore.mixToMono_many buffer Hmany) in Hmix.
    injection Hmix as <-.
    rewrite nth_error_map, nth_error_seq.
    destruct (Nat.ltb_spec frame (ab_length buffer)); [| lia].
    cbn. eexists. split; [reflexivity |].
    apply NumFacts.fround_nan, NumFacts.div_is_nan.
    unfold frameSum. apply AudioUtilsMore.frameSum_nan.
    right. now exists channel.
Qed.

Lemma stereo_mix_is_symmetric_witness :
  mixToMono {| ab_sampleRate := 48000; ab_length := 3;
               ab_channels := [[0.5; 0.25; -1]; [0.25; 0.25; 1]] |}
  = mixToMono {| ab_sampleRate := 48000; ab_length := 3;
                 ab_channels := [[0.25; 0.25; 1]; [0.5; 0.25; -1]] |}
  /\ mixToMono {| ab_sampleRate := 48000; ab_length := 3;
                  ab_channels := [[0.25; 0.25; 1]; [0.5; 0.25; -1]] |}
     = Normal [0.375; 0.25; 0].
Proof.
  split; [| vm_compute; reflexivity].
  exact (proj1 (stereo_mix_is_symmetric 48000 3 [0.5; 0.25; -1]
                  [0.25; 0.25; 1])).
Defined.

(** X2.  The conversion fails exactly when the platform does, and with the
    platform's exception.  Without an audio context it throws
    [NotSupportedError].  With one, it throws what the constructor of the
    context throws; else what [close] throws in the [finally] clause,
    whatever the block did; else what [arrayBuffer], decoding, mixing or
    rendering throws, in this order.  The normalisation and the encoder
    add no failure of their own.  When the constructor, [arrayBuffer] and
    [close] return, the conversion is [convertBlobTo16kMonoWav]. *)
Theorem conversion_fails_only_with_the_platform (L : ContextCalls)
    (P : Platform) (input : Blob) (e : Exception) :
  (convertBlobTo16kMonoWavIn L P input = Throw e
   <-> (hasAudioContext P = false /\ e = DOMException "NotSupportedError")
       \/ (hasAudioContext P = true
           /\ (newAudioContext L = Throw e
               \/ (newAudioContext L = Normal tt
                   /\ (closeAudioContext L = Throw e
                       \/ (closeAudioContext L = Normal tt
                           /\ (arrayBuffer L input = Throw e
                               \/ (arrayBuffer L input = Normal tt
                                   /\ (decodeAudioData P input = Throw e
                                       \/ exists decoded,
                                            decodeAudioData P input
                                            = Normal decoded
                                            /\ (mixToMono decoded = Throw e
                                                \/ exists mono,
                                                     mixToMono decoded
                                                     = Normal mono
                                                     /\ resampleTo16k P mono
                                                          (ab_sampleRate
                                                             decoded)
                                                        = Throw e))))))))))
  /\ (newAudioContext L = Normal tt ->
      arrayBuffer L input = Normal tt ->
      closeAudioContext L = Normal tt ->
      convertBlobTo16kMonoWavIn L P input = convertBlobTo16kMonoWav P input).
Proof.
  split; [| apply AudioUtilsFacts.convertBlobTo16kMonoWavIn_quiet].
  destruct (hasAudioContext P) eqn:Hctx.
  2: { unfold convertBlobTo16kMonoWavIn, getAudioContextCtor.
       rewrite Hctx. cbn [Js.bind]. split.
       - intros [= <-]. left. now split.
       - intros [[_ ->] | [H _]]; [reflexivity | discriminate]. }
  destruct (newAudioContext L) as [[] | e0] eqn:Hnew.
  2: { unfold convertBlobTo16kMonoWavIn, getAudioContextCtor.
       rewrite Hctx, Hnew. cbn [Js.bind]. split.
       - intros [= <-]. right. split; [reflexivity |]. now left.
       - intros [[H _] | [_ [H | [H _]]]]; try discriminate; congruence. }
  destruct (closeAudioContext L) as [[] | e1] eqn:Hclose.
  2: { unfold convertBlobTo16kMonoWavIn, getAudioContextCtor, tryFinally.
       rewrite Hctx, Hnew, Hclose. cbn [Js.bind]. split.
       - intros [= <-]. right. split; [reflexivity |]. right.
         split; [reflexivity |]. now left.
       - intros [[H _] | [_ [H | [_ [H | [H _]]]]]];
           try discriminate; congruence. }
  destruct (arrayBuffer L input) as [[] | e2] eqn:Hread.
  2: { unfold convertBlobTo16kMonoWavIn, getAudioContextCtor, tryFinally.
       rewrite Hctx, Hnew, Hclose, Hread. cbn [Js.bind]. split.
       - intros [= <-]. right. split; [reflexivity |]. right.
         split; [reflexivity |]. right. split; [reflexivity |]. now left.
       - intros [[H _] | [_ [H | [_ [H | [_ [H | [H _]]]]]]]];
           try discriminate; congruence. }
  rewrite (AudioUtilsFacts.convertBlobTo16kMonoWavIn_quiet L P input
             Hnew Hread Hclose).
  rewrite (AudioUtilsFacts.convertBlobTo16kMonoWav_throws P input e Hctx).
  split.
  - intros H. right. split; [reflexivity |]. right.
    split; [reflexivity |]. right. split; [reflexivity |]. right.
    split; [reflexivity | exact H].
  - intros [[H _] | [_ [H | [_ [H | [_ [H | [_ H]]]]]]]];
      try discriminate; exact H.
Qed.

(** X3.  The encoder returns for every sample array and every rate, NaN and
    infinite samples included: the blob is typed [audio/wav], has
    [44 + 2 * sampleCount] bytes, and its header reads back with the four
    tags [RIFF], [WAVE], [fmt ] and [data], which are the four bytes at
    offsets 0, 8, 12 and 36 of the blob, with the fixed fields of 16-bit
    mono PCM and with the four size-dependent fields reduced modulo
    2^32. *)
Theorem encoder_is_total (samples : Float32Array) (sampleRate : Z) :
  exists wav header,
    encodeWavPcm16 samples sampleRate = Normal wav
    /\ blob_type wav = "audio/wav"%string
    /\ blob_size wav = (44 + 2 * length samples)%nat
    /\ parseWavHeader (blob_bytes wav) = Some header
    /\ riffTag header = charCodes "RIFF"
    /\ waveTag header = charCodes "WAVE"
    /\ fmtTag header = charCodes "fmt "
    /\ dataTag header = charCodes "data"
    /\ firstn 4 (blob_bytes wav) = [82; 73; 70; 70]%Z
    /\ firstn 4 (skipn 8 (blob_bytes wav)) = [87; 65; 86; 69]%Z
    /\ firstn 4 (skipn 12 (blob_bytes wav)) = [102; 109; 116; 32]%Z
    /\ firstn 4 (skipn 36 (blob_bytes wav)) = [100; 97; 116; 97]%Z
    /\ fmtSize header = 16%Z
    /\ formatTag header = 1%Z
    /\ channels header = 1%Z
    /\ bitsPerSample header = 16%Z
    /\ headerBlockAlign header = 2%Z
    /\ headerSampleRate header = (sampleRate mod 2 ^ 32)%Z
    /\ headerByteRate header = ((sampleRate * 2) mod 2 ^ 32)%Z
    /\ headerDataSize header
       = ((2 * Z.of_nat (length samples)) mod 2 ^ 32)%Z
    /\ riffSize header
       = ((36 + 2 * Z.of_nat (length samples)) mod 2 ^ 32)%Z.
Proof.
  eexists. eexists.
  split; [apply AudioUtilsFacts.encodeWavPcm16_eq |].
  split; [reflexivity |].
  split.
  { unfold blob_size, blob_bytes.
    rewrite length_app, AudioUtilsFacts.headerBytes_length,
      AudioUtilsFacts.flat_map_sampleBytes_length. reflexivity. }
  split; [apply AudioUtilsFacts.parseWavHeader_headerBytes |].
  cbn [riffTag waveTag fmtTag dataTag fmtSize formatTag channels
       bitsPerSample headerBlockAlign headerSampleRate headerByteRate
       headerDataSize riffSize blob_bytes].
  do 8 (split; [reflexivity |]).
  repeat split; f_equal; lia.
Qed.

(** X4.  The encoder saturates: a sample at or above 1 is written as 32767,
    a sample at or below -1 as -32768, and a NaN as 0. *)
Theorem encoder_saturates (samples : Float32Array) (sampleRate : Z)
    (i : nat) (x : number) :
  nth_error samples i = Some x ->
  exists wav,
    encodeWavPcm16 samples sampleRate = Normal wav
    /\ ((1 <=? x) = true ->
        getInt16 (blob_bytes wav) (44 + 2 * i) = 32767%Z)
    /\ ((x <=? -1) = true ->
        getInt16 (blob_bytes wav) (44 + 2 * i) = (-32768)%Z)
    /\ (PrimFloat.is_nan x = true ->
        getInt16 (blob_bytes wav) (44 + 2 * i) = 0%Z).
Proof.
  intros Hx.
  destruct (AudioUtilsMore.encoded_sample samples sampleRate i Hx)
    as (wav & Henc & Hint).
  exists wav. split; [exact Henc |].
  rewrite Hint. split; [| split].
  - intros H. now rewrite (AudioUtilsMore.clampUnit_above H).
  - intros H. now rewrite (AudioUtilsMore.clampUnit_below H).
  - intros H. now rewrite (NumFacts.nan_unique x H).
Qed.

Lemma encoder_saturates_witness :
  exists wav,
    encodeWavPcm16 [7.5; -infinity; nan] 16000 = Normal wav
    /\ getInt16 (blob_bytes wav) 44 = 32767%Z
    /\ getInt16 (blob_bytes wav) 46 = (-32768)%Z
    /\ getInt16 (blob_bytes wav) 48 = 0%Z.
Proof.
  destruct (@encoder_saturates [7.5; -infinity; nan] 16000 0 7.5 eq_refl)
    as (wav & Henc & H0 & _).
  destruct (@encoder_saturates [7.5; -infinity; nan] 16000 1 (-infinity)
              eq_refl) as (wav1 & Henc1 & _ & H1 & _).
  destruct (@encoder_saturates [7.5; -infinity; nan] 16000 2 nan eq_refl)
    as (wav2 & Henc2 & _ & _ & H2).
  rewrite Henc in Henc1, Henc2.
  injection Henc1 as <-. injection Henc2 as <-.
  exists wav. split; [exact Henc |].
  split; [exact (H0 eq_refl) |].
  split; [exact (H1 eq_refl) | exact (H2 eq_refl)].
Defined.

(** X5.  The encoder sees its samples only through the clamp: clamping
    them to [-1, 1] beforehand gives the same blob, byte for byte. *)
Theorem encoder_ignores_overshoot (samples : Float32Array) (sampleRate : Z) :
  encodeWavPcm16 (map clampUnit samples) sampleRate
  = encodeWavPcm16 samples sampleRate.
Proof.
  rewrite !AudioUtilsFacts.encodeWavPcm16_eq, length_map.
  do 3 f_equal.
  induction samples as [|x samples IH]; [reflexivity |].
  cbn [map flat_map].
  now rewrite IH, AudioUtilsMore.sampleBytes_clampUnit.
Qed.

(** X6.  [normalizeToFixedSamples] never throws; its result has the target
    length, agrees with the input where both have a sample, is zero after
    the end of the input, and is left as it is by a second normalisation
    to the same length. *)
Theorem normalizeToFixedSamples_fits (input : Float32Array) (target : nat) :
  exists out,
    normalizeToFixedSamples input target = Normal out
    /\ length out = target
    /\ (forall i, (i < target)%nat -> (i < length input)%nat ->
                  nth_error out i = nth_error input i)
    /\ (forall i, (i < target)%nat -> (length input <= i)%nat ->
                  nth_error out i = Some 0)
    /\ normalizeToFixedSamples out target = Normal out.
Proof.
  eexists. split; [apply AudioUtilsFacts.normalizeToFixedSamples_eq |].
  assert (Hlen : length (firstn target input
                         ++ repeat 0 (target - length input)) = target)
    by (rewrite length_app, length_firstn, repeat_length; lia).
  split; [exact Hlen |].
  split; [| split].
  - intros i Hi Hin.
    rewrite nth_error_app1 by (rewrite length_firstn; lia).
    rewrite nth_error_firstn.
    destruct (Nat.ltb_spec i target); [reflexivity | lia].
  - intros i Hi Hin.
    rewrite nth_error_app2 by (rewrite length_firstn; lia).
    rewrite length_firstn.
    rewrite nth_error_repeat by lia. reflexivity.
  - unfold normalizeToFixedSamples. rewrite Hlen.
    now rewrite Nat.eqb_refl.
Qed.

(** X7.  The gate takes the PCM of a conversion as it is: with a target
    count of 32000 the renormalisation at the head of the gate returns the
    converted array unchanged, and the sample rate handed over is the one in
    use. *)
Theorem gate_takes_converted_pcm_as_is (P : Platform) (input : Blob)
    (converted : WavConversionResult) (cfg : GateConfig) :
  convertBlobTo16kMonoWav P input = Normal converted ->
  GATE_TARGET_SAMPLE_COUNT cfg = Z.to_nat 32000 ->
  normalizePcmLength cfg (pcm converted) = Normal (pcm converted)
  /\ actualSampleRateOf cfg (sampleRate converted) = 16000
  /\ analyzePcmForSpeechGate cfg (pcm converted) (sampleRate converted)
     = Normal (decide cfg (metricsOf cfg (pcm converted) 16000)).
Proof.
  intros Hconv Hcount.
  destruct (AudioUtilsFacts.convertBlobTo16kMonoWav_inv P input Hconv)
    as (resampled & Hpcm & _ & Hrate).
  assert (Hnorm : normalizePcmLength cfg (pcm converted)
                  = Normal (pcm converted)).
  { unfold normalizePcmLength.
    rewrite Hpcm, AudioUtilsFacts.fixedLength_length, Hcount.
    now rewrite Nat.eqb_refl. }
  split; [exact Hnorm |].
  split; [rewrite Hrate; reflexivity |].
  unfold analyzePcmForSpeechGate. rewrite Hnorm, Hrate. reflexivity.
Qed.

Lemma gate_takes_converted_pcm_as_is_witness :
  exists converted,
    convertBlobTo16kMonoWav holdPlatform demoBlob = Normal converted
    /\ normalizePcmLength sampleConfig (pcm converted)
       = Normal (pcm converted).
Proof.
  destruct (@AudioUtilsFacts.convertBlobTo16kMonoWav_returns
              holdPlatform demoBlob demoDecoded demoMono demoResampled
              eq_refl eq_refl eq_refl eq_refl) as [wav Hconv].
  eexists. split; [exact Hconv |].
  exact (proj1 (@gate_takes_converted_pcm_as_is holdPlatform demoBlob _
                  sampleConfig Hconv eq_refl)).
Defined.

(** ** Speech gate *)

(** X8.  Decision and reason always agree: [PASS] comes with [Ok] and only
    with it, [REJECT] with [Flatline], [TooQuiet] or [NoSpeech], and
    [AMBIG] with [BorderlineQuiet], [ClippingSuspected] or
    [SpeechOffCenter]. *)
Theorem decision_matches_reason (cfg : GateConfig) (pcm : Float32Array)
    (sampleRate : number) :
  exists result,
    analyzePcmForSpeechGate cfg pcm sampleRate = Normal result
    /\ (decision result = PASS <-> reason result = Ok)
    /\ (decision result = REJECT
        <-> reason result = Flatline \/ reason result = TooQuiet
            \/ reason result = NoSpeech)
    /\ (decision result = AMBIG
        <-> reason result = BorderlineQuiet
            \/ reason result = ClippingSuspected
            \/ reason result = SpeechOffCenter).
Proof.
  rewrite GateFacts.analyzePcmForSpeechGate_eq.
  eexists. split; [reflexivity |].
  apply GateMore.decide_consistent.
Qed.

(** X9.  The gate passes a sample exactly when none of the six earlier
    tests fires on the reported metrics and both the speech ratio and the
    RMS reach their pass thresholds; it rejects exactly when the flatline,
    the too-quiet or the no-speech test fires. *)
Theorem pass_and_reject_conditions (cfg : GateConfig) (pcm : Float32Array)
    (sampleRate : number) :
  exists result,
    analyzePcmForSpeechGate cfg pcm sampleRate = Normal result
    /\ (let m := debugMetrics result in
        (decision result = PASS
         <-> (absMax m <? FLATLINE_ABS_MAX_THRESHOLD cfg)
             && (rms m <? FLATLINE_RMS_THRESHOLD cfg) = false
             /\ (rms m <? TOO_QUIET_RMS_THRESHOLD cfg) = false
             /\ (speechRatio m <? NO_SPEECH_RATIO_THRESHOLD cfg) = false
             /\ (rms m <? BORDERLINE_QUIET_RMS_THRESHOLD cfg) = false
             /\ (CLIP_RATIO_THRESHOLD cfg <? clipRatio m) = false
             /\ offCenter cfg m = false
             /\ (PASS_SPEECH_RATIO_THRESHOLD cfg <=? speechRatio m) = true
             /\ (BORDERLINE_QUIET_RMS_THRESHOLD cfg <=? rms m) = true)
        /\ (decision result = REJECT
            <-> (absMax m <? FLATLINE_ABS_MAX_THRESHOLD cfg)
                && (rms m <? FLATLINE_RMS_THRESHOLD cfg) = true
                \/ (rms m <? TOO_QUIET_RMS_THRESHOLD cfg) = true
                \/ (speechRatio m <? NO_SPEECH_RATIO_THRESHOLD cfg) = true)).
Proof.
  rewrite GateFacts.analyzePcmForSpeechGate_eq.
  eexists. split; [reflexivity |].
  rewrite GateFacts.decide_debugMetrics. cbv zeta.
  set (m := metricsOf cfg (normalized cfg pcm) sampleRate).
  split.
  - rewrite GateMore.decide_pass. unfold passes, flatline.
    rewrite !andb_true_iff, !negb_true_iff. tauto.
  - rewrite GateMore.decide_reject. unfold rejects, flatline.
    rewrite !orb_true_iff. tauto.
Qed.

(** X10.  The gate looks at the first [GATE_TARGET_SAMPLE_COUNT] samples
    only, and an array that ends early is analysed as if it went on with
    zeros: cutting the input at the target count, or appending zeros up to
    it, does not change the result. *)
Theorem gate_window (cfg : GateConfig) (pcm : Float32Array)
    (sampleRate : number) :
  analyzePcmForSpeechGate cfg (firstn (GATE_TARGET_SAMPLE_COUNT cfg) pcm)
                          sampleRate
  = analyzePcmForSpeechGate cfg pcm sampleRate
  /\ (forall k,
         (length pcm + k <= GATE_TARGET_SAMPLE_COUNT cfg)%nat ->
         analyzePcmForSpeechGate cfg (pcm ++ repeat 0 k) sampleRate
         = analyzePcmForSpeechGate cfg pcm sampleRate).
Proof.
  split.
  - rewrite !GateFacts.analyzePcmForSpeechGate_eq.
    now rewrite GateMore.normalized_firstn.
  - intros k Hk. rewrite !GateFacts.analyzePcmForSpeechGate_eq.
    now rewrite GateMore.normalized_padded.
Qed.

(** X11.  A sample rate that is zero, negative or NaN gives the result of
    the target rate; and whatever the rate, it only enters the two
    millisecond offsets: RMS, peak, clip ratio and speech ratio are the
    same for any two rates. *)
Theorem gate_sample_rate (cfg : GateConfig) (pcm : Float32Array)
    (sampleRate : number) :
  ((0 <? sampleRate) = false ->
   analyzePcmForSpeechGate cfg pcm sampleRate
   = analyzePcmForSpeechGate cfg pcm (GATE_TARGET_SAMPLE_RATE cfg))
  /\ (forall otherRate,
      exists result other,
        analyzePcmForSpeechGate cfg pcm sampleRate = Normal result
        /\ analyzePcmForSpeechGate cfg pcm otherRate = Normal other
        /\ rms (debugMetrics result) = rms (debugMetrics other)
        /\ absMax (debugMetrics result) = absMax (debugMetrics other)
        /\ clipRatio (debugMetrics result) = clipRatio (debugMetrics other)
        /\ speechRatio (debugMetrics result)
           = speechRatio (debugMetrics other)).
Proof.
  split.
  - intros H. rewrite !GateFacts.analyzePcmForSpeechGate_eq.
    now rewrite (@GateMore.metricsOf_fallback cfg _ sampleRate H).
  - intros otherRate. rewrite !GateFacts.analyzePcmForSpeechGate_eq.
    eexists. eexists. split; [reflexivity |]. split; [reflexivity |].
    rewrite !GateFacts.decide_debugMetrics. repeat split.
Qed.

(** X12.  The loop over the frames keeps its three counters together:
    either no frame counted as speech, and both indices are still -1, or
    the first index is at most the last, both are frames of the array, and
    the count is at least 1 and at most the number of frames from the first
    to the last.  So the result has a first offset exactly when it has a
    last one, and a speech ratio above 0 comes with both offsets. *)
Theorem speech_frames_consistent (cfg : GateConfig) (pcm : Float32Array)
    (sampleRate : number) :
  exists normalizedPcm result,
    normalizePcmLength cfg pcm = Normal normalizedPcm
    /\ analyzePcmForSpeechGate cfg pcm sampleRate = Normal result
    /\ (let scan := scanFrames cfg normalizedPcm in
        let frames := trip_count (frameCountOf cfg normalizedPcm) in
        (speechFrameCount scan = 0%nat
         /\ firstSpeechFrame scan = (-1)%Z
         /\ lastSpeechFrame scan = (-1)%Z)
        \/ ((0 <= firstSpeechFrame scan <= lastSpeechFrame scan)%Z
            /\ (lastSpeechFrame scan < Z.of_nat frames)%Z
            /\ (1 <= Z.of_nat (speechFrameCount scan)
                <= lastSpeechFrame scan - firstSpeechFrame scan + 1)%Z))
    /\ (firstSpeechMs (debugMetrics result) = None
        <-> lastSpeechMs (debugMetrics result) = None)
    /\ ((0 <? speechRatio (debugMetrics result)) = true ->
        firstSpeechMs (debugMetrics result) <> None
        /\ lastSpeechMs (debugMetrics result) <> None).
Proof.
  exists (normalized cfg pcm). eexists.
  split; [apply GateFacts.normalizePcmLength_eq |].
  split; [apply GateFacts.analyzePcmForSpeechGate_eq |].
  pose proof (GateMore.scanFrames_seen cfg (normalized cfg pcm)) as Hseen.
  split; [exact Hseen |].
  rewrite GateFacts.decide_debugMetrics.
  unfold metricsOf. cbn [firstSpeechMs lastSpeechMs speechRatio].
  unfold firstSpeechMsOf, lastSpeechMsOf, speechRatioOf.
  destruct Hseen as [(Hcount & Hf & Hl) | (Hfl & _ & _)].
  - rewrite Hf, Hl, Hcount. cbn. split; [tauto |].
    intros Hratio. exfalso.
    destruct (0 <? frameCountOf cfg (normalized cfg pcm)).
    + change (of_nat 0) with 0 in Hratio.
      rewrite NumFacts.zero_div_not_positive in Hratio. discriminate.
    + discriminate.
  - destruct (Z.eqb_spec (firstSpeechFrame
                            (scanFrames cfg (normalized cfg pcm))) (-1));
      [lia |].
    destruct (Z.eqb_spec (lastSpeechFrame
                            (scanFrames cfg (normalized cfg pcm))) (-1));
      [lia |].
    repeat split; discriminate.
Qed.

(** X13.  The reported peak is never NaN and never negative; it is at
    least the magnitude of every analysed sample that is not NaN, and it is
    0 or the magnitude of one of the analysed samples.  The number of
    clipped samples is at most the number of analysed samples. *)
Theorem reported_peak (cfg : GateConfig) (pcm : Float32Array)
    (sampleRate : number) :
  exists normalizedPcm result,
    normalizePcmLength cfg pcm = Normal normalizedPcm
    /\ analyzePcmForSpeechGate cfg pcm sampleRate = Normal result
    /\ PrimFloat.is_nan (absMax (debugMetrics result)) = false
    /\ (0 <=? absMax (debugMetrics result)) = true
    /\ (forall x, In x normalizedPcm -> PrimFloat.is_nan x = false ->
                  (Math_abs x <=? absMax (debugMetrics result)) = true)
    /\ (absMax (debugMetrics result) = 0
        \/ exists x, In x normalizedPcm
                     /\ absMax (debugMetrics result) = Math_abs x)
    /\ (clippedCount (scanSamples cfg normalizedPcm)
        <= length normalizedPcm)%nat.
Proof.
  exists (normalized cfg pcm). eexists.
  split; [apply GateFacts.normalizePcmLength_eq |].
  split; [apply GateFacts.analyzePcmForSpeechGate_eq |].
  rewrite GateFacts.decide_debugMetrics.
  unfold metricsOf. cbn [absMax].
  destruct (GateFacts.fold_scanSample_absMax cfg (normalized cfg pcm)
              {| sumSquares := 0; scanAbsMax := 0; clippedCount := 0 |}
              eq_refl) as (Hnan & Hge & Hall).
  split; [exact Hnan |].
  split; [exact Hge |].
  split; [exact Hall |].
  split.
  - apply (GateMore.fold_scanSample_attained cfg (normalized cfg pcm)
             {| sumSquares := 0; scanAbsMax := 0; clippedCount := 0 |} []).
    now left.
  - apply (GateMore.fold_scanSample_clipped cfg (normalized cfg pcm)
             {| sumSquares := 0; scanAbsMax := 0; clippedCount := 0 |}).
Qed.

(** ** Capture session *)

Local Open Scope Z_scope.

(** X14.  [pickSupportedMimeType] answers [null] without [MediaRecorder] or
    without [isTypeSupported]; otherwise it answers the first of the four
    candidates, in their order, that the recorder supports, and [null]
    exactly when it supports none of them. *)
Theorem mime_type_is_first_supported (b : Browser) :
  (hasMediaRecorder b = false \/ isTypeSupported b = None ->
   pickSupportedMimeType b = None)
  /\ (forall supported,
         hasMediaRecorder b = true ->
         isTypeSupported b = Some supported ->
         (forall picked,
             pickSupportedMimeType b = Some picked ->
             exists before after,
               MIME_CANDIDATES = (before ++ picked :: after)%list
               /\ supported picked = true
               /\ forall m, In m before -> supported m = false)
         /\ (pickSupportedMimeType b = None
             <-> forall m, In m MIME_CANDIDATES -> supported m = false)).
Proof.
  unfold pickSupportedMimeType. split.
  - intros [-> | ->]; [reflexivity |]. now destruct (hasMediaRecorder b).
  - intros supported -> ->. cbn [negb]. split.
    + intros picked Hpicked. now apply RecorderMore.find_first.
    + split.
      * intros Hnone m Hm. exact (find_none _ _ Hnone m Hm).
      * intros Hnone.
        destruct (find supported MIME_CANDIDATES) as [m |] eqn:Hfind;
          [| reflexivity].
        apply find_some in Hfind. destruct Hfind as [Hin Hm].
        rewrite (Hnone _ Hin) in Hm. discriminate.
Qed.

(** X15.  Whatever happens to the session, the interval, the timeout and
    the start time are there together: between two callbacks either all
    three refs are null or all three are set. *)
Theorem timers_are_set_and_cleared_together (browser : Browser)
    (platform : Platform) (gateConfig : GateConfig) (options : option Z)
    (events : list Event) :
  let s := run browser platform gateConfig options events initialSession in
  (timerRef (refs s) = None
   /\ autoStopRef (refs s) = None
   /\ startedAtRef (refs s) = None)
  \/ (exists interval timeout startedAt,
         timerRef (refs s) = Some interval
         /\ autoStopRef (refs s) = Some timeout
         /\ startedAtRef (refs s) = Some startedAt).
Proof.
  intros s.
  assert (Hs : timersTogether s)
    by (apply RecorderMore.run_timersTogether; now left).
  unfold timersTogether, timers in Hs.
  destruct Hs as [Hs | (interval & timeout & startedAt & Hs)];
    injection Hs as Ht Ha Hstart.
  - left. now repeat split.
  - right. exists interval, timeout, startedAt. now repeat split.
Qed.

(** X16.  No object URL leaks: whatever happens to the session, every URL
    it has created is either the current one or has been revoked, so at
    most one is live; and the current one is one it created. *)
Theorem object_urls_are_current_or_revoked (browser : Browser)
    (platform : Platform) (gateConfig : GateConfig) (options : option Z)
    (events : list Event) :
  let s := run browser platform gateConfig options events initialSession in
  (forall url,
      (url < urlsCreated (world s))%nat ->
      audioUrlRef (refs s) = Some url \/ In url (revokedUrls (world s)))
  /\ (forall url,
         audioUrlRef (refs s) = Some url ->
         (url < urlsCreated (world s))%nat).
Proof.
  intros s. apply RecorderMore.run_urlsTracked.
  split; intros url Hurl; [cbn in Hurl; lia | discriminate Hurl].
Qed.

(** X17.  A stream that the browser hands over to a pending request, in
    time or after the timeout, is from then on either the stream of the
    session or released, whatever happens afterwards: none is dropped
    with its tracks running. *)
Theorem granted_stream_is_held_or_released (browser : Browser)
    (platform : Platform) (gateConfig : GateConfig) (options : option Z)
    (s : Session) (outcome : MicOutcome) (env : RecorderEnv)
    (st : MediaStream) (events : list Event) :
  pendingMic (world s) <> [] ->
  outcome = MicGranted st \/ outcome = MicTimedOut (Some st) ->
  let s' :=
    run browser platform gateConfig options
        (MicSettled outcome env :: events) s in
  stream (state s') = Some st \/ In st (releasedStreams (world s')).
Proof.
  intros Hpending Houtcome s'. subst s'.
  change (run browser platform gateConfig options
              (MicSettled outcome env :: events) s)
    with (run browser platform gateConfig options events
              (step browser platform gateConfig options s
                    (MicSettled outcome env))).
  apply RecorderMore.run_streamsKept. cbn [step]. clear events.
  assert (Hstart :
            forall activeStream s0,
              stream (state (startRecordingWith browser activeStream env s0))
              = stream (state s0)
              /\ releasedStreams
                   (world (startRecordingWith browser activeStream env s0))
                 = releasedStreams (world s0))
    by (intros activeStream s0; split; RecorderMore.session_ops;
        RecorderMore.split_cases; reflexivity).
  unfold micSettled.
  destruct (pendingMic (world s)) as [|caller others];
    [now elim Hpending |].
  destruct Houtcome as [-> | ->]; unfold requestMicAccessSettled;
    cbn [refs setPendingMic onWorld mountedRef].
  - destruct (mountedRef (refs s)); cbn [negb]; destruct caller;
      rewrite ?(proj1 (Hstart _ _)), ?(proj2 (Hstart _ _)); cbn; auto.
  - destruct caller; cbn; auto.
Qed.

Lemma granted_stream_is_held_or_released_witness :
  pendingMic (world requestingSession) <> []
  /\ let s' :=
       run fullBrowser holdPlatform sampleConfig (Some 2000)
           [MicSettled (MicGranted 7%nat) (plainEnv 1000); Unmount]
           requestingSession in
     stream (state s') = Some 7%nat
     \/ In 7%nat (releasedStreams (world s')).
Proof.
  assert (Hpending : pendingMic (world requestingSession) <> [])
    by (vm_compute; discriminate).
  split; [exact Hpending |].
  exact (@granted_stream_is_held_or_released fullBrowser holdPlatform
           sampleConfig (Some 2000) requestingSession
           (MicGranted 7%nat) (plainEnv 1000) 7%nat [Unmount]
           Hpending (or_introl eq_refl)).
Defined.

(** X18.  Once the hook has been unmounted, and whatever happens after
    that, no object URL is live (every URL created is revoked, none is
    current) and the stream of the session, if there is one, has been
    released.  The cleanup releases [streamRef.current]; the effect that
    copies the stream into the ref is taken to have run with each
    [setStream]. *)
Theorem unmount_releases_everything (browser : Browser)
    (platform : Platform) (gateConfig : GateConfig) (options : option Z)
    (before after : list Event) :
  let s :=
    run browser platform gateConfig options (before ++ Unmount :: after)
        initialSession in
  mountedRef (refs s) = false
  /\ audioUrlRef (refs s) = None
  /\ (forall url,
         (url < urlsCreated (world s))%nat ->
         In url (revokedUrls (world s)))
  /\ (forall st,
         stream (state s) = Some st ->
         In st (releasedStreams (world s))).
Proof.
  intros s. subst s. rewrite RecorderMore.run_app.
  change (run browser platform gateConfig options (Unmount :: after)
              (run browser platform gateConfig options before
                   initialSession))
    with (run browser platform gateConfig options after
              (cleanup (run browser platform gateConfig options before
                            initialSession))).
  apply RecorderMore.run_released.
  apply RecorderMore.cleanup_released.
  - apply RecorderMore.run_urlsTracked.
    split; intros url Hurl; [cbn in Hurl; lia | discriminate Hurl].
  - apply RecorderMore.run_streamSynced. reflexivity.
Qed.

(** X19.  When the conversion of the oldest pending take succeeds while
    the hook is mounted, the session shows the result: status [Result], the
    WAV blob, a fresh object URL for it (the previous one revoked), sample
    rate 16000, duration 2000 and the verdict of the gate on the converted
    PCM.  The gate cannot fail, so a successful conversion never ends in
    [Error]. *)
Theorem conversion_settles_into_result (platform : Platform)
    (gateConfig : GateConfig) (s : Session) (resultBlob : Blob)
    (others : list Blob) (converted : WavConversionResult) :
  mountedRef (refs s) = true ->
  pendingConversions (world s) = resultBlob :: others ->
  convertBlobTo16kMonoWav platform resultBlob = Normal converted ->
  let s' := conversionSettled platform gateConfig s in
  status (state s') = Result
  /\ audioBlob (state s') = Some (blob converted)
  /\ outputSampleRate (state s') = Some 16000%float
  /\ measuredDurationMs (state s') = Some 2000%float
  /\ gateResult (state s')
     = Some (decide gateConfig
               (metricsOf gateConfig
                  (normalized gateConfig (pcm converted)) 16000%float))
  /\ audioUrl (state s') = Some (urlsCreated (world s))
  /\ audioUrlRef (refs s') = Some (urlsCreated (world s))
  /\ urlsCreated (world s') = S (urlsCreated (world s))
  /\ (forall url,
         audioUrlRef (refs s) = Some url ->
         In url (revokedUrls (world s')))
  /\ pendingConversions (world s') = others.
Proof.
  intros Hmounted Hpending Hconv s'. subst s'.
  rewrite (@RecorderMore.conversionSettled_ok platform gateConfig s
             resultBlob others converted Hmounted Hpending Hconv).
  destruct (AudioUtilsFacts.convertBlobTo16kMonoWav_inv _ _ Hconv)
    as (resampled & Hpcm & Hduration & Hrate).
  rewrite Hpcm, AudioUtilsFacts.durationMs_fixed in Hduration
    by apply AudioUtilsFacts.fixedLength_length.
  rewrite Hduration, Hrate. unfold clearAudioUrl. cbn.
  destruct (audioUrlRef (refs s)) as [url |]; cbn;
    repeat split; try reflexivity;
    intros url' Hurl; [injection Hurl as <-; now left | discriminate].
Qed.

Lemma conversion_settles_into_result_witness :
  exists converted,
    convertBlobTo16kMonoWav holdPlatform demoBlob = Normal converted
    /\ status (state (conversionSettled holdPlatform sampleConfig
                        stoppedSession)) = Result
    /\ audioBlob (state (conversionSettled holdPlatform sampleConfig
                           stoppedSession)) = Some (blob converted).
Proof.
  destruct RecorderMore.demoBlob_converts as [converted Hconv].
  destruct RecorderMore.stoppedSession_pending
    as (Hmounted & Hpending & _).
  exists converted. split; [exact Hconv |].
  destruct (@conversion_settles_into_result holdPlatform sampleConfig
              stoppedSession demoBlob [] converted Hmounted Hpending Hconv)
    as (Hstatus & Hblob & _).
  split; [exact Hstatus | exact Hblob].
Defined.

(** X20.  When the conversion of the oldest pending take throws while the
    hook is mounted, the session shows the failure and nothing else moves:
    status [Error], the name of the exception if it is a [DOMException] and
    [ConversionError] otherwise; blob, URL, gate result, duration and
    sample rate stay as they were and no object URL is created or
    revoked. *)
Theorem conversion_failure_is_reported (platform : Platform)
    (gateConfig : GateConfig) (s : Session) (resultBlob : Blob)
    (others : list Blob) (error : Exception) :
  mountedRef (refs s) = true ->
  pendingConversions (world s) = resultBlob :: others ->
  convertBlobTo16kMonoWav platform resultBlob = Throw error ->
  let s' := conversionSettled platform gateConfig s in
  status (state s') = Error
  /\ errorName (state s')
     = Some match error with
            | DOMException name => name
            | NativeError _ => "ConversionError"%string
            end
  /\ audioBlob (state s') = audioBlob (state s)
  /\ audioUrl (state s') = audioUrl (state s)
  /\ gateResult (state s') = gateResult (state s)
  /\ measuredDurationMs (state s') = measuredDurationMs (state s)
  /\ outputSampleRate (state s') = outputSampleRate (state s)
  /\ refs s' = refs s
  /\ urlsCreated (world s') = urlsCreated (world s)
  /\ revokedUrls (world s') = revokedUrls (world s)
  /\ pendingConversions (world s') = others.
Proof.
  intros Hmounted Hpending Hconv s'. subst s'.
  rewrite (@RecorderMore.conversionSettled_throw platform gateConfig s
             resultBlob others error Hmounted Hpending Hconv).
  destruct error; cbn; repeat split.
Qed.

Lemma conversion_failure_is_reported_witness :
  status (state (conversionSettled holdPlatform sampleConfig
                   silentSession)) = Error
  /\ errorName (state (conversionSettled holdPlatform sampleConfig
                         silentSession)) = Some "EncodingError"%string.
Proof.
  assert (Hmounted : mountedRef (refs silentSession) = true)
    by (vm_compute; reflexivity).
  assert (Hpending :
            pendingConversions (world silentSession)
            = [{| blob_bytes := []; blob_type := "audio/webm" |}])
    by (vm_compute; reflexivity).
  assert (Hconv :
            convertBlobTo16kMonoWav holdPlatform
              {| blob_bytes := []; blob_type := "audio/webm" |}
            = Throw (DOMException "EncodingError"))
    by (vm_compute; reflexivity).
  destruct (@conversion_failure_is_reported holdPlatform sampleConfig
              silentSession _ [] _ Hmounted Hpending Hconv)
    as (Hstatus & Hname & _).
  split; [exact Hstatus | exact Hname].
Defined.

(** X21.  One take from the click to the result.  In a mounted session
    that holds a stream and waits for no conversion, a call of
    [startRecording] through the callback of a render that saw neither
    [Requesting] nor [Recording], whose recorder starts,
    followed by the chunks of the recorder, the auto-stop and the stop of
    the recorder, hands the chunks, concatenated in their order, to the
    conversion; when that succeeds the React state is exactly: [Result],
    the WAV blob and its new URL, no error, the full recording window as
    elapsed time, duration 2000, rate 16000 and the verdict of the gate on
    the converted PCM. *)
Theorem take_ends_in_result (browser : Browser) (platform : Platform)
    (gateConfig : GateConfig) (options : option Z) (s : Session)
    (renderedStatus : RecorderStatus) (activeStream : MediaStream)
    (env : RecorderEnv) (recorderMime : string) (ds : list Blob)
    (converted : WavConversionResult) :
  hasMediaRecorder browser = true ->
  mountedRef (refs s) = true ->
  renderedStatus <> Requesting ->
  renderedStatus <> Recording ->
  streamRef (refs s) = Some activeStream ->
  pendingConversions (world s) = [] ->
  recorderCreated env = Normal recorderMime ->
  recorderStarted env = Normal tt ->
  convertBlobTo16kMonoWav platform
    {| blob_bytes := flat_map blob_bytes ds;
       blob_type :=
         firstTruthy recorderMime (pickSupportedMimeType browser)
                     "audio/webm" |}
  = Normal converted ->
  let s' :=
    run browser platform gateConfig options
        (CallStartRecording renderedStatus env
         :: map DataAvailable ds
            ++ [AutoStopTimeout; RecorderStopped; ConversionSettled]) s in
  state s'
  = {| status := Result;
       stream := stream (state s);
       audioBlob := Some (blob converted);
       audioUrl := Some (urlsCreated (world s));
       errorName := None;
       elapsedMs := maxDurationMs options;
       measuredDurationMs := Some 2000%float;
       gateResult :=
         Some (decide gateConfig
                 (metricsOf gateConfig
                    (normalized gateConfig (pcm converted)) 16000%float));
       outputSampleRate := Some 16000%float |}
  /\ timerRef (refs s') = None
  /\ autoStopRef (refs s') = None
  /\ chunksRef (refs s') = []
  /\ pendingConversions (world s') = [].
Proof.
  intros Hrecorder Hmounted Hrequesting Hrecording Hstream Hpending
         Hcreated Hstarted Hconv s'. subst s'.
  change (run browser platform gateConfig options
              (CallStartRecording renderedStatus env
               :: map DataAvailable ds
                  ++ [AutoStopTimeout; RecorderStopped; ConversionSettled])
              s)
    with (run browser platform gateConfig options
              (map DataAvailable ds
               ++ [AutoStopTimeout; RecorderStopped; ConversionSettled])
              (startRecording browser renderedStatus env s)).
  rewrite (@RecorderMore.startRecording_starts browser renderedStatus env
             s activeStream Hrequesting Hrecording Hstream).
  change (map DataAvailable ds
          ++ [AutoStopTimeout; RecorderStopped; ConversionSettled])%list
    with (map DataAvailable ds
          ++ [AutoStopTimeout; RecorderStopped] ++ [ConversionSettled])%list.
  rewrite app_assoc, RecorderMore.run_app.
  pose proof (@RecorderMore.run_recording browser platform gateConfig
                options s activeStream env recorderMime ds Hrecorder
                Hmounted Hcreated Hstarted) as Hstopped.
  cbv zeta in Hstopped.
  remember (run browser platform gateConfig options
                (map DataAvailable ds ++ [AutoStopTimeout; RecorderStopped])
                (startRecordingWith browser activeStream env s))
    as stopped eqn:Hrun.
  clear Hrun.
  destruct Hstopped
    as (Hstate & Hwaiting & Hmounted' & Hchunks & Htimers & Hurl & Hurls
        & _).
  rewrite Hpending in Hwaiting. cbn [app] in Hwaiting.
  unfold run. cbn [fold_left step].
  rewrite (@RecorderMore.conversionSettled_ok platform gateConfig stopped
             _ [] converted Hmounted' Hwaiting Hconv).
  destruct (AudioUtilsFacts.convertBlobTo16kMonoWav_inv _ _ Hconv)
    as (resampled & Hpcm & Hduration & Hrate).
  rewrite Hpcm, AudioUtilsFacts.durationMs_fixed in Hduration
    by apply AudioUtilsFacts.fixedLength_length.
  rewrite Hduration, Hrate. unfold clearAudioUrl. cbn.
  rewrite Hurl. cbn. rewrite Hstate, Hurls, Hchunks. cbn.
  unfold timers in Htimers.
  injection Htimers as Ht Ha _. now repeat split.
Qed.

Lemma take_ends_in_result_witness :
  exists converted,
    convertBlobTo16kMonoWav holdPlatform demoBlob = Normal converted
    /\ status (state (run fullBrowser holdPlatform sampleConfig (Some 2000)
                          (CallStartRecording Ready (plainEnv 1000)
                           :: map DataAvailable [demoBlob]
                              ++ [AutoStopTimeout; RecorderStopped;
                                  ConversionSettled])
                          readySession))
       = Result.
Proof.
  destruct RecorderMore.demoBlob_converts as [converted Hconv].
  exists converted. split; [exact Hconv |].
  assert (Hrequesting : Ready <> Requesting) by discriminate.
  assert (Hrecording : Ready <> Recording) by discriminate.
  assert (Hmounted : mountedRef (refs readySession) = true)
    by (vm_compute; reflexivity).
  assert (Hstream : streamRef (refs readySession) = Some 7%nat)
    by (vm_compute; reflexivity).
  assert (Hpending : pendingConversions (world readySession) = [])
    by (vm_compute; reflexivity).
  destruct (@take_ends_in_result fullBrowser holdPlatform sampleConfig
              (Some 2000) readySession Ready 7%nat (plainEnv 1000)
              "audio/webm" [demoBlob] converted eq_refl Hmounted
              Hrequesting Hrecording
              Hstream Hpending eq_refl eq_refl Hconv)
    as (Hstate & _).
  now rewrite Hstate.
Defined.

(** X22.  After the unmount the completions are dropped: the stop of the
    recorder, the settlement of a conversion, an error of the recorder, a
    chunk, and a microphone that is granted or refused leave the React
    state as it is and create no object URL.  The timeout of the
    microphone request has no such guard: it sets the error name and the
    status [Error] whether the hook is mounted or not. *)
Theorem nothing_is_set_after_unmount (browser : Browser)
    (platform : Platform) (gateConfig : GateConfig) (options : option Z)
    (s : Session) :
  mountedRef (refs s) = false ->
  (forall e,
      e = RecorderStopped
      \/ e = ConversionSettled
      \/ (exists name, e = RecorderError name)
      \/ (exists data, e = DataAvailable data)
      \/ (exists st env, e = MicSettled (MicGranted st) env)
      \/ (exists error env, e = MicSettled (MicRejected error) env) ->
      let s' := step browser platform gateConfig options s e in
      state s' = state s
      /\ urlsCreated (world s') = urlsCreated (world s)
      /\ audioUrlRef (refs s') = audioUrlRef (refs s)
      /\ mountedRef (refs s') = false)
  /\ (forall late env,
         pendingMic (world s) <> [] ->
         let s' :=
           step browser platform gateConfig options s
                (MicSettled (MicTimedOut late) env) in
         status (state s') = Error
         /\ errorName (state s') = Some "PermissionTimeoutError"%string).
Proof.
  intros Hmounted. split.
  - intros e He s'. subst s'.
    RecorderMore.open_session s. cbn in Hmounted. subst.
    destruct He as [-> | [-> | [[name ->] | [[data ->] | [(st & env & ->)
                   | (error & env & ->)]]]]];
      cbn [step]; do 3 RecorderMore.session_ops; RecorderMore.crunch;
      repeat split.
  - intros late env Hpending s'. subst s'.
    RecorderMore.open_session s. cbn in Hmounted. subst.
    cbn [step]. do 3 RecorderMore.session_ops. RecorderMore.crunch;
      first [now elim Hpending | split; reflexivity].
Qed.

Lemma nothing_is_set_after_unmount_witness :
  mountedRef (refs (cleanup stoppedSession)) = false
  /\ state (step fullBrowser holdPlatform sampleConfig (Some 2000)
                 (cleanup stoppedSession) ConversionSettled)
     = state (cleanup stoppedSession).
Proof.
  assert (Hmounted : mountedRef (refs (cleanup stoppedSession)) = false)
    by (vm_compute; reflexivity).
  split; [exact Hmounted |].
  exact (proj1 (proj1 (@nothing_is_set_after_unmount fullBrowser
                         holdPlatform sampleConfig (Some 2000)
                         (cleanup stoppedSession) Hmounted)
                  ConversionSettled (or_intror (or_introl eq_refl)))).
Defined.

(** X23.  The first click.  In a browser with [getUserMedia] and
    [MediaRecorder], a call of [startRecording] in a mounted session
    without a stream, through the callback of a render that saw neither
    [Requesting] nor [Recording], only asks for the microphone: the status is
    [Requesting] and nothing records yet.  When the microphone is granted
    the take starts at once with the new stream; when it is refused the
    status is [MicDenied] with the name of the exception ([UnknownError]
    if it is not a [DOMException]); when the request times out the status
    is [Error] with [PermissionTimeoutError], and a stream that arrives
    late is released.  In the last two cases no recorder is created. *)
Theorem first_start_asks_for_the_microphone (browser : Browser)
    (renderedStatus : RecorderStatus) (env : RecorderEnv) (s : Session) :
  hasGetUserMedia browser = true ->
  hasMediaRecorder browser = true ->
  mountedRef (refs s) = true ->
  renderedStatus <> Requesting ->
  renderedStatus <> Recording ->
  streamRef (refs s) = None ->
  pendingMic (world s) = [] ->
  let asked := startRecording browser renderedStatus env s in
  (status (state asked) = Requesting
   /\ pendingMic (world asked) = [FromStartRecording]
   /\ mediaRecorderRef (refs asked) = mediaRecorderRef (refs s)
   /\ timerRef (refs asked) = timerRef (refs s))
  /\ (forall st recorderMime,
         recorderCreated env = Normal recorderMime ->
         recorderStarted env = Normal tt ->
         let s' := micSettled browser (MicGranted st) env asked in
         status (state s') = Recording
         /\ stream (state s') = Some st
         /\ streamRef (refs s') = Some st
         /\ startedAtRef (refs s') = Some (now env)
         /\ elapsedMs (state s') = 0
         /\ mediaRecorderRef (refs s')
            = Some {| recorderState := recording;
                      recorderMimeType := recorderMime;
                      handlersAttached := true |})
  /\ (forall error,
         let s' := micSettled browser (MicRejected error) env asked in
         status (state s') = MicDenied
         /\ errorName (state s')
            = Some match error with
                   | DOMException name => name
                   | NativeError _ => "UnknownError"%string
                   end
         /\ mediaRecorderRef (refs s') = mediaRecorderRef (refs s))
  /\ (forall late,
         let s' := micSettled browser (MicTimedOut late) env asked in
         status (state s') = Error
         /\ errorName (state s') = Some "PermissionTimeoutError"%string
         /\ mediaRecorderRef (refs s') = mediaRecorderRef (refs s)
         /\ forall st, late = Some st ->
                       In st (releasedStreams (world s'))).
Proof.
  intros Hmic Hrecorder Hmounted Hrequesting Hrecording Hstream Hpending
         asked.
  assert (Hasked :
            asked
            = (s |> setLastMicRequestFailureRef None
                 |> setStatus Requesting
                 |> setErrorName None
                 |> setPendingMic [FromStartRecording])).
  { subst asked. unfold startRecording, requestMicAccess.
    rewrite Hstream, Hmic, Hrecorder. cbn. rewrite Hpending.
    destruct renderedStatus; first [reflexivity | congruence]. }
  rewrite Hasked. clear Hasked asked.
  RecorderMore.open_session s.
  cbn in Hmounted, Hstream, Hpending. subst.
  split; [now repeat split |].
  split; [| split].
  - intros st recorderMime Hcreated Hstarted s'. subst s'.
    unfold micSettled, requestMicAccessSettled, startRecordingWith. cbn.
    rewrite Hrecorder, Hcreated, Hstarted.
    do 2 RecorderMore.session_ops. RecorderMore.crunch; now repeat split.
  - intros error s'. subst s'. destruct error; now repeat split.
  - intros late s'. subst s'.
    destruct late as [st |]; cbn; repeat split;
      intros st' Hst; [injection Hst as <-; now left | discriminate].
Qed.

Lemma first_start_asks_for_the_microphone_witness :
  status (state (startRecording fullBrowser Idle (plainEnv 1000)
                                initialSession))
  = Requesting
  /\ status (state (micSettled fullBrowser (MicGranted 7%nat)
                      (plainEnv 1000)
                      (startRecording fullBrowser Idle (plainEnv 1000)
                                      initialSession)))
     = Recording.
Proof.
  assert (Hrequesting : Idle <> Requesting) by discriminate.
  assert (Hrecording : Idle <> Recording) by discriminate.
  destruct (@first_start_asks_for_the_microphone fullBrowser Idle
              (plainEnv 1000) initialSession eq_refl eq_refl eq_refl
              Hrequesting Hrecording eq_refl eq_refl)
    as ((Hasked & _) & Hgranted & _).
  split; [exact Hasked |].
  exact (proj1 (Hgranted 7%nat "audio/webm"%string eq_refl eq_refl)).
Defined.

(** X24.  In a browser without [getUserMedia] or without [MediaRecorder]
    nothing is ever started: whatever is called, the status is [Idle] or
    [Unsupported], there is no stream, no recorder, no timer and no pending
    request; and right after a call of [startRecording] that its guard
    lets through the status is [Unsupported] with [NotSupportedError]. *)
Theorem unsupported_browser_never_starts (browser : Browser)
    (platform : Platform) (gateConfig : GateConfig) (options : option Z)
    (events : list Event) :
  hasGetUserMedia browser = false \/ hasMediaRecorder browser = false ->
  let s := run browser platform gateConfig options events initialSession in
  (status (state s) = Idle \/ status (state s) = Unsupported)
  /\ stream (state s) = None
  /\ mediaRecorderRef (refs s) = None
  /\ timerRef (refs s) = None
  /\ autoStopRef (refs s) = None
  /\ pendingMic (world s) = []
  /\ (forall earlier renderedStatus env,
         events
         = (earlier ++ [CallStartRecording renderedStatus env])%list ->
         renderedStatus <> Requesting ->
         renderedStatus <> Recording ->
         status (state s) = Unsupported
         /\ errorName (state s) = Some "NotSupportedError"%string).
Proof.
  intros Hbrowser s.
  assert (Hinitial : neverStarted initialSession)
    by (unfold neverStarted; cbn; repeat split; now left).
  assert (Hs : neverStarted s)
    by now apply RecorderMore.run_neverStarted.
  pose proof Hs as (Hstatus & Hstream & _ & Hrecorder & Htimer & Hauto
                    & Hmic & _).
  repeat (split; [assumption |]).
  intros earlier renderedStatus env -> Hrequesting Hrecording. subst s.
  rewrite RecorderMore.run_app.
  set (before := run browser platform gateConfig options earlier
                     initialSession).
  assert (Hbefore : neverStarted before)
    by now apply RecorderMore.run_neverStarted.
  unfold run. cbn [fold_left step]. unfold startRecording.
  pose proof Hbefore as (Hstatus' & _ & Href & _).
  rewrite Href.
  destruct (@RecorderMore.requestMicAccess_neverStarted browser
              FromStartRecording before Hbrowser Hbefore)
    as (_ & Hunsupported & Hname).
  destruct renderedStatus; try congruence; now split.
Qed.

Lemma unsupported_browser_never_starts_witness :
  let noRecorder :=
    {| hasGetUserMedia := true;
       hasMediaRecorder := false;
       isTypeSupported := None |} in
  status (state (run noRecorder holdPlatform sampleConfig (Some 2000)
                     [CallRetry; CallStartRecording Unsupported (plainEnv 1000)]
                     initialSession))
  = Unsupported.
Proof.
  intros noRecorder.
  destruct (@unsupported_browser_never_starts noRecorder holdPlatform
              sampleConfig (Some 2000)
              [CallRetry; CallStartRecording Unsupported (plainEnv 1000)]
              (or_intror eq_refl))
    as (_ & _ & _ & _ & _ & _ & Hlast).
  assert (Hrequesting : Unsupported <> Requesting) by discriminate.
  assert (Hrecording : Unsupported <> Recording) by discriminate.
  exact (proj1 (Hlast [CallRetry] Unsupported (plainEnv 1000) eq_refl
                  Hrequesting Hrecording)).
Defined.

(** X25.  While the hook is mounted, the status [Result] never comes
    without its results: whatever has happened to the session, in [Result]
    there are a WAV blob, a verdict of the gate and an object URL that is
    the current one in [audioUrlRef], was created by [createObjectURL]
    and is not among the URLs passed to [revokeObjectURL]; and the
    duration and the sample rate on display are 2000 and 16000. *)
Theorem result_is_complete (browser : Browser) (platform : Platform)
    (gateConfig : GateConfig) (options : option Z) (events : list Event) :
  let s := run browser platform gateConfig options events initialSession in
  mountedRef (refs s) = true ->
  status (state s) = Result ->
  exists wav gate url,
    audioBlob (state s) = Some wav
    /\ gateResult (state s) = Some gate
    /\ audioUrl (state s) = Some url
    /\ audioUrlRef (refs s) = Some url
    /\ measuredDurationMs (state s) = Some 2000%float
    /\ outputSampleRate (state s) = Some 16000%float
    /\ (url < urlsCreated (world s))%nat
    /\ ~ In url (revokedUrls (world s)).
Proof.
  intros s Hmounted Hstatus.
  assert (Hcomplete : resultComplete s).
  { apply RecorderMore.run_resultComplete.
    intros _ Hinitial. discriminate Hinitial. }
  assert (Hfresh : urlsFresh s)
    by apply RecorderMore.run_urlsFresh,
             RecorderMore.initialSession_urlsFresh.
  destruct (Hcomplete Hmounted Hstatus)
    as (wav & gate & url & Hwav & Hgate & Hurl & Href & Hduration & Hrate).
  destruct (proj2 Hfresh url Href) as [Hcreated Hlive].
  exists wav, gate, url. repeat split; assumption.
Qed.

Lemma result_is_complete_witness :
  let s :=
    run fullBrowser holdPlatform sampleConfig (Some 2000)
        (demoGrant ++ demoTake ++ [ConversionSettled]) initialSession in
  status (state s) = Result
  /\ exists wav gate url,
       audioBlob (state s) = Some wav
       /\ gateResult (state s) = Some gate
       /\ audioUrl (state s) = Some url
       /\ audioUrlRef (refs s) = Some url
       /\ measuredDurationMs (state s) = Some 2000%float
       /\ outputSampleRate (state s) = Some 16000%float
       /\ (url < urlsCreated (world s))%nat
       /\ ~ In url (revokedUrls (world s)).
Proof.
  intros s.
  destruct RecorderMore.demo_run_result as [Hmounted Hstatus].
  split; [exact Hstatus |].
  exact (@result_is_complete fullBrowser holdPlatform sampleConfig
           (Some 2000) (demoGrant ++ demoTake ++ [ConversionSettled])
           Hmounted Hstatus).
Defined.

(** X26.  While the hook is mounted, the status [Recording] never comes
    without its clock: whatever has happened to the session, in [Recording]
    the interval and the auto-stop timeout are registered, the start time
    is set and there is a recorder with its handlers attached, so the take
    is on its way to the auto-stop. *)
Theorem recording_is_timed (browser : Browser) (platform : Platform)
    (gateConfig : GateConfig) (options : option Z) (events : list Event) :
  let s := run browser platform gateConfig options events initialSession in
  mountedRef (refs s) = true ->
  status (state s) = Recording ->
  exists interval timeout startedAt recorder,
    timerRef (refs s) = Some interval
    /\ autoStopRef (refs s) = Some timeout
    /\ startedAtRef (refs s) = Some startedAt
    /\ mediaRecorderRef (refs s) = Some recorder
    /\ handlersAttached recorder = true.
Proof.
  intros s.
  apply (@RecorderMore.run_recordingTimed browser platform gateConfig
           options events initialSession).
  intros _ Hstatus. discriminate Hstatus.
Qed.

Lemma recording_is_timed_witness :
  status (state recordingSession) = Recording
  /\ exists interval timeout startedAt recorder,
       timerRef (refs recordingSession) = Some interval
       /\ autoStopRef (refs recordingSession) = Some timeout
       /\ startedAtRef (refs recordingSession) = Some startedAt
       /\ mediaRecorderRef (refs recordingSession) = Some recorder
       /\ handlersAttached recorder = true.
Proof.
  split; [reflexivity |].
  exact (@recording_is_timed fullBrowser holdPlatform sampleConfig
           (Some 2000)
           [CallStartRecording Idle (plainEnv 1000);
            MicSettled (MicGranted 7%nat) (plainEnv 1000);
            DataAvailable
              {| blob_bytes := [1; 2; 3]; blob_type := "audio/webm" |}]
           eq_refl eq_refl).
Defined.

(** ** The page *)

(** X27.  The main button and its handler agree.  Button, handler and
    [startRecording] belong to one render and read its status.  In the
    three states in which the button is disabled a click, were it
    delivered, changes nothing: the handler returns at once in [Recording]
    and [Processing], and [startRecording] does in [Requesting].  In every
    other state a click is a call of [startRecording]. *)
Theorem disabled_button_does_nothing (browser : Browser)
    (renderedStatus : RecorderStatus) (env : RecorderEnv) (s : Session) :
  (mainButtonDisabled renderedStatus = true ->
   handleMainButtonClick browser renderedStatus env s = s)
  /\ (mainButtonDisabled renderedStatus = false ->
      handleMainButtonClick browser renderedStatus env s
      = startRecording browser renderedStatus env s).
Proof.
  unfold handleMainButtonClick, mainButtonDisabled, startRecording.
  split; destruct renderedStatus; intros H;
    first [discriminate H | reflexivity].
Qed.

(** X28.  The width of the progress bar is capped: whatever the elapsed
    time and the recording window, the percentage is at most 100 or is not
    a number at all. *)
Theorem progress_bar_is_capped (elapsedMs maxDurationMs : Z) :
  PrimFloat.is_nan (progressPercent elapsedMs maxDurationMs) = true
  \/ (progressPercent elapsedMs maxDurationMs <=? 100)%float = true.
Proof.
  unfold progressPercent, Math_min.
  set (ratio := (of_Z elapsedMs / of_Z maxDurationMs * 100)%float).
  destruct (PrimFloat.is_nan ratio) eqn:Hnan; [now left | right].
  change (PrimFloat.is_nan 100%float) with false. cbv iota.
  destruct (ratio <? 100)%float eqn:Hlt; [now apply NumOrder.ltb_leb |].
  destruct (100 <? ratio)%float eqn:Hgt; [reflexivity |].
  destruct (PrimFloat.get_sign ratio); [| reflexivity].
  apply NumOrder.leb_of_not_ltb; [reflexivity | exact Hnan | exact Hgt].
Qed.

(** ** Earlier revisions *)


(** X30.  The first page walks its four stages in a circle: a click always
    has a next stage, which is another one, the step on display goes from
    1 to 4 and back to 1, as many dots are active as the step says, and
    four clicks lead back to the stage they started from. *)
Theorem stages_go_in_a_circle (stage : KwsPrototype.KwsStage) :
  (1 <= KwsPrototype.currentStep stage <= 4)%Z
  /\ (exists next,
         KwsPrototype.handleRecordButtonClick stage = Some next
         /\ next <> stage
         /\ KwsPrototype.currentStep next
            = (if (KwsPrototype.currentStep stage =? 4)%Z then 1
               else KwsPrototype.currentStep stage + 1)%Z)
  /\ Z.of_nat (length (filter (fun active => active)
                              (KwsPrototype.activeDots stage)))
     = KwsPrototype.currentStep stage
  /\ KwsPrototype.clicks 4 stage = Some stage
  /\ forall n,
       (0 < n < 4)%nat ->
       KwsPrototype.clicks n stage <> Some stage.
Proof.
  split; [destruct stage; vm_compute; split; discriminate |].
  split.
  { destruct stage; eexists; (split; [reflexivity |]);
      (split; [discriminate | reflexivity]). }
  split; [destruct stage; reflexivity |].
  split; [destruct stage; reflexivity |].
  intros n Hn.
  assert (Hcases : n = 1%nat \/ n = 2%nat \/ n = 3%nat) by lia.
  destruct Hcases as [-> | [-> | ->]]; destruct stage; discriminate.
Qed.
